(** * CA_lab3: assembler and tick-accurate simulator of a small register machine

    A shallow embedding of [isa.py], [processor.py] and [translation.py].
    Python objects become records, dictionaries become finite maps, raised
    exceptions become an explicit result, and mutation becomes state passing. *)

From Stdlib Require Import ZArith List String Ascii Bool Lia.
From Stdlib Require Import Floats.SpecFloat DecimalString.
From stdpp Require Import gmap strings list.

Local Open Scope Z_scope.

(** ** Python exceptions and results *)

(** The [SyntaxError]s of [translate], one constructor per message. *)
Inductive syntax_error : Type :=
| unknown_section_name (name : string)
| duplicate_label (shown : string)
| no_active_section
| variable_declaration_arity
| invalid_data (term : string)
| unknown_instruction (term : string)
| unknown_command (term : string)
| data_label_outside_ld_sv (term : string)
| bad_term (term : string)
| wrong_arity (command : string) (expected : nat)
| output_must_be_register
| constant_not_second
| in_arg_must_be_register
| arg1_must_be_register
| data_must_be_register
| unsupported_command (command : string)
| vector_declaration_arity
| vector_num_out_of_range
| vector_address_not_int.

Inductive exn : Type :=
| StopIteration
| MemoryError
| EOFError
| KeyError
| IndexError
| TypeError
| ValueError
| ZeroDivisionError
| OverflowError
| AssertionError
| FileNotFoundError
| SyntaxError (e : syntax_error).

(** The result of evaluating a Python expression: a value, a raised
    exception, or a loop that never exits. *)
Inductive res (A : Type) : Type :=
| Ok (a : A)
| Raise (e : exn)
| Hang.
Arguments Ok {A} a.
Arguments Raise {A} e.
Arguments Hang {A}.

Definition res_bind {A B : Type} (r : res A) (k : A -> res B) : res B :=
  match r with
  | Ok a => k a
  | Raise e => Raise e
  | Hang => Hang
  end.

(** ** Python numbers

    The datapath carries Python numbers.  Integers are unbounded; the true
    division [/] of [Alu.operations] produces a [float], an IEEE 754 binary64
    value, modelled with the Standard Library's [spec_float]. *)

Module PyNum.

Inductive pyval : Type :=
| PyInt (z : Z)
| PyFloat (f : spec_float).

Definition prec : Z := 53.
Definition emax : Z := 1024.

Definition fadd := SFadd prec emax.
Definition fsub := SFsub prec emax.
Definition fmul := SFmul prec emax.
Definition fdiv := SFdiv prec emax.

(** An integer as an exact (unnormalised) mantissa with exponent 0. *)
Definition raw_of_int (z : Z) : spec_float :=
  match z with
  | Z0 => S754_zero false
  | Zpos p => S754_finite false p 0
  | Zneg p => S754_finite true p 0
  end.

(** [float(z)]: round to nearest even; too large an integer raises. *)
Definition float_of_int (z : Z) : res spec_float :=
  match binary_normalize prec emax z 0 false with
  | S754_infinity _ => Raise OverflowError
  | f => Ok f
  end.

Definition to_float (v : pyval) : res spec_float :=
  match v with
  | PyInt z => float_of_int z
  | PyFloat f => Ok f
  end.

Definition float_binop (op : spec_float -> spec_float -> spec_float)
    (a b : pyval) : res pyval :=
  res_bind (to_float a) (fun fa =>
  res_bind (to_float b) (fun fb => Ok (PyFloat (op fa fb)))).

Definition py_add (a b : pyval) : res pyval :=
  match a, b with
  | PyInt x, PyInt y => Ok (PyInt (x + y))
  | _, _ => float_binop fadd a b
  end.

Definition py_sub (a b : pyval) : res pyval :=
  match a, b with
  | PyInt x, PyInt y => Ok (PyInt (x - y))
  | _, _ => float_binop fsub a b
  end.

Definition py_mul (a b : pyval) : res pyval :=
  match a, b with
  | PyInt x, PyInt y => Ok (PyInt (x * y))
  | _, _ => float_binop fmul a b
  end.

Definition is_fzero (f : spec_float) : bool :=
  match f with S754_zero _ => true | _ => false end.

(** [a / b]: true division.  On two integers the exact quotient is rounded
    once; a quotient too large for a float raises [OverflowError]. *)
Definition py_truediv (a b : pyval) : res pyval :=
  match a, b with
  | PyInt x, PyInt y =>
      if y =? 0 then Raise ZeroDivisionError
      else match fdiv (raw_of_int x) (raw_of_int y) with
           | S754_infinity _ => Raise OverflowError
           | q => Ok (PyFloat q)
           end
  | _, _ =>
      res_bind (to_float a) (fun fa =>
      res_bind (to_float b) (fun fb =>
        if is_fzero fb then Raise ZeroDivisionError
        else Ok (PyFloat (fdiv fa fb))))
  end.

(** C [fmod]: the exact remainder, with the sign of the dividend. *)
Definition fmod (x y : spec_float) : spec_float :=
  match x, y with
  | S754_nan, _ | _, S754_nan => S754_nan
  | S754_infinity _, _ => S754_nan
  | _, S754_zero _ => S754_nan
  | S754_zero _, _ => x
  | S754_finite _ _ _, S754_infinity _ => x
  | S754_finite sx mx ex, S754_finite _ my ey =>
      let ez := Z.min ex ey in
      let X := Zpos (fst (shl_align mx ex ez)) in
      let Y := Zpos (fst (shl_align my ey ez)) in
      binary_normalize prec emax (cond_Zopp sx (X mod Y)) ez sx
  end.

Definition fsign (f : spec_float) : bool :=
  match f with
  | S754_zero s | S754_infinity s | S754_finite s _ _ => s
  | S754_nan => false
  end.

(** [f < 0.0] *)
Definition fneg (f : spec_float) : bool :=
  match f with
  | S754_infinity s | S754_finite s _ _ => s
  | _ => false
  end.

(** CPython's [float_rem]. *)
Definition float_rem (x y : spec_float) : spec_float :=
  let m := fmod x y in
  if is_fzero m then S754_zero (fsign y)
  else if xorb (fneg y) (fneg m) then fadd m y else m.

(** [a % b]: on integers the floored remainder, whose sign is the divisor's. *)
Definition py_mod (a b : pyval) : res pyval :=
  match a, b with
  | PyInt x, PyInt y =>
      if y =? 0 then Raise ZeroDivisionError else Ok (PyInt (x mod y))
  | _, _ =>
      res_bind (to_float a) (fun fa =>
      res_bind (to_float b) (fun fb =>
        if is_fzero fb then Raise ZeroDivisionError
        else Ok (PyFloat (float_rem fa fb))))
  end.

(** Exact comparison of a float with an integer, as CPython's
    [float_richcompare] does; [None] for NaN. *)
Definition fcompare_int (f : spec_float) (z : Z) : option comparison :=
  match f with
  | S754_nan => None
  | S754_infinity s => Some (if s then Lt else Gt)
  | S754_zero _ => Some (0 ?= z)
  | S754_finite s m e =>
      let sm := cond_Zopp s (Zpos m) in
      Some (if 0 <=? e then (sm * 2 ^ e ?= z) else (sm ?= z * 2 ^ (- e)))
  end.

Definition py_compare (a b : pyval) : option comparison :=
  match a, b with
  | PyInt x, PyInt y => Some (x ?= y)
  | PyFloat f, PyInt y => fcompare_int f y
  | PyInt x, PyFloat g => option_map CompOpp (fcompare_int g x)
  | PyFloat f, PyFloat g => SFcompare f g
  end.

Definition py_gt (a b : pyval) : bool :=
  match py_compare a b with Some Gt => true | _ => false end.
Definition py_lt (a b : pyval) : bool :=
  match py_compare a b with Some Lt => true | _ => false end.
Definition py_eq (a b : pyval) : bool :=
  match py_compare a b with Some Eq => true | _ => false end.

(** The least integer not below a finite float (0 for the others). *)
Definition fceil (f : spec_float) : Z :=
  match f with
  | S754_finite s m e =>
      let sm := cond_Zopp s (Zpos m) in
      if 0 <=? e then sm * 2 ^ e else - ((- sm) / 2 ^ (- e))
  | _ => 0
  end.

Definition fis_finite (f : spec_float) : bool :=
  match f with
  | S754_finite _ _ _ | S754_zero _ => true
  | _ => false
  end.

(** A [while cond(res): res = body(res)] loop over one Python number. *)
Fixpoint py_while (fuel : nat) (cond : pyval -> bool)
    (body : pyval -> res pyval) (v : pyval) : res pyval :=
  if cond v then
    match fuel with
    | O => Hang
    | S n => res_bind (body v) (py_while n cond body)
    end
  else Ok v.

End PyNum.
Export PyNum.

(** ** isa.py: the instruction set *)

Inductive Opcode : Type :=
| DECLARE | LD | SV | ADD | SUB | MUL | DIV | MOD | CMP | OUT | IN
| JMP | JE | JNE | IRET | STI | CLI | HLT.

Inductive Register : Type := R0 | R1 | R2 | R3 | R4 | PC | SP.

Inductive OperandType : Type := REGISTER | CONSTANT.

Global Instance Opcode_eq_dec : EqDecision Opcode.
Proof. solve_decision. Defined.
Global Instance Register_eq_dec : EqDecision Register.
Proof. solve_decision. Defined.
Global Instance OperandType_eq_dec : EqDecision OperandType.
Proof. solve_decision. Defined.

(** A Python [str]: the list of its code points. *)
Definition pystr : Type := list Z.

(** ** State and exceptions: methods as state transformers

    A method of an object with state [S] returns a result and the state it
    leaves behind; what it mutated before raising stays mutated. *)

Definition M (S A : Type) : Type := S -> res A * S.

Definition ret {S A} (a : A) : M S A := fun s => (Ok a, s).
Definition raise {S A} (e : exn) : M S A := fun s => (Raise e, s).
Definition bind {S A B} (m : M S A) (k : A -> M S B) : M S B :=
  fun s =>
    match m s with
    | (Ok a, s') => k a s'
    | (Raise e, s') => (Raise e, s')
    | (Hang, s') => (Hang, s')
    end.
Definition get {S} : M S S := fun s => (Ok s, s).
Definition modify {S} (f : S -> S) : M S unit := fun s => (Ok tt, f s).
Definition lift_res {S A} (r : res A) : M S A := fun s => (r, s).

Notation "'do' x <- m ; k" := (bind m (fun x => k))
  (at level 10, x name, m at level 99, k at level 200, only parsing).
Notation "m >>> k" := (bind m (fun _ => k))
  (at level 99, k at level 200, right associativity, only parsing).

(** Python list subscripts: a negative index counts from the end. *)
Definition py_index (len : nat) (i : pyval) : res nat :=
  match i with
  | PyFloat _ => Raise TypeError
  | PyInt z =>
      let n := Z.of_nat len in
      let j := if z <? 0 then z + n else z in
      if (0 <=? j) && (j <? n) then Ok (Z.to_nat j) else Raise IndexError
  end.

Definition py_getitem {A} (l : list A) (i : pyval) : res A :=
  res_bind (py_index (length l) i) (fun j =>
    match l !! j with Some a => Ok a | None => Raise IndexError end).

Definition py_setitem {A} (l : list A) (i : pyval) (x : A) : res (list A) :=
  res_bind (py_index (length l) i) (fun j => Ok (<[j:=x]> l)).

(** ** processor.py *)

Definition DATA_MEM_SZ : Z := 10000.
Definition INT32_MAX : Z := 2147483647.
Definition INT32_MIN : Z := -2147483648.

Inductive AluOperations : Type :=
| ALU_DIV | ALU_MOD | ALU_CMP | ALU_ADD | ALU_INC | ALU_DEC | ALU_SUB
| ALU_MUL | ALU_LEFT | ALU_RIGHT | ALU_NOP.

(** [opcode2alu.get(opcode)]; [None] for the opcodes it has no entry for. *)
Definition opcode2alu (o : Opcode) : option AluOperations :=
  match o with
  | DIV => Some ALU_DIV
  | MOD => Some ALU_MOD
  | CMP => Some ALU_CMP
  | ADD => Some ALU_ADD
  | SUB => Some ALU_SUB
  | MUL => Some ALU_MUL
  | _ => None
  end.

(** [Alu.operations]: the table of lambdas. *)
Definition operations (op : AluOperations) (left right : pyval) : res pyval :=
  match op with
  | ALU_DIV => py_truediv left right
  | ALU_MOD => py_mod left right
  | ALU_CMP => py_sub left right
  | ALU_ADD => py_add left right
  | ALU_INC => py_add left (PyInt 1)
  | ALU_DEC => py_sub left (PyInt 1)
  | ALU_SUB => py_sub left right
  | ALU_MUL => py_mul left right
  | ALU_LEFT => Ok left
  | ALU_RIGHT => Ok right
  | ALU_NOP => Ok (PyInt 0)
  end.

Record Alu : Type := mkAlu {
  alu_left : pyval;
  alu_right : pyval;
  zero_flag : bool }.

(** An operand of an instruction record: [arg2] together with its
    [arg2_type] tag ([Reg] for ['reg'], [Const] for ['const']). *)
Inductive operand : Type :=
| Reg (r : Register)
| Const (z : Z).

Global Instance operand_eq_dec : EqDecision operand.
Proof. solve_decision. Defined.

(** [RegFile].  The [registers] dictionary always holds the seven named
    registers; [int_keys] holds what an assignment [registers[n] = v] with an
    integer key [n] adds to it (an [IN] whose operand is an immediate). *)
Record RegFile : Type := mkRegFile {
  registers : Register -> pyval;
  int_keys : list (Z * pyval);
  operand_1 : Register;
  operand_2 : Register;
  output : operand }.

(** What [print] appended to [output_buffer]. *)
Inductive out_item : Type :=
| OutNum (v : pyval)
| OutChr (c : Z).

Record DataPath : Type := mkDataPath {
  data_memory : list pyval;
  reg_file : RegFile;
  alu : Alu;
  alu_bus : pyval;
  output_bus : pyval;
  data_bus : pyval;
  input_buffer : list pystr;
  input_pointer : Z;
  output_buffer : list out_item;
  output_int : bool }.

Definition set_registers (f : (Register -> pyval) -> Register -> pyval) (rf : RegFile) :=
  mkRegFile (f (registers rf)) (int_keys rf) (operand_1 rf) (operand_2 rf) (output rf).
Definition set_reg_file (f : RegFile -> RegFile) (d : DataPath) : DataPath :=
  mkDataPath (data_memory d) (f (reg_file d)) (alu d) (alu_bus d) (output_bus d)
    (data_bus d) (input_buffer d) (input_pointer d) (output_buffer d) (output_int d).
Definition set_alu (a : Alu) (d : DataPath) : DataPath :=
  mkDataPath (data_memory d) (reg_file d) a (alu_bus d) (output_bus d)
    (data_bus d) (input_buffer d) (input_pointer d) (output_buffer d) (output_int d).
Definition set_data_memory (m : list pyval) (d : DataPath) : DataPath :=
  mkDataPath m (reg_file d) (alu d) (alu_bus d) (output_bus d)
    (data_bus d) (input_buffer d) (input_pointer d) (output_buffer d) (output_int d).
Definition set_alu_bus (v : pyval) (d : DataPath) : DataPath :=
  mkDataPath (data_memory d) (reg_file d) (alu d) v (output_bus d)
    (data_bus d) (input_buffer d) (input_pointer d) (output_buffer d) (output_int d).
Definition set_output_bus (v : pyval) (d : DataPath) : DataPath :=
  mkDataPath (data_memory d) (reg_file d) (alu d) (alu_bus d) v
    (data_bus d) (input_buffer d) (input_pointer d) (output_buffer d) (output_int d).
Definition set_data_bus (v : pyval) (d : DataPath) : DataPath :=
  mkDataPath (data_memory d) (reg_file d) (alu d) (alu_bus d) (output_bus d)
    v (input_buffer d) (input_pointer d) (output_buffer d) (output_int d).
Definition set_input_buffer (b : list pystr) (d : DataPath) : DataPath :=
  mkDataPath (data_memory d) (reg_file d) (alu d) (alu_bus d) (output_bus d)
    (data_bus d) b (input_pointer d) (output_buffer d) (output_int d).
Definition set_input_pointer (p : Z) (d : DataPath) : DataPath :=
  mkDataPath (data_memory d) (reg_file d) (alu d) (alu_bus d) (output_bus d)
    (data_bus d) (input_buffer d) p (output_buffer d) (output_int d).
Definition set_output_buffer (b : list out_item) (d : DataPath) : DataPath :=
  mkDataPath (data_memory d) (reg_file d) (alu d) (alu_bus d) (output_bus d)
    (data_bus d) (input_buffer d) (input_pointer d) b (output_int d).

(** [registers[k] = v] *)
Definition upd (k : Register) (v : pyval) (regs : Register -> pyval) : Register -> pyval :=
  fun r => if decide (r = k) then v else regs r.

Definition RegFile_init : RegFile :=
  mkRegFile (fun r => match r with SP => PyInt DATA_MEM_SZ | _ => PyInt 0 end)
    [] R0 R0 (Reg R1).

Definition DataPath_init (data_memory : list pyval) (output_int : bool) : DataPath :=
  mkDataPath data_memory RegFile_init (mkAlu (PyInt 0) (PyInt 0) true)
    (PyInt 0) (PyInt 0) (PyInt 0) [] 0 [] output_int.

Module DataPathM.

(** [latch_registers(operand_1, operand_2=R0, output=R1)] *)
Definition latch_registers (op1 op2 : Register) (out : operand) : M DataPath unit :=
  modify (set_reg_file (fun rf =>
    mkRegFile (registers rf) (int_keys rf) op1 (operand_2 rf) (output rf))) >>>
  modify (set_reg_file (fun rf =>
    mkRegFile (registers rf) (int_keys rf) (operand_1 rf) op2 (output rf))) >>>
  if decide (out = Reg R0) then raise MemoryError
  else modify (set_reg_file (fun rf =>
    mkRegFile (registers rf) (int_keys rf) (operand_1 rf) (operand_2 rf) out)).

(** [latch_alu(const_operand=None)] *)
Definition latch_alu (const_operand : option Z) : M DataPath unit :=
  do d <- get;
  let rf := reg_file d in
  let l := registers rf (operand_1 rf) in
  let r := match const_operand with
           | Some c => PyInt c
           | None => registers rf (operand_2 rf)
           end in
  modify (set_alu (mkAlu l r (zero_flag (alu d)))) >>>
  modify (set_data_bus (registers rf (operand_2 rf))).

(** [latch_output()] *)
Definition latch_output : M DataPath unit :=
  do d <- get;
  match output (reg_file d) with
  | Reg k => modify (set_reg_file (set_registers (upd k (output_bus d))))
  | Const n => modify (set_reg_file (fun rf =>
      mkRegFile (registers rf) ((n, output_bus d) :: int_keys rf)
        (operand_1 rf) (operand_2 rf) (output rf)))
  end.

(** Enough iterations for the first loop of [execute_alu]: each one lowers
    [res] by 2^32 - 1, up to rounding on floats; a float that needs more has
    stopped decreasing (the subtraction is absorbed) and the loop never exits. *)
Definition above_fuel (v : pyval) : nat :=
  let c := match v with PyInt z => z | PyFloat f => fceil f end in
  Z.to_nat ((c - INT32_MAX) / 2 ^ 31 + 2).

Definition wrap_above (v : pyval) : res pyval :=
  py_while (above_fuel v)
    (fun res => py_gt res (PyInt 2147483647))
    (fun res => res_bind (py_sub res (PyInt 2147483647)) (py_add (PyInt (-2147483648))))
    v.

(** The body of the second loop returns a value above [INT32_MAX], so the
    loop runs at most once. *)
Definition wrap_below (v : pyval) : res pyval :=
  py_while 1
    (fun res => py_lt res (PyInt (-2147483648)))
    (fun res => res_bind (py_add res (PyInt 2147483648)) (py_sub (PyInt 2147483647)))
    v.

(** [execute_alu(instruction)] *)
Definition execute_alu (instruction : AluOperations) : M DataPath unit :=
  do d <- get;
  do res <- lift_res (operations instruction (alu_left (alu d)) (alu_right (alu d)));
  do res <- lift_res (wrap_above res);
  do res <- lift_res (wrap_below res);
  modify (fun d => set_alu (mkAlu (alu_left (alu d)) (alu_right (alu d)) (py_eq res (PyInt 0))) d) >>>
  modify (set_alu_bus res) >>>
  modify (set_output_bus res).

(** [write()] *)
Definition write : M DataPath unit :=
  do d <- get;
  do m <- lift_res (py_setitem (data_memory d) (alu_bus d) (data_bus d));
  modify (set_data_memory m).

(** [read()] *)
Definition read : M DataPath unit :=
  do d <- get;
  do v <- lift_res (py_getitem (data_memory d) (alu_bus d));
  modify (set_output_bus v).

(** [chr(v)]: the argument is first converted to a C [int], which raises
    [OverflowError] for an integer that does not fit; an [int] that is not a
    code point raises [ValueError]. *)
Definition py_chr (v : pyval) : res Z :=
  match v with
  | PyFloat _ => Raise TypeError
  | PyInt z =>
      if (z <? -2147483648) || (2147483647 <? z) then Raise OverflowError
      else if (0 <=? z) && (z <? 1114112) then Ok z else Raise ValueError
  end.

(** [print()] *)
Definition print : M DataPath unit :=
  do d <- get;
  if output_int d then
    modify (set_output_buffer (output_buffer d ++ [OutNum (alu_bus d)]))
  else
    do c <- lift_res (py_chr (alu_bus d));
    modify (set_output_buffer (output_buffer d ++ [OutChr c])).

(** [ord(s)] *)
Definition py_ord (s : pystr) : res Z :=
  match s with
  | [c] => Ok c
  | _ => Raise TypeError
  end.

(** [input()].  [input_buffer] is a list, so a subscript past its end raises
    [IndexError]; the handler only turns a [KeyError] into [EOFError]. *)
Definition input : M DataPath unit :=
  do d <- get;
  (fun s =>
     match res_bind (py_getitem (input_buffer d) (PyInt (input_pointer d))) py_ord with
     | Ok c => (Ok tt, set_output_bus (PyInt c) s)
     | Raise KeyError => (Raise EOFError, s)
     | Raise e => (Raise e, s)
     | Hang => (Hang, s)
     end) >>>
  modify (fun d => set_input_pointer (input_pointer d + 1) d).

Definition get_zero_flag : M DataPath bool :=
  do d <- get; ret (zero_flag (alu d)).

End DataPathM.

(** An instruction record as [read_code] leaves it.  A field the dictionary
    lacks is [None]; [arg2] carries its [arg2_type]. *)
Record instr : Type := mkInstr {
  opcode : Opcode;
  arg1 : option Register;
  arg2 : option operand;
  out : option Register }.

Definition arg2_type (i : instr) : option OperandType :=
  match arg2 i with
  | Some (Reg _) => Some REGISTER
  | Some (Const _) => Some CONSTANT
  | None => None
  end.

Record ControlUnit : Type := mkControlUnit {
  instr_ : option instr;
  program : list instr;
  int_queue : gmap Z pystr;
  data_path : DataPath;
  _sig_branch : bool;
  interrupt_vector : list Z;
  _tick : Z;
  is_interrupted : bool;
  int_enabled : bool;
  instr_cnt : Z }.

Definition set_instr (i : option instr) (c : ControlUnit) : ControlUnit :=
  mkControlUnit i (program c) (int_queue c) (data_path c) (_sig_branch c)
    (interrupt_vector c) (_tick c) (is_interrupted c) (int_enabled c) (instr_cnt c).
Definition set_int_queue (q : gmap Z pystr) (c : ControlUnit) : ControlUnit :=
  mkControlUnit (instr_ c) (program c) q (data_path c) (_sig_branch c)
    (interrupt_vector c) (_tick c) (is_interrupted c) (int_enabled c) (instr_cnt c).
Definition set_data_path (d : DataPath) (c : ControlUnit) : ControlUnit :=
  mkControlUnit (instr_ c) (program c) (int_queue c) d (_sig_branch c)
    (interrupt_vector c) (_tick c) (is_interrupted c) (int_enabled c) (instr_cnt c).
Definition set_tick (t : Z) (c : ControlUnit) : ControlUnit :=
  mkControlUnit (instr_ c) (program c) (int_queue c) (data_path c) (_sig_branch c)
    (interrupt_vector c) t (is_interrupted c) (int_enabled c) (instr_cnt c).
Definition set_is_interrupted (b : bool) (c : ControlUnit) : ControlUnit :=
  mkControlUnit (instr_ c) (program c) (int_queue c) (data_path c) (_sig_branch c)
    (interrupt_vector c) (_tick c) b (int_enabled c) (instr_cnt c).
Definition set_int_enabled (b : bool) (c : ControlUnit) : ControlUnit :=
  mkControlUnit (instr_ c) (program c) (int_queue c) (data_path c) (_sig_branch c)
    (interrupt_vector c) (_tick c) (is_interrupted c) b (instr_cnt c).
Definition set_instr_cnt (n : Z) (c : ControlUnit) : ControlUnit :=
  mkControlUnit (instr_ c) (program c) (int_queue c) (data_path c) (_sig_branch c)
    (interrupt_vector c) (_tick c) (is_interrupted c) (int_enabled c) n.

Definition ControlUnit_init (program : list instr) (data_path : DataPath)
    (interrupt_queue : gmap Z pystr) : ControlUnit :=
  mkControlUnit None program interrupt_queue data_path false [0] 0 false false 0.

(** [min(d.keys())] of a dictionary with integer keys. *)
Definition min_key (q : gmap Z pystr) : option Z :=
  match (map_to_list q).*1 with
  | [] => None
  | k :: ks => Some (foldr Z.min k ks)
  end.

(** [instr[field]] *)
Definition field {S A} (f : option A) : M S A :=
  match f with
  | Some a => ret a
  | None => raise KeyError
  end.

Module ControlUnitM.
Import DataPathM.

(** A call of a [DataPath] method on [self.data_path]. *)
Definition dp {A} (m : M DataPath A) : M ControlUnit A :=
  fun c => let '(r, d) := m (data_path c) in (r, set_data_path d c).

Definition tick : M ControlUnit unit :=
  modify (fun c => set_tick (_tick c + 1) c).

Definition current_tick (c : ControlUnit) : Z := _tick c.

(** [latch_program_counter()]: [registers[PC] += 1] *)
Definition latch_program_counter : M ControlUnit unit :=
  do c <- get;
  do v <- lift_res (py_add (registers (reg_file (data_path c)) PC) (PyInt 1));
  dp (modify (set_reg_file (set_registers (upd PC v)))).

(** The guard of the first [if] of [decode_and_execute_instruction]. *)
Definition interrupt_pending (c : ControlUnit) : bool :=
  int_enabled c && negb (is_interrupted c) &&
  negb (size (int_queue c) =? 0)%nat &&
  match min_key (int_queue c) with
  | Some k => k <=? _tick c
  | None => false
  end.

(** The body of that [if]: the admission of the earliest interrupt. *)
Definition admit_interrupt : M ControlUnit unit :=
  do c <- get;
  do k <- field (min_key (int_queue c));
  do interrupt <- field (int_queue c !! k);
  modify (set_int_queue (delete k (int_queue c))) >>>
  dp (latch_registers SP PC (Reg R1)) >>>
  dp (latch_alu None) >>>
  dp (execute_alu ALU_LEFT) >>>
  dp write >>>
  tick >>>
  dp (latch_registers SP R0 (Reg SP)) >>>
  dp (latch_alu None) >>>
  dp (execute_alu ALU_DEC) >>>
  dp latch_output >>>
  tick >>>
  dp (latch_registers R0 R0 (Reg PC)) >>>
  do c <- get;
  do v <- lift_res (py_getitem (interrupt_vector c) (PyInt 0));
  dp (latch_alu (Some v)) >>>
  dp (execute_alu ALU_RIGHT) >>>
  dp read >>>
  dp latch_output >>>
  tick >>>
  dp (modify (fun d => set_input_buffer (input_buffer d ++ [interrupt]) d)) >>>
  modify (set_is_interrupted true).

(** The value an instruction drives into the ALU's right input: the
    immediate as [const_operand], or the register as [operand_2]. *)
Definition branch_target (a : operand) : M ControlUnit unit :=
  match a with
  | Const n =>
      dp (latch_registers R0 R0 (Reg PC)) >>>
      dp (latch_alu (Some n))
  | Reg r =>
      dp (latch_registers R0 r (Reg PC)) >>>
      dp (latch_alu None)
  end.

(** The dispatch on [opcode], after the fetch. *)
Definition execute (i : instr) : M ControlUnit unit :=
  match opcode i with
  | HLT => raise StopIteration
  | IRET =>
      dp (latch_registers SP R0 (Reg SP)) >>>
      dp (latch_alu None) >>>
      dp (execute_alu ALU_INC) >>>
      dp latch_output >>>
      tick >>>
      dp (latch_registers SP R0 (Reg PC)) >>>
      dp (latch_alu None) >>>
      dp (execute_alu ALU_LEFT) >>>
      dp read >>>
      dp latch_output >>>
      tick >>>
      modify (set_is_interrupted false)
  | JNE | JE | JMP =>
      (if decide (opcode i = JMP) then ret tt
       else
         do a1 <- field (arg1 i);
         dp (latch_registers a1 R0 (Reg R1)) >>>
         dp (latch_alu None) >>>
         dp (execute_alu ALU_CMP) >>>
         tick) >>>
      do z <- dp get_zero_flag;
      if bool_decide (opcode i = JMP) || bool_decide (opcode i = JE) && z
         || bool_decide (opcode i = JNE) && negb z
      then
        do _ <- field (arg2_type i);
        do a2 <- field (arg2 i);
        branch_target a2 >>>
        dp (execute_alu ALU_RIGHT) >>>
        dp latch_output >>>
        tick
      else latch_program_counter
  | OUT =>
      do _ <- field (arg2_type i);
      do a2 <- field (arg2 i);
      match a2 with
      | Const n =>
          dp (latch_registers R0 R0 (Reg R1)) >>>
          dp (latch_alu (Some n))
      | Reg r =>
          dp (latch_registers R0 r (Reg R1)) >>>
          dp (latch_alu None)
      end >>>
      dp (execute_alu ALU_RIGHT) >>>
      dp print >>>
      tick >>>
      latch_program_counter
  | IN =>
      do a2 <- field (arg2 i);
      dp (latch_registers R0 R0 a2) >>>
      dp (latch_alu None) >>>
      dp (execute_alu ALU_NOP) >>>
      dp input >>>
      dp latch_output >>>
      tick >>>
      latch_program_counter
  | ADD | CMP | MUL | DIV | MOD | SUB =>
      do _ <- field (arg2_type i);
      match arg2 i with
      | Some (Reg r) =>
          do a1 <- field (arg1 i);
          do o <- field (out i);
          dp (latch_registers a1 r (Reg o)) >>>
          dp (latch_alu None)
      | Some (Const n) =>
          do a1 <- field (arg1 i);
          do o <- field (out i);
          dp (latch_registers a1 R0 (Reg o)) >>>
          dp (latch_alu (Some n))
      | None => raise KeyError
      end >>>
      do op <- field (opcode2alu (opcode i));
      dp (execute_alu op) >>>
      dp latch_output >>>
      tick >>>
      latch_program_counter
  | LD =>
      do _ <- field (arg2_type i);
      match arg2 i with
      | Some (Reg r) =>
          do o <- field (out i);
          dp (latch_registers r R0 (Reg o)) >>>
          dp (latch_alu None)
      | Some (Const n) =>
          do o <- field (out i);
          dp (latch_registers R0 R0 (Reg o)) >>>
          dp (latch_alu (Some n))
      | None => raise KeyError
      end >>>
      dp (execute_alu ALU_RIGHT) >>>
      dp read >>>
      dp latch_output >>>
      tick >>>
      latch_program_counter
  | SV =>
      do _ <- field (arg2_type i);
      match arg2 i with
      | Some (Reg r) =>
          do a1 <- field (arg1 i);
          dp (latch_registers r a1 (Reg R1)) >>>
          dp (latch_alu None) >>>
          dp (execute_alu ALU_LEFT)
      | Some (Const n) =>
          do a1 <- field (arg1 i);
          dp (latch_registers R0 a1 (Reg R1)) >>>
          dp (latch_alu (Some n)) >>>
          dp (execute_alu ALU_RIGHT)
      | None => raise KeyError
      end >>>
      dp write >>>
      tick >>>
      latch_program_counter
  | STI | CLI =>
      modify (set_int_enabled (bool_decide (opcode i = STI))) >>>
      tick >>>
      latch_program_counter
  | DECLARE => latch_program_counter
  end.

(** [decode_and_execute_instruction()] *)
Definition decode_and_execute_instruction : M ControlUnit unit :=
  do c <- get;
  (if interrupt_pending c then admit_interrupt else ret tt) >>>
  do c <- get;
  do i <- lift_res (py_getitem (program c) (registers (reg_file (data_path c)) PC));
  modify (set_instr (Some i)) >>>
  modify (fun c => set_instr_cnt (instr_cnt c + 1) c) >>>
  execute i.

End ControlUnitM.

(** The artifact [simulation] receives from [read_code]. *)
Record Program : Type := mkProgram {
  code : list instr;
  data : list Z }.

(** What [simulation] does: it returns its triple (with the warnings it
    logged), lets an exception it does not catch propagate, or never returns. *)
Inductive sim_result : Type :=
| Returned (buffer : pystr) (instr_counter ticks : Z) (warnings : list string)
| Uncaught (e : exn)
| NoReturn.

Fixpoint uint_codes (u : Decimal.uint) : pystr :=
  match u with
  | Decimal.Nil => []
  | Decimal.D0 u => 48 :: uint_codes u
  | Decimal.D1 u => 49 :: uint_codes u
  | Decimal.D2 u => 50 :: uint_codes u
  | Decimal.D3 u => 51 :: uint_codes u
  | Decimal.D4 u => 52 :: uint_codes u
  | Decimal.D5 u => 53 :: uint_codes u
  | Decimal.D6 u => 54 :: uint_codes u
  | Decimal.D7 u => 55 :: uint_codes u
  | Decimal.D8 u => 56 :: uint_codes u
  | Decimal.D9 u => 57 :: uint_codes u
  end.

(** [str(z)] for an integer: its decimal digits. *)
Definition str_of_int (z : Z) : pystr :=
  match Z.to_int z with
  | Decimal.Pos u => uint_codes u
  | Decimal.Neg u => 45 :: uint_codes u
  end.

(** [''.join(output_buffer)] *)
Fixpoint join (b : list out_item) : res pystr :=
  match b with
  | [] => Ok []
  | OutChr c :: b' => res_bind (join b') (fun s => Ok (c :: s))
  | OutNum _ :: _ => Raise TypeError
  end.

(** [for i in range(len(data)): data_memory[i] = data[i]] *)
Fixpoint load_data (i : Z) (data : list Z) (data_memory : list pyval) : res (list pyval) :=
  match data with
  | [] => Ok data_memory
  | x :: data' =>
      res_bind (py_setitem data_memory (PyInt i) (PyInt x)) (load_data (i + 1) data')
  end.

(** The first lines of [simulation]: the memory image, the datapath and the
    control unit. *)
Definition boot (program : Program) (interrupt_queue : gmap Z pystr)
    (output_int : bool) : res ControlUnit :=
  res_bind (load_data 0 (data program)
              (replicate (Z.to_nat (DATA_MEM_SZ + 2)) (PyInt 0))) (fun data_memory =>
  let data_path := DataPath_init data_memory output_int in
  Ok (ControlUnit_init (code program) data_path interrupt_queue)).

(** The [while True] loop of [simulation]; [fuel] is the number of
    iterations the assertion on [limit] still lets through. *)
Fixpoint run (fuel : nat) (limit instr_counter : Z) (c : ControlUnit)
    : res unit * Z * ControlUnit :=
  if limit >? instr_counter then
    match fuel with
    | O => (Raise AssertionError, instr_counter, c)
    | S n =>
        match ControlUnitM.decode_and_execute_instruction c with
        | (Ok _, c') => run n limit (instr_counter + 1) c'
        | (r, c') => (r, instr_counter, c')
        end
    end
  else (Raise AssertionError, instr_counter, c).

Section Simulation.

(** [str(x)] for a float [x], Python's own conversion. *)
Variable float_repr : spec_float -> pystr.

Definition py_str (v : pyval) : pystr :=
  match v with
  | PyInt z => str_of_int z
  | PyFloat f => float_repr f
  end.

(** [for data in output_buffer: buffer += str(data)] *)
Fixpoint concat_str (b : list out_item) : pystr :=
  match b with
  | [] => []
  | OutNum v :: b' => py_str v ++ concat_str b'
  | OutChr c :: b' => c :: concat_str b'
  end.

(** The rendering of the output buffer and the returned triple. *)
Definition finish (warnings : list string) (instr_counter : Z) (c : ControlUnit)
    : sim_result :=
  let d := data_path c in
  if negb (output_int d) then
    match join (output_buffer d) with
    | Ok buffer => Returned buffer instr_counter (ControlUnitM.current_tick c) warnings
    | Raise e => Uncaught e
    | Hang => NoReturn
    end
  else
    Returned (concat_str (output_buffer d)) instr_counter
      (ControlUnitM.current_tick c) warnings.

(** [simulation(program, interrupt_queue, limit, output_int)] *)
Definition simulation (program : Program) (interrupt_queue : gmap Z pystr)
    (limit : Z) (output_int : bool) : sim_result :=
  match boot program interrupt_queue output_int with
  | Ok control_unit =>
      match run (Z.to_nat limit) limit 0 control_unit with
      | (Raise EOFError, n, c) => finish ["Input buffer is empty!"%string] n c
      | (Raise MemoryError, n, c) =>
          finish ["Can not write to read-only register!"%string] n c
      | (Raise StopIteration, n, c) => finish [] n c
      | (Raise e, _, _) => Uncaught e
      | (Hang, _, _) => NoReturn
      | (Ok _, _, _) => NoReturn
      end
  | Raise e => Uncaught e
  | Hang => NoReturn
  end.

End Simulation.

(** ** Python text

    Source text and the strings of an artifact are [string]s: one character
    per code point, over the 256 code points of Latin-1. *)

Module PyStr.
Local Open Scope string_scope.
Local Open Scope nat_scope.

Definition code_of (c : ascii) : nat := nat_of_ascii c.

(** [str.isspace] on one character; also what [\s] matches. *)
Definition is_space (c : ascii) : bool :=
  let n := code_of c in
  ((9 <=? n) && (n <=? 13)) || ((28 <=? n) && (n <=? 32)) || (n =? 133) || (n =? 160).

Definition is_ascii_digit (c : ascii) : bool :=
  let n := code_of c in (48 <=? n) && (n <=? 57).

(** The characters [str.isdigit] accepts: the ASCII digits and the
    superscripts 1, 2 and 3. *)
Definition is_digit_char (c : ascii) : bool :=
  let n := code_of c in
  is_ascii_digit c || (n =? 178) || (n =? 179) || (n =? 185).

Fixpoint all_chars (p : ascii -> bool) (s : string) : bool :=
  match s with
  | EmptyString => true
  | String c s' => p c && all_chars p s'
  end.

(** [s.isdigit()] *)
Definition isdigit (s : string) : bool :=
  negb (String.length s =? 0) && all_chars is_digit_char s.

Definition is_quote (c : ascii) : bool :=
  (code_of c =? 39) || (code_of c =? 34).

Fixpoint count_quotes (s : string) : nat :=
  match s with
  | EmptyString => 0
  | String c s' => (if is_quote c then 1 else 0) + count_quotes s'
  end.

Definition snoc (s : string) (c : ascii) : string := s ++ String c EmptyString.

(** [re.split] with the pattern of [translate]: a run of whitespace splits
    the line where an even number of quote characters follows it, which is
    what the lookahead up to [$] asks; [run] is set inside a matched run. *)
Fixpoint re_split_from (s cur : string) (run : bool) : list string :=
  match s with
  | EmptyString => [cur]
  | String c s' =>
      if is_space c then
        if run then re_split_from s' cur true
        else if Nat.even (count_quotes s') then cur :: re_split_from s' EmptyString true
        else re_split_from s' (snoc cur c) false
      else re_split_from s' (snoc cur c) false
  end.

Definition re_split (line : string) : list string :=
  re_split_from line EmptyString false.

(** [s.split("\n")] *)
Fixpoint split_lines_from (s cur : string) : list string :=
  match s with
  | EmptyString => [cur]
  | String c s' =>
      if code_of c =? 10 then cur :: split_lines_from s' EmptyString
      else split_lines_from s' (snoc cur c)
  end.

Definition split_lines (s : string) : list string :=
  split_lines_from s EmptyString.

Fixpoint lstrip (s : string) : string :=
  match s with
  | String c s' => if is_space c then lstrip s' else s
  | EmptyString => EmptyString
  end.

Definition rev_string (s : string) : string :=
  string_of_list_ascii (rev (list_ascii_of_string s)).

(** [s.strip()] *)
Definition strip (s : string) : string :=
  rev_string (lstrip (rev_string (lstrip s))).

(** [s[0:-k]]: all but the last [k] characters. *)
Definition drop_last (k : nat) (s : string) : string :=
  String.substring 0 (String.length s - k) s.

(** [s[i]] for [i >= 0] *)
Definition char_at (i : nat) (s : string) : res ascii :=
  match String.get i s with
  | Some c => Ok c
  | None => Raise IndexError
  end.

(** [s[-1]] *)
Definition last_char (s : string) : res ascii :=
  match String.length s with
  | O => Raise IndexError
  | S n => char_at n s
  end.

Definition str_of_nat (n : nat) : string :=
  DecimalString.NilZero.string_of_uint (Nat.to_uint n).

(** [len(t) == 3 and t[0] == "'" and t[2] == "'"] *)
Definition is_char_literal (t : string) : option ascii :=
  match t with
  | String a (String c (String b EmptyString)) =>
      if (code_of a =? 39) && (code_of b =? 39) then Some c else None
  | _ => None
  end.

Fixpoint digits_value (acc : nat) (s : string) : nat :=
  match s with
  | EmptyString => acc
  | String c s' => digits_value (10 * acc + (code_of c - 48)) s'
  end.

(** The digits of a decimal literal, single underscores between them removed;
    [None] when the text is not one. *)
Fixpoint literal_digits (s : string) (after_digit : bool) : option string :=
  match s with
  | EmptyString => if after_digit then Some EmptyString else None
  | String c s' =>
      if is_ascii_digit c then option_map (String c) (literal_digits s' true)
      else if (code_of c =? 95) && after_digit then
        match s' with
        | String d _ => if is_ascii_digit d then literal_digits s' false else None
        | EmptyString => None
        end
      else None
  end.

(** The whitespace [int] skips around a literal: the whitespace of C
    ([\t], [\n], [\v], [\f], [\r] and the space) and the two characters
    above the ASCII range that [str.isspace] accepts, which the conversion
    turns into spaces first.  The separators U+001C to U+001F are not among
    them. *)
Definition is_int_space (c : ascii) : bool :=
  let n := code_of c in
  ((9 <=? n) && (n <=? 13)) || (n =? 32) || (n =? 133) || (n =? 160).

Fixpoint lstrip_int (s : string) : string :=
  match s with
  | String c s' => if is_int_space c then lstrip_int s' else s
  | EmptyString => EmptyString
  end.

Definition strip_int (s : string) : string :=
  rev_string (lstrip_int (rev_string (lstrip_int s))).

(** [int(s)] for a string: surrounding whitespace, an optional sign and a
    decimal literal. *)
Definition int_of_string (s : string) : res Z :=
  let t := strip_int s in
  let '(neg, body) :=
    match t with
    | String c r =>
        if code_of c =? 45 then (true, r)
        else if code_of c =? 43 then (false, r)
        else (false, t)
    | EmptyString => (false, t)
    end in
  match literal_digits body false with
  | Some ds =>
      let v := Z.of_nat (digits_value 0 ds) in
      Ok (if neg then Z.opp v else v)
  | None => Raise ValueError
  end.

End PyStr.

(** ** isa.py: artifacts, [write_code] and [read_code] *)

Local Open Scope string_scope.

(** The values held by the dictionaries of an artifact: integers, strings
    and members of the three [str] enumerations. *)
Inductive pyobj : Type :=
| VInt (z : Z)
| VStr (s : string)
| VOpcode (o : Opcode)
| VRegister (r : Register)
| VOperandType (t : OperandType).

Global Instance pyobj_eq_dec : EqDecision pyobj.
Proof. solve_decision. Defined.

Definition Opcode_value (o : Opcode) : string :=
  match o with
  | DECLARE => "declare" | LD => "ld" | SV => "sv" | ADD => "add"
  | SUB => "sub" | MUL => "mul" | DIV => "div" | MOD => "mod" | CMP => "cmp"
  | OUT => "out" | IN => "in" | JMP => "jmp" | JE => "je" | JNE => "jne"
  | IRET => "iret" | STI => "sti" | CLI => "cli" | HLT => "halt"
  end.

Definition Register_value (r : Register) : string :=
  match r with
  | R0 => "r0" | R1 => "r1" | R2 => "r2" | R3 => "r3" | R4 => "r4"
  | PC => "pc" | SP => "sp"
  end.

Definition OperandType_value (t : OperandType) : string :=
  match t with REGISTER => "reg" | CONSTANT => "const" end.

Definition all_opcodes : list Opcode :=
  [DECLARE; LD; SV; ADD; SUB; MUL; DIV; MOD; CMP; OUT; IN; JMP; JE; JNE;
   IRET; STI; CLI; HLT].
Definition all_registers : list Register := [R0; R1; R2; R3; R4; PC; SP].

(** The string an object is, if it is one; a member of a [str] enumeration
    is the string of its value. *)
Definition as_text (v : pyobj) : option string :=
  match v with
  | VInt _ => None
  | VStr s => Some s
  | VOpcode o => Some (Opcode_value o)
  | VRegister r => Some (Register_value r)
  | VOperandType t => Some (OperandType_value t)
  end.

(** [Opcode(v)], [Register(v)], [OperandType(v)]: the member with that value. *)
Definition to_Opcode (v : pyobj) : res Opcode :=
  match as_text v with
  | Some s =>
      match List.find (fun o => String.eqb (Opcode_value o) s) all_opcodes with
      | Some o => Ok o
      | None => Raise ValueError
      end
  | None => Raise ValueError
  end.

Definition to_Register (v : pyobj) : res Register :=
  match as_text v with
  | Some s =>
      match List.find (fun r => String.eqb (Register_value r) s) all_registers with
      | Some r => Ok r
      | None => Raise ValueError
      end
  | None => Raise ValueError
  end.

Definition to_OperandType (v : pyobj) : res OperandType :=
  match as_text v with
  | Some s =>
      if String.eqb s "reg" then Ok REGISTER
      else if String.eqb s "const" then Ok CONSTANT
      else Raise ValueError
  | None => Raise ValueError
  end.

(** [int(v)] *)
Definition py_int (v : pyobj) : res Z :=
  match v with
  | VInt z => Ok z
  | _ => match as_text v with
         | Some s => PyStr.int_of_string s
         | None => Raise ValueError
         end
  end.

(** Python's [==] on these values. *)
Definition pyobj_eqb (a b : pyobj) : bool :=
  match a, b with
  | VInt x, VInt y => Z.eqb x y
  | _, _ =>
      match as_text a, as_text b with
      | Some s, Some t => String.eqb s t
      | _, _ => false
      end
  end.

Record Artifact : Type := mkArtifact {
  art_code : list (gmap string pyobj);
  art_data : list pyobj }.

Definition dict_eqb (d e : gmap string pyobj) : bool :=
  bool_decide (dom d = dom e) &&
  forallb (fun kv => match e !! kv.1 with
                     | Some w => pyobj_eqb kv.2 w
                     | None => false
                     end) (map_to_list d).

Fixpoint list_eqb {A} (eqb : A -> A -> bool) (l m : list A) : bool :=
  match l, m with
  | [], [] => true
  | x :: l', y :: m' => eqb x y && list_eqb eqb l' m'
  | _, _ => false
  end.

(** [a == b] on two artifacts. *)
Definition Artifact_eqb (a b : Artifact) : bool :=
  list_eqb dict_eqb (art_code a) (art_code b) &&
  list_eqb pyobj_eqb (art_data a) (art_data b).

(** What [json.loads] gives back for what [json.dumps] wrote: a member of a
    [str] enumeration comes back as the plain string of its value. *)
Definition plain (v : pyobj) : pyobj :=
  match v with
  | VInt z => VInt z
  | _ => match as_text v with Some s => VStr s | None => v end
  end.

Definition json_roundtrip (a : Artifact) : Artifact :=
  mkArtifact ((fun d : gmap string pyobj => plain <$> d) <$> art_code a)
    (plain <$> art_data a).

(** The files: a file written by [write_code] holds a JSON document, kept
    here as the value [json.loads] reads from it. *)
Definition files : Type := gmap string Artifact.

(** [write_code(filename, code)] *)
Definition write_code (filename : string) (code : Artifact) (fs : files) : files :=
  <[filename := json_roundtrip code]> fs.

Definition mapM {A B} (f : A -> res B) : list A -> res (list B) :=
  fix go l :=
    match l with
    | [] => Ok []
    | x :: l' => res_bind (f x) (fun y => res_bind (go l') (fun ys => Ok (y :: ys)))
    end.

Definition dict_get (d : gmap string pyobj) (k : string) : res pyobj :=
  match d !! k with
  | Some v => Ok v
  | None => Raise KeyError
  end.

(** The body of the loop of [read_code] over the instructions. *)
Definition read_instr (instr : gmap string pyobj) : res (gmap string pyobj) :=
  res_bind (res_bind (dict_get instr "opcode") to_Opcode) (fun o =>
  let instr := <["opcode" := VOpcode o]> instr in
  res_bind
    (match instr !! "arg1" with
     | Some v => res_bind (to_Register v) (fun r => Ok (<["arg1" := VRegister r]> instr))
     | None => Ok instr
     end) (fun instr =>
  res_bind
    (match instr !! "arg2_type" with
     | Some v =>
         res_bind (to_OperandType v) (fun t =>
         let instr := <["arg2_type" := VOperandType t]> instr in
         match t with
         | REGISTER =>
             res_bind (res_bind (dict_get instr "arg2") to_Register) (fun r =>
               Ok (<["arg2" := VRegister r]> instr))
         | CONSTANT =>
             res_bind (res_bind (dict_get instr "arg2") py_int) (fun z =>
               Ok (<["arg2" := VInt z]> instr))
         end)
     | None => Ok instr
     end) (fun instr =>
  match instr !! "out" with
  | Some v => res_bind (to_Register v) (fun r => Ok (<["out" := VRegister r]> instr))
  | None => Ok instr
  end))).

(** [read_code(filename)] *)
Definition read_code (filename : string) (fs : files) : res Artifact :=
  match fs !! filename with
  | None => Raise FileNotFoundError
  | Some program =>
      res_bind (mapM (fun cell => res_bind (py_int cell) (fun z => Ok (VInt z)))
                  (art_data program)) (fun data =>
      res_bind (mapM read_instr (art_code program)) (fun code =>
      Ok (mkArtifact code data)))
  end.

(** ** translation.py *)

Module Translation.
Import PyStr.
Local Open Scope nat_scope.

Definition INTERRUPTION_VECTOR_SZ : nat := 1.

Inductive SectionState : Type := DATA | TEXT.

Definition str2register (s : string) : option Register :=
  List.find (fun r => String.eqb (Register_value r) s) all_registers.

Definition str2section (s : string) : option SectionState :=
  if String.eqb s "data" then Some DATA
  else if String.eqb s "text" then Some TEXT
  else None.

Definition str2opcode (s : string) : option Opcode :=
  List.find (fun o => String.eqb (Opcode_value o) s)
    [LD; SV; IN; OUT; ADD; SUB; MUL; DIV; MOD; CMP; JMP; JE; JNE; IRET; STI; CLI; HLT].

Definition is_register (s : string) : bool :=
  match str2register s with Some _ => true | None => false end.

(** The local variables of [translate]. *)
Record locals : Type := mkLocals {
  labels : gmap string string;
  data_labels : gmap string string;
  code : list (gmap string pyobj);
  data : list string;
  instr_count : nat;
  data_count : nat;
  state : option SectionState }.

Definition locals_init : locals :=
  mkLocals ∅ ∅ [] (replicate INTERRUPTION_VECTOR_SZ "0") 0 INTERRUPTION_VECTOR_SZ None.

Definition set_state (s : SectionState) (v : locals) : locals :=
  mkLocals (labels v) (data_labels v) (code v) (data v) (instr_count v)
    (data_count v) (Some s).
Definition add_label (l n : string) (v : locals) : locals :=
  mkLocals (<[l := n]> (labels v)) (data_labels v) (code v) (data v)
    (instr_count v) (data_count v) (state v).
Definition add_data_label (l n : string) (v : locals) : locals :=
  mkLocals (labels v) (<[l := n]> (data_labels v)) (code v) (data v)
    (instr_count v) (data_count v) (state v).
Definition incr_instr_count (v : locals) : locals :=
  mkLocals (labels v) (data_labels v) (code v) (data v) (S (instr_count v))
    (data_count v) (state v).
Definition append_data (cell : string) (v : locals) : locals :=
  mkLocals (labels v) (data_labels v) (code v) (data v ++ [cell]) (instr_count v)
    (S (data_count v)) (state v).
Definition set_data (d : list string) (v : locals) : locals :=
  mkLocals (labels v) (data_labels v) (code v) d (instr_count v)
    (data_count v) (state v).
Definition append_code (i : gmap string pyobj) (v : locals) : locals :=
  mkLocals (labels v) (data_labels v) (code v ++ [i]) (data v) (instr_count v)
    (data_count v) (state v).
Definition reset_instr_count (v : locals) : locals :=
  mkLocals (labels v) (data_labels v) (code v) (data v) 0 (data_count v) (state v).

(** [terms[i]] for [i >= 0] *)
Definition term (i : nat) (terms : list string) : res string :=
  match terms !! i with
  | Some t => Ok t
  | None => Raise IndexError
  end.

(** [if terms[0] == '': terms = terms[1:]] *)
Definition drop_empty_head (terms : list string) : list string :=
  match terms with
  | t :: rest => if String.eqb t "" then rest else terms
  | [] => terms
  end.

(** The comment loop: [i] runs over the indices of the list as it was before
    the loop, also after [terms] has been cut at a term that starts with [;]. *)
Fixpoint strip_comments_from (i n : nat) (terms : list string) : res (list string) :=
  match n with
  | O => Ok terms
  | S n' =>
      res_bind (term i terms) (fun t =>
      res_bind (char_at 0 t) (fun c =>
        strip_comments_from (S i) n'
          (if (code_of c =? 59)%nat then take i terms else terms)))
  end.

Definition strip_comments (terms : list string) : res (list string) :=
  strip_comments_from 0 (length terms) terms.

(** [len(terms) == 1 and terms[0][-1] == ':'] *)
Definition is_label_line (terms : list string) : res bool :=
  match terms with
  | [t] => res_bind (last_char t) (fun c => Ok (code_of c =? 58)%nat)
  | _ => Ok false
  end.

(** The [section] line shared by the two passes. *)
Definition section_line (terms : list string) (v : locals) : res locals :=
  res_bind (term 1 terms) (fun name =>
    match str2section name with
    | None => Raise (SyntaxError (unknown_section_name name))
    | Some s => Ok (set_state s v)
    end).

(** [str(ord(c))] for the character of a literal ['c'], else the term. *)
Definition char_literal_value (t : string) : string :=
  match is_char_literal t with
  | Some c => str_of_nat (code_of c)
  | None => t
  end.

(** One iteration of the first loop over the lines. *)
Definition pass1_line (v : locals) (line : string) : res locals :=
  if String.eqb line "" then Ok v else
  res_bind (strip_comments (drop_empty_head (re_split line))) (fun terms =>
  res_bind (term 0 terms) (fun t0 =>
  if String.eqb t0 "section" then section_line terms v
  else if bool_decide (is_Some (labels v !! drop_last 1 t0))
          || bool_decide (is_Some (data_labels v !! drop_last 1 t0))
  then Raise (SyntaxError (duplicate_label (drop_last 2 t0)))
  else
    match state v with
    | None => Raise (SyntaxError no_active_section)
    | Some TEXT =>
        res_bind (is_label_line terms) (fun lbl =>
          if lbl then Ok (add_label (drop_last 1 t0) (str_of_nat (instr_count v)) v)
          else Ok (incr_instr_count v))
    | Some DATA =>
        res_bind (is_label_line terms) (fun lbl =>
          if lbl then Ok (add_data_label (drop_last 1 t0) (str_of_nat (data_count v)) v)
          else if String.eqb t0 "word" then
            if negb (length terms =? 2)%nat
            then Raise (SyntaxError variable_declaration_arity)
            else
              res_bind (term 1 terms) (fun t1 =>
                match is_char_literal t1 with
                | Some c => Ok (append_data (str_of_nat (code_of c)) v)
                | None =>
                    if negb (isdigit t1) then Raise (SyntaxError (invalid_data t1))
                    else Ok (append_data t1 v)
                end)
          else if String.eqb t0 "int" then Ok v
          else Raise (SyntaxError (unknown_instruction t0)))
    end)).

(** The loop over [enumerate(terms)] in the text section, for one operand. *)
Definition resolve_term (v : locals) (command : Opcode) (t : string) : res string :=
  res_bind
    (match labels v !! t with
     | Some n => Ok n
     | None =>
         match data_labels v !! t with
         | Some n =>
             if bool_decide (command = SV) || bool_decide (command = LD) then Ok n
             else Raise (SyntaxError (data_label_outside_ld_sv t))
         | None => Ok t
         end
     end) (fun t =>
  let t := char_literal_value t in
  if negb (is_register t) && negb (isdigit t) then Raise (SyntaxError (bad_term t))
  else Ok t).

Definition resolve_terms (v : locals) (command : Opcode) (terms : list string)
    : res (list string) :=
  match terms with
  | [] => Ok []
  | t0 :: rest => res_bind (mapM (resolve_term v command) rest) (fun r => Ok (t0 :: r))
  end.

Definition dict (entries : list (string * pyobj)) : gmap string pyobj :=
  list_to_map entries.

Definition type_of_term (t : string) : pyobj :=
  if is_register t then VOperandType REGISTER else VOperandType CONSTANT.

(** The instruction a line of the text section is lowered to. *)
Definition lower (command : Opcode) (terms : list string) : res (gmap string pyobj) :=
  let t i := nth i terms "" in
  match command with
  | ADD | CMP | MUL | DIV | MOD | SUB =>
      if negb (length terms =? 4)%nat
      then Raise (SyntaxError (wrong_arity (Opcode_value command) 3))
      else if negb (is_register (t 1)) then Raise (SyntaxError output_must_be_register)
      else if negb (is_register (t 2)) then Raise (SyntaxError constant_not_second)
      else Ok (dict [("opcode", VStr (t 0)); ("arg1", VStr (t 2)); ("arg2", VStr (t 3));
                     ("arg2_type", type_of_term (t 3)); ("out", VStr (t 1))])
  | JMP | OUT | IN =>
      if negb (length terms =? 2)%nat
      then Raise (SyntaxError (wrong_arity (Opcode_value command) 1))
      else if negb (is_register (t 1)) && bool_decide (command = IN)
      then Raise (SyntaxError in_arg_must_be_register)
      else Ok (dict [("opcode", VStr (t 0)); ("arg2", VStr (t 1));
                     ("arg2_type", type_of_term (t 1))])
  | JE | JNE =>
      if negb (length terms =? 3)%nat
      then Raise (SyntaxError (wrong_arity (Opcode_value command) 2))
      else if negb (is_register (t 1)) then Raise (SyntaxError arg1_must_be_register)
      else Ok (dict [("opcode", VStr (t 0)); ("arg1", VStr (t 1)); ("arg2", VStr (t 2));
                     ("arg2_type", type_of_term (t 2))])
  | LD =>
      if negb (length terms =? 3)%nat
      then Raise (SyntaxError (wrong_arity (Opcode_value command) 2))
      else if negb (is_register (t 1)) then Raise (SyntaxError output_must_be_register)
      else Ok (dict [("opcode", VStr (t 0)); ("arg2", VStr (t 2));
                     ("arg2_type", type_of_term (t 2)); ("out", VStr (t 1))])
  | SV =>
      if negb (length terms =? 3)%nat
      then Raise (SyntaxError (wrong_arity (Opcode_value command) 2))
      else if negb (is_register (t 1)) then Raise (SyntaxError data_must_be_register)
      else Ok (dict [("opcode", VStr (t 0)); ("arg2", VStr (t 2));
                     ("arg2_type", type_of_term (t 2)); ("arg1", VStr (t 1))])
  | IRET | CLI | STI | HLT => Ok (dict [("opcode", VStr (t 0))])
  | DECLARE => Raise (SyntaxError (unsupported_command (Opcode_value command)))
  end.

(** [for i, term in enumerate(terms)] in the data section. *)
Definition resolve_data_terms (v : locals) (terms : list string) : list string :=
  match terms with
  | [] => []
  | t0 :: rest => t0 :: map (fun t => default t (labels v !! t)) rest
  end.

(** The second loop from its comment loop on, for a line with terms. *)
Definition pass2_terms (v : locals) (terms : list string) : res locals :=
  res_bind (strip_comments terms) (fun terms =>
  res_bind (term 0 terms) (fun t0 =>
  if String.eqb t0 "section" then section_line terms v
  else
    match state v with
    | None => Raise (SyntaxError no_active_section)
    | Some TEXT =>
        res_bind (is_label_line terms) (fun lbl =>
          if lbl then Ok v
          else
            match str2opcode t0 with
            | None => Raise KeyError
            | Some command =>
                res_bind (resolve_terms v command terms) (fun terms =>
                res_bind (lower command terms) (fun i =>
                  Ok (incr_instr_count (append_code i v))))
            end)
    | Some DATA =>
        let terms := resolve_data_terms v terms in
        if String.eqb t0 "int" then
          if negb (length terms =? 3)%nat
          then Raise (SyntaxError vector_declaration_arity)
          else
            let t1 := nth 1 terms "" in
            let t2 := nth 2 terms "" in
            if negb (isdigit t1) then Raise (SyntaxError vector_num_out_of_range)
            else
              res_bind (int_of_string t1) (fun n =>
                if (Z.of_nat INTERRUPTION_VECTOR_SZ - 1 <? n)%Z
                then Raise (SyntaxError vector_num_out_of_range)
                else if negb (isdigit t2) then Raise (SyntaxError vector_address_not_int)
                else
                  res_bind (py_setitem (data v) (PyInt n) t2) (fun d =>
                    Ok (set_data d v)))
        else Ok v
    end)).

(** One iteration of the second loop over the lines. *)
Definition pass2_line (v : locals) (line : string) : res locals :=
  if String.eqb line "" then Ok v else
  let line := strip line in
  let terms := drop_empty_head (re_split line) in
  match terms with
  | [] => Ok v
  | [t] => if String.eqb t "" then Ok v else pass2_terms v terms
  | _ => pass2_terms v terms
  end.

(** The first and the second loop over the lines. *)
Definition pass1 (lines : list string) (v : locals) : res locals :=
  foldl (fun r line => res_bind r (fun v => pass1_line v line)) (Ok v) lines.

Definition pass2 (lines : list string) (v : locals) : res locals :=
  foldl (fun r line => res_bind r (fun v => pass2_line v line)) (Ok v) lines.

(** [translate(script)] *)
Definition translate (script : string) : res Artifact :=
  let lines := split_lines script in
  res_bind (pass1 lines locals_init) (fun v =>
  res_bind (pass2 lines (reset_instr_count v)) (fun v =>
  let v := append_code (dict [("opcode", VOpcode HLT)]) v in
  Ok (mkArtifact (code v) (VStr <$> data v)))).

End Translation.

(** ** Vocabulary of the statements *)

Local Close Scope string_scope.
Local Open Scope Z_scope.

Definition WRAP : Z := 4294967295.

(** What the first loop of [execute_alu] leaves of an integer. *)
Definition wrapped_above (r : Z) : Z :=
  if (r >? INT32_MAX)%Z
  then (r - (r - INT32_MAX + (WRAP - 1)) / WRAP * WRAP)%Z
  else r.

(** What the two loops of [execute_alu] leave of an integer. *)
Definition alu_wrap (r : Z) : Z :=
  let s := wrapped_above r in
  if (s <? INT32_MIN)%Z then (2147483647 - (s + 2147483648))%Z else s.

Definition in_int32 (z : Z) : Prop := (INT32_MIN <= z <= INT32_MAX)%Z.

(** The ALU as the specification words it: [DIV] truncates toward zero and
    the remainder of [MOD] takes the sign of the dividend. *)
Definition truncating_div_mod (left right : Z) : Prop :=
  operations ALU_DIV (PyInt left) (PyInt right) = Ok (PyInt (Z.quot left right)) /\
  operations ALU_MOD (PyInt left) (PyInt right) = Ok (PyInt (Z.rem left right)).

(** The datapath after [execute_alu] has stored the result [res]. *)
Definition alu_stored (res : pyval) (d : DataPath) : DataPath :=
  set_output_bus res (set_alu_bus res
    (set_alu (mkAlu (alu_left (alu d)) (alu_right (alu d)) (py_eq res (PyInt 0))) d)).

(** The overflow rule as the specification words it: one reflection for a
    raw result on either side of the range. *)
Definition reflected_once (r : Z) : Z :=
  if (r >? INT32_MAX)%Z then (INT32_MIN + (r - INT32_MAX))%Z
  else if (r <? INT32_MIN)%Z then (INT32_MAX - (INT32_MIN - r))%Z
  else r.

Definition stores_reflection (op : AluOperations) (d : DataPath) : Prop :=
  forall r, operations op (alu_left (alu d)) (alu_right (alu d)) = Ok (PyInt r) ->
    alu_bus (DataPathM.execute_alu op d).2 = PyInt (reflected_once r) /\
    output_bus (DataPathM.execute_alu op d).2 = PyInt (reflected_once r).

(** A datapath whose ALU inputs are latched to two integers. *)
Definition alu_inputs (l r : Z) : DataPath :=
  set_alu (mkAlu (PyInt l) (PyInt r) true) (DataPath_init [] false).

(** A method leaves the component [f] of the state alone, however it ends. *)
Definition preserves {S A B} (f : S -> A) (m : M S B) : Prop :=
  forall s, f (m s).2 = f s.

(** One call of [decode_and_execute_instruction] that returned. *)
Definition step (c c' : ControlUnit) : Prop :=
  ControlUnitM.decode_and_execute_instruction c = (Ok tt, c').

(** The instruction fetched by the call that led to [c]. *)
Definition fetched (c : ControlUnit) (o : Opcode) : Prop :=
  exists i, instr_ c = Some i /\ opcode i = o.

(** One returning call that did not execute [IRET]. *)
Definition step_without_iret (c c' : ControlUnit) : Prop :=
  step c c' /\ ~ fetched c' IRET.

(** If the method returns from a state in [P], it returns in [Q]. *)
Definition hoare {S B} (P : S -> Prop) (m : M S B) (Q : B -> S -> Prop) : Prop :=
  forall s b s', P s -> m s = (Ok b, s') -> Q b s'.

(** The control unit after the fetch of [i], before its dispatch. *)
Definition after_fetch (i : instr) (c : ControlUnit) : ControlUnit :=
  set_instr_cnt (instr_cnt c + 1) (set_instr (Some i) c).

(** The control unit after [n] further calls of
    [decode_and_execute_instruction]. *)
Definition after (n : nat) (c : ControlUnit) : ControlUnit :=
  Nat.iter n (fun c => (ControlUnitM.decode_and_execute_instruction c).2) c.

(** The control unit [simulation] starts from, when the data fit the memory. *)
Definition booted (program : Program) (interrupt_queue : gmap Z pystr)
    (output_int : bool) : ControlUnit :=
  match boot program interrupt_queue output_int with
  | Ok c => c
  | _ => ControlUnit_init (code program) (DataPath_init [] output_int) interrupt_queue
  end.

(** A program that enables interrupts and spins; its handler, installed
    through the vector cell, echoes one character and halts. *)
Definition echo_handler : Program :=
  mkProgram
    [ mkInstr STI None None None;
      mkInstr JMP None (Some (Const 1)) None;
      mkInstr IN None (Some (Reg R1)) None;
      mkInstr OUT None (Some (Reg R1)) None;
      mkInstr HLT None None None ]
    [2].

Definition echo_schedule : gmap Z pystr := {[ 5 := [120] ]}.

(** A method keeps the invariant [I], however it ends. *)
Definition maintains {S B} (I : S -> Prop) (m : M S B) : Prop :=
  forall s, I s -> I (m s).2.

Definition is_chr (x : out_item) : Prop :=
  match x with OutChr _ => True | OutNum _ => False end.

(** In character mode [print] has only appended characters. *)
Definition chars_in_str_mode (b : bool * list out_item) : Prop :=
  b.1 = false -> Forall is_chr b.2.

Definition output_state (d : DataPath) : bool * list out_item :=
  (output_int d, output_buffer d).

(** The text [simulation] returns for an output buffer: the characters, or
    in integer mode the decimal texts, one after the other. *)
Definition rendered (float_repr : spec_float -> pystr) (d : DataPath) : pystr :=
  concat_str float_repr (output_buffer d).

(** A program that prints, then names [R0] as the output of an [ADD]. *)
Definition writes_r0 : Program :=
  mkProgram
    [ mkInstr OUT None (Some (Const 104)) None;
      mkInstr ADD (Some R1) (Some (Const 1)) (Some R0);
      mkInstr OUT None (Some (Const 105)) None;
      mkInstr HLT None None None ]
    [0].

(** A program that reads with nothing in the input buffer. *)
Definition reads_nothing : Program :=
  mkProgram
    [ mkInstr IN None (Some (Reg R1)) None;
      mkInstr HLT None None None ]
    [0].

Definition no_float_repr (f : spec_float) : pystr := [].

(** The value an operand denotes in a state. *)
Definition operand_value (c : ControlUnit) (a : operand) : pyval :=
  match a with
  | Const n => PyInt n
  | Reg r => registers (reg_file (data_path c)) r
  end.

Definition reg (c : ControlUnit) (r : Register) : pyval :=
  registers (reg_file (data_path c)) r.

(** [CMP] as the specification words it: no general-purpose register is
    modified. *)
Definition cmp_discards_difference (i : instr) (c : ControlUnit) : Prop :=
  forall r, r <> PC -> reg (ControlUnitM.execute i c).2 r = reg c r.

(** [cmp r1, r2, 5] *)
Definition cmp_r1_r2_5 : instr :=
  mkInstr CMP (Some R2) (Some (Const 5)) (Some R1).

(** The branch rule as the specification words it, for [JE] with an
    immediate target: taken exactly when the register equals 0. *)
Definition je_taken_iff_zero (i : instr) (c : ControlUnit) : Prop :=
  forall a1 t pc,
    opcode i = JE -> arg1 i = Some a1 -> arg2 i = Some (Const t) ->
    reg c PC = PyInt pc ->
    reg (ControlUnitM.execute i c).2 PC
    = if py_eq (reg c a1) (PyInt 0) then PyInt t else PyInt (pc + 1).

(** A program that loads 2^32 - 1 from the data section and branches on it. *)
Definition loads_large : Program :=
  mkProgram
    [ mkInstr LD None (Some (Const 1)) (Some R1);
      mkInstr JE (Some R1) (Some (Const 3)) None;
      mkInstr OUT None (Some (Const 78)) None;
      mkInstr HLT None None None ]
    [0; 4294967295].

(** [je r1, 3] *)
Definition je_r1_3 : instr := mkInstr JE (Some R1) (Some (Const 3)) None.

(** Whether a branch is taken, from the value [x] the compared register
    holds. *)
Definition branch_taken (o : Opcode) (x : Z) : bool :=
  match o with
  | JMP => true
  | JE => alu_wrap x =? 0
  | _ => negb (alu_wrap x =? 0)
  end.

(** [R0] reads 0 and is never selected as the output register. *)
Definition r0_is_zero (rf : RegFile) : Prop :=
  output rf <> Reg R0 /\ registers rf R0 = PyInt 0.

(** The instruction [translate] appends. *)
Definition final_hlt : gmap string pyobj := {[ "opcode"%string := VOpcode HLT ]}.


Definition echo_source : string :=
  "section data
hello:
word 'h'
section text
start:
ld r1 hello
out r1
jmp start"%string.

(** Plain JSON values: integers and strings. *)
Definition is_plain (v : pyobj) : bool :=
  match v with VInt _ | VStr _ => true | _ => false end.

(** A field as [read_code] leaves it: the opcode a member of [Opcode],
    [arg1] and [out] members of [Register], [arg2_type] a member of
    [OperandType] with [arg2] a register or an integer accordingly; any other
    value plain. *)
Definition typed_field (d : gmap string pyobj) (k : string) (v : pyobj) : bool :=
  if String.eqb k "opcode" then match v with VOpcode _ => true | _ => false end
  else if String.eqb k "arg1" || String.eqb k "out"
  then match v with VRegister _ => true | _ => false end
  else if String.eqb k "arg2_type"
  then match v with VOperandType _ => true | _ => false end
  else if String.eqb k "arg2" then
    match d !! "arg2_type"%string with
    | Some (VOperandType REGISTER) => match v with VRegister _ => true | _ => false end
    | Some (VOperandType CONSTANT) => match v with VInt _ => true | _ => false end
    | Some _ => false
    | None => is_plain v
    end
  else is_plain v.

Definition typed_instr (d : gmap string pyobj) : Prop :=
  is_Some (d !! "opcode"%string) /\
  (is_Some (d !! "arg2_type"%string) -> is_Some (d !! "arg2"%string)) /\
  map_Forall (fun k v => typed_field d k v = true) d.

Definition typed_artifact (a : Artifact) : Prop :=
  Forall typed_instr (art_code a) /\
  Forall (fun v => exists z, v = VInt z) (art_data a).

(** The round trip as the specification words it. *)
Definition roundtrip_is_identity (a : Artifact) : Prop :=
  forall filename fs, read_code filename (write_code filename a fs) = Ok a.

(** What [translate] returns for the empty source, and what [read_code]
    makes of it. *)
Definition empty_program : Artifact := mkArtifact [final_hlt] [VStr "0"].
Definition empty_program_read : Artifact := mkArtifact [final_hlt] [VInt 0].

(** [add r1, r2, 5; halt] with its data, as [read_code] returns it. *)
Definition typed_example : Artifact :=
  mkArtifact
    [ list_to_map [("opcode"%string, VOpcode ADD); ("arg1"%string, VRegister R2);
                   ("arg2"%string, VInt 5); ("arg2_type"%string, VOperandType CONSTANT);
                   ("out"%string, VRegister R1)];
      final_hlt ]
    [VInt 0; VInt 104].

(** ** Vocabulary of the further properties *)

(** The subscripts a Python list of length [len] accepts, and the position a
    subscript denotes. *)
Definition valid_index (len : nat) (a : Z) : Prop :=
  - Z.of_nat len <= a < Z.of_nat len.

Definition position (len : nat) (a : Z) : nat :=
  Z.to_nat (if a <? 0 then a + Z.of_nat len else a).

(** The memory image [simulation] builds for a data list that fits. *)
Definition memory_image (data : list Z) : list pyval :=
  (PyInt <$> data) ++ replicate (Z.to_nat (DATA_MEM_SZ + 2) - length data) (PyInt 0).

(** A program that jumps to itself. *)
Definition spins : Program :=
  mkProgram [ mkInstr JMP None (Some (Const 0)) None ] [0].

(** A program that prints two characters and halts. *)
Definition prints_hi : Program :=
  mkProgram
    [ mkInstr OUT None (Some (Const 104)) None;
      mkInstr OUT None (Some (Const 105)) None;
      mkInstr HLT None None None ]
    [0].

(** A method that returns has advanced the tick counter by at least [lo]
    and at most [hi]. *)
Definition ticks {B} (lo hi : Z) (m : M ControlUnit B) : Prop :=
  forall s b s', m s = (Ok b, s') -> _tick s + lo <= _tick s' <= _tick s + hi.

(** The ticks the dispatch of an opcode takes when it returns. *)
Definition min_ticks (o : Opcode) : Z :=
  match o with
  | DECLARE => 0
  | IRET => 2
  | _ => 1
  end.

Definition max_ticks (o : Opcode) : Z :=
  match o with
  | DECLARE => 0
  | IRET | JE | JNE => 2
  | _ => 1
  end.

(** [div r1, r2, 0] followed by an output and [halt]. *)
Definition divides_by_zero : Program :=
  mkProgram
    [ mkInstr OUT None (Some (Const 104)) None;
      mkInstr DIV (Some R2) (Some (Const 0)) (Some R1);
      mkInstr HLT None None None ]
    [0].

(** [add r1, r2, 5] *)
Definition add_r1_r2_5 : instr :=
  mkInstr ADD (Some R2) (Some (Const 5)) (Some R1).

(** [mod r3, r1, r2] *)
Definition mod_r3_r1_r2 : instr :=
  mkInstr MOD (Some R1) (Some (Reg R2)) (Some R3).

(** The value [LD] drives onto the address bus: the immediate, or, for a
    register operand, what the ALU's right input holds, which is [R0]. *)
Definition ld_address (c : ControlUnit) (a2 : operand) : pyval :=
  match a2 with
  | Const n => PyInt n
  | Reg _ => reg c R0
  end.

(** [ld r1, r2] *)
Definition ld_r1_r2 : instr := mkInstr LD None (Some (Reg R2)) (Some R1).

(** [sv r1, 3] *)
Definition sv_r1_3 : instr := mkInstr SV (Some R1) (Some (Const 3)) None.

(** [add r2, r2, 5; ld r1, r2; halt] over six data cells. *)
Definition loads_through_r2 : Program :=
  mkProgram
    [ mkInstr ADD (Some R2) (Some (Const 5)) (Some R2);
      ld_r1_r2;
      mkInstr HLT None None None ]
    [42; 7; 8; 9; 10; 11].

(** The item [print] appends for the integer [v] on the ALU bus. *)
Definition printed (output_int : bool) (v : Z) : out_item :=
  if output_int then OutNum (PyInt v) else OutChr v.

(** The code points [chr] accepts. *)
Definition is_code_point (v : Z) : Prop := 0 <= v < 1114112.

(** The exception [chr] raises for an integer that is not a code point:
    [OverflowError] when it does not fit a C [int], [ValueError] otherwise. *)
Definition chr_fault (v : Z) : exn :=
  if (v <? -2147483648) || (2147483647 <? v) then OverflowError else ValueError.

(** [out -2147483649; halt] *)
Definition prints_below_range : Program :=
  mkProgram
    [ mkInstr OUT None (Some (Const (-2147483649))) None;
      mkInstr HLT None None None ]
    [0].

(** [out -1; halt] *)
Definition prints_minus_one : Program :=
  mkProgram
    [ mkInstr OUT None (Some (Const (-1))) None;
      mkInstr HLT None None None ]
    [0].

(** A term that starts a comment, and a non-empty term that does not. *)
Definition starts_comment (t : string) : bool :=
  match t with
  | String c _ => (PyStr.code_of c =? 59)%nat
  | EmptyString => false
  end.

Definition plain_term (t : string) : bool :=
  match t with
  | String c _ => negb (PyStr.code_of c =? 59)%nat
  | EmptyString => false
  end.

(** A source whose comment has two words, and one whose mnemonic line ends
    with a space. *)
Definition two_word_comment : string :=
  "section text
halt ; the end"%string.

Definition trailing_space : string :=
  "section text
halt "%string.

(** A result, and a method, that is never the exception [e]. *)
Definition never (e : exn) {A} (r : res A) : Prop := r <> Raise e.

Definition never_raises (e : exn) {S A} (m : M S A) : Prop :=
  forall s, never e (m s).1.

(** The data list of the translator holds the interrupt vector cell and
    strings of digits only, and [data_count] is its length. *)
Definition data_invariant (v : Translation.locals) : Prop :=
  Translation.data v <> [] /\
  Forall (fun s => PyStr.isdigit s = true) (Translation.data v) /\
  Translation.data_count v = length (Translation.data v).

(** A source with an unknown mnemonic. *)
Definition unknown_mnemonic : string :=
  "section text
nop"%string.

(** The exceptions [translate] can raise: every one but the two
    [SyntaxError]s for an unknown and for an unsupported command. *)
Definition translator_error (e : exn) : Prop :=
  match e with
  | SyntaxError (unknown_command _) | SyntaxError (unsupported_command _) => False
  | _ => True
  end.

(** ** Vocabulary of the round trip through a file *)

(** A value [read_code] turns into a member of [Opcode] or of [Register]:
    the member itself, or the string of its value. *)
Definition names_opcode (v : pyobj) : bool :=
  match to_Opcode v with Ok _ => true | _ => false end.

Definition names_register (v : pyobj) : bool :=
  match to_Register v with Ok _ => true | _ => false end.

Definition is_int (v : pyobj) : bool :=
  match v with VInt _ => true | _ => false end.

(** An instruction [read_code] accepts and returns equal to what it was:
    the fields it converts name members of the enumerations, and an
    immediate is already an integer.  Any other field is free. *)
Definition kept_instr (d : gmap string pyobj) : bool :=
  match d !! "opcode"%string with Some v => names_opcode v | None => false end &&
  match d !! "arg1"%string with Some v => names_register v | None => true end &&
  match d !! "arg2_type"%string with
  | Some t =>
      match to_OperandType t, d !! "arg2"%string with
      | Ok REGISTER, Some v => names_register v
      | Ok CONSTANT, Some v => is_int v
      | _, _ => false
      end
  | None => true
  end &&
  match d !! "out"%string with Some v => names_register v | None => true end.

Definition kept_artifact (a : Artifact) : bool :=
  forallb kept_instr (art_code a) && forallb is_int (art_data a).

(** What [read_code] makes of the field [k] of the instruction [d]. *)
Definition coerce (d : gmap string pyobj) (k : string) (v : pyobj) : pyobj :=
  if String.eqb k "opcode"
  then match to_Opcode v with Ok o => VOpcode o | _ => v end
  else if String.eqb k "arg1" || String.eqb k "out"
  then match to_Register v with Ok r => VRegister r | _ => v end
  else if String.eqb k "arg2_type"
  then match to_OperandType v with Ok t => VOperandType t | _ => v end
  else if String.eqb k "arg2" then
    match d !! "arg2_type"%string with
    | Some t =>
        match to_OperandType t with
        | Ok REGISTER => match to_Register v with Ok r => VRegister r | _ => v end
        | Ok CONSTANT => match py_int v with Ok z => VInt z | _ => v end
        | _ => v
        end
    | None => v
    end
  else v.

Definition coerce_all (d : gmap string pyobj) : gmap string pyobj :=
  map_imap (fun k v => Some (coerce d k v)) d.

(** The instructions of a file on which the loop of [read_code] does not
    raise. *)
Definition readable (d : gmap string pyobj) : bool :=
  match d !! "opcode"%string with Some v => names_opcode v | None => false end &&
  match d !! "arg1"%string with Some v => names_register v | None => true end &&
  match d !! "arg2_type"%string with
  | Some t =>
      match to_OperandType t, d !! "arg2"%string with
      | Ok REGISTER, Some v => names_register v
      | Ok CONSTANT, Some v => match py_int v with Ok _ => true | _ => false end
      | _, _ => false
      end
  | None => true
  end &&
  match d !! "out"%string with Some v => names_register v | None => true end.

(** An artifact with the enumerations as plain strings and integer data. *)
Definition plain_example : Artifact :=
  mkArtifact
    [ list_to_map [("opcode"%string, VStr "add"); ("arg1"%string, VStr "r2");
                   ("arg2"%string, VInt 5); ("arg2_type"%string, VStr "const");
                   ("out"%string, VStr "r1")];
      list_to_map [("opcode"%string, VStr "halt")] ]
    [VInt 0; VInt 104].

(** ** The ALU *)

Local Open Scope Z_scope.

Lemma operations_mod_int (l r : Z) :
  r <> 0 -> operations ALU_MOD (PyInt l) (PyInt r) = Ok (PyInt (l mod r)).
Proof.
  intros Hr. cbn. destruct (Z.eqb_spec r 0); [contradiction | reflexivity].
Qed.

Lemma operations_div_int (l r : Z) :
  r <> 0 ->
  (exists f, operations ALU_DIV (PyInt l) (PyInt r) = Ok (PyFloat f)) \/
  operations ALU_DIV (PyInt l) (PyInt r) = Raise OverflowError.
Proof.
  intros Hr. cbn. destruct (Z.eqb_spec r 0); [contradiction |].
  destruct (fdiv (raw_of_int l) (raw_of_int r)); eauto.
Qed.

(** C2, as amended: on integers with a nonzero divisor, [MOD] returns the
    floored remainder [left mod right], an integer whose sign is that of the
    divisor (it is the truncated remainder when both operands are
    non-negative), and [DIV] never returns an integer: it returns the float of
    Python's true division, or raises [OverflowError]. *)
Theorem alu_div_mod_python (left right : Z) :
  right <> 0 ->
  operations ALU_MOD (PyInt left) (PyInt right) = Ok (PyInt (left mod right)) /\
  (0 < right -> 0 <= left mod right < right) /\
  (right < 0 -> right < left mod right <= 0) /\
  (0 <= left -> 0 < right -> left mod right = Z.rem left right) /\
  ((exists f, operations ALU_DIV (PyInt left) (PyInt right) = Ok (PyFloat f)) \/
   operations ALU_DIV (PyInt left) (PyInt right) = Raise OverflowError).
Proof.
  intros Hr. split; [apply operations_mod_int; assumption |].
  split; [intros; apply Z.mod_pos_bound; lia |].
  split; [intros; apply Z.mod_neg_bound; lia |].
  split; [intros; symmetry; apply Z.rem_mod_nonneg; lia |].
  apply operations_div_int; assumption.
Qed.

Lemma alu_div_mod_python_witness :
  operations ALU_MOD (PyInt (-7)) (PyInt 2) = Ok (PyInt 1) /\
  operations ALU_DIV (PyInt 7) (PyInt 2)
    = Ok (PyFloat (S754_finite false 7881299347898368 (-51))).
Proof.
  split.
  - exact (proj1 (alu_div_mod_python (-7) 2 ltac:(lia))).
  - reflexivity.
Defined.

(** C2, as stated, fails at left = -7, right = 2: [DIV] returns the float
    -3.5, not the integer -3, and [MOD] returns 1, not -1. *)
Lemma alu_div_mod_not_truncating :
  ~ truncating_div_mod (-7) 2 /\
  operations ALU_DIV (PyInt (-7)) (PyInt 2)
    = Ok (PyFloat (S754_finite true 7881299347898368 (-51))) /\
  operations ALU_MOD (PyInt (-7)) (PyInt 2) = Ok (PyInt 1) /\
  Z.quot (-7) 2 = -3 /\ Z.rem (-7) 2 = -1.
Proof.
  split; [| repeat split; reflexivity].
  unfold truncating_div_mod. intros [Hdiv _]. vm_compute in Hdiv. discriminate.
Qed.

(** *** The two loops of [execute_alu] on integers *)

Lemma wrapped_above_step (r : Z) :
  INT32_MAX < r -> wrapped_above (-2147483648 + (r - 2147483647)) = wrapped_above r.
Proof.
  intros Hr. unfold wrapped_above, INT32_MAX, WRAP in *.
  destruct (Z.gtb_spec r 2147483647); [| lia].
  replace (r - 2147483647 + (4294967295 - 1))
    with ((r - 4294967295 - 2147483647 + (4294967295 - 1)) + 1 * 4294967295) by lia.
  rewrite Z.div_add by lia.
  destruct (Z.gtb_spec (-2147483648 + (r - 2147483647)) 2147483647) as [Hgt | Hle].
  - replace (-2147483648 + (r - 2147483647)) with (r - 4294967295) by lia. lia.
  - assert (Hq : (r - 4294967295 - 2147483647 + (4294967295 - 1)) / 4294967295 = 0)
      by (apply Z.div_small; lia).
    rewrite Hq. lia.
Qed.

Lemma wrapped_above_range (r : Z) :
  INT32_MAX < r -> INT32_MIN < wrapped_above r <= INT32_MAX.
Proof.
  intros Hr. unfold wrapped_above, INT32_MAX, INT32_MIN, WRAP in *.
  destruct (Z.gtb_spec r 2147483647); [| lia].
  pose proof (Z.div_mod (r - 2147483647 + (4294967295 - 1)) 4294967295 ltac:(lia)).
  pose proof (Z.mod_pos_bound (r - 2147483647 + (4294967295 - 1)) 4294967295 ltac:(lia)).
  lia.
Qed.

Lemma wrapped_above_once (r : Z) :
  INT32_MAX < r <= INT32_MAX + WRAP -> wrapped_above r = INT32_MIN + (r - INT32_MAX).
Proof.
  intros Hr. unfold wrapped_above, INT32_MAX, INT32_MIN, WRAP in *.
  destruct (Z.gtb_spec r 2147483647); [| lia].
  replace (r - 2147483647 + (4294967295 - 1))
    with ((r - 2147483647 - 1) + 1 * 4294967295) by lia.
  rewrite Z.div_add by lia. rewrite Z.div_small by lia. lia.
Qed.

Lemma wrapped_above_small (r : Z) : r <= INT32_MAX -> wrapped_above r = r.
Proof.
  intros Hr. unfold wrapped_above. destruct (Z.gtb_spec r INT32_MAX); [lia | reflexivity].
Qed.

Lemma py_while_above (n : nat) (r : Z) :
  (Z.to_nat ((r - INT32_MAX) / 2 ^ 31 + 2) <= n)%nat ->
  py_while n
    (fun res => py_gt res (PyInt 2147483647))
    (fun res => res_bind (py_sub res (PyInt 2147483647)) (py_add (PyInt (-2147483648))))
    (PyInt r)
  = Ok (PyInt (wrapped_above r)).
Proof.
  revert r. induction n as [| n IH]; intros r Hn.
  - assert (Hle : r <= INT32_MAX).
    { unfold INT32_MAX in *.
      destruct (Z_lt_le_dec 2147483647 r) as [Hlt | Hle]; [| exact Hle].
      assert (0 <= (r - 2147483647) / 2 ^ 31) by (apply Z.div_pos; lia). lia. }
    cbn. unfold py_gt. cbn. rewrite wrapped_above_small by assumption.
    unfold INT32_MAX in Hle. destruct (Z.compare_spec r 2147483647); try reflexivity; lia.
  - cbn [py_while]. unfold py_gt. cbn [py_compare].
    destruct (Z.compare_spec r 2147483647) as [Heq | Hlt | Hgt].
    + rewrite wrapped_above_small by (unfold INT32_MAX; lia). reflexivity.
    + rewrite wrapped_above_small by (unfold INT32_MAX; lia). reflexivity.
    + cbn [py_sub res_bind py_add]. rewrite IH.
      * rewrite wrapped_above_step by (unfold INT32_MAX; lia). reflexivity.
      * unfold INT32_MAX in *.
        replace (-2147483648 + (r - 2147483647) - 2147483647)
          with ((r - 2147483647 - 2147483647) + (-1) * 2 ^ 31) by lia.
        rewrite Z.div_add by lia.
        assert ((r - 2147483647 - 2147483647) / 2 ^ 31 <= (r - 2147483647) / 2 ^ 31)
          by (apply Z.div_le_mono; lia).
        assert (0 <= (r - 2147483647) / 2 ^ 31) by (apply Z.div_pos; lia).
        lia.
Qed.

Lemma wrap_above_int (r : Z) :
  DataPathM.wrap_above (PyInt r) = Ok (PyInt (wrapped_above r)).
Proof. unfold DataPathM.wrap_above. apply py_while_above. reflexivity. Qed.

Lemma wrap_below_int (s : Z) :
  DataPathM.wrap_below (PyInt s)
  = Ok (PyInt (if s <? INT32_MIN then 2147483647 - (s + 2147483648) else s)).
Proof.
  unfold DataPathM.wrap_below, INT32_MIN. cbn [py_while]. unfold py_lt. cbn [py_compare].
  destruct (Z.ltb_spec s (-2147483648)) as [Hlt | Hge];
    destruct (Z.compare_spec s (-2147483648)); try lia; try reflexivity.
  cbn [py_add res_bind py_sub py_compare].
  destruct (Z.compare_spec (2147483647 - (s + 2147483648)) (-2147483648)); try lia.
  all: reflexivity.
Qed.

Lemma alu_wrap_id (r : Z) : in_int32 r -> alu_wrap r = r.
Proof.
  unfold in_int32, alu_wrap. intros [Hlo Hhi]. rewrite wrapped_above_small by assumption.
  destruct (Z.ltb_spec r INT32_MIN); [lia | reflexivity].
Qed.

Lemma alu_wrap_above (r : Z) : INT32_MAX < r -> alu_wrap r = wrapped_above r.
Proof.
  intros Hr. unfold alu_wrap. pose proof (wrapped_above_range r Hr).
  destruct (Z.ltb_spec (wrapped_above r) INT32_MIN); [lia | reflexivity].
Qed.

Lemma alu_wrap_in_range (r : Z) : INT32_MIN <= r -> in_int32 (alu_wrap r).
Proof.
  intros Hr. destruct (Z_le_gt_dec r INT32_MAX) as [Hle | Hgt].
  - rewrite alu_wrap_id by (split; assumption). split; assumption.
  - rewrite alu_wrap_above by lia. pose proof (wrapped_above_range r ltac:(lia)).
    unfold in_int32. lia.
Qed.

Lemma py_eq_int (a b : Z) : py_eq (PyInt a) (PyInt b) = (a =? b).
Proof.
  unfold py_eq. cbn. destruct (Z.compare_spec a b), (Z.eqb_spec a b); try reflexivity; lia.
Qed.

Lemma execute_alu_int (op : AluOperations) (d : DataPath) (r : Z) :
  operations op (alu_left (alu d)) (alu_right (alu d)) = Ok (PyInt r) ->
  DataPathM.execute_alu op d = (Ok tt, alu_stored (PyInt (alu_wrap r)) d).
Proof.
  intros Hop. unfold DataPathM.execute_alu, bind, get, lift_res, modify.
  rewrite Hop, wrap_above_int, wrap_below_int. reflexivity.
Qed.

(** C3, as amended: when the raw result [r] of the operation is an integer
    not below [INT32_MIN], [execute_alu] succeeds and stores on [alu_bus] and
    [output_bus] a value [s] in [[INT32_MIN, INT32_MAX]], with the zero flag
    [s = 0]: [s = r] when [r <= INT32_MAX], and otherwise [r] lowered by the
    least multiple of 2^32 - 1 that brings it to [INT32_MAX] or below, which
    is [INT32_MIN + (r - INT32_MAX)] when [r <= INT32_MAX + (2^32 - 1)]. *)
Theorem execute_alu_wraps_overflow (op : AluOperations) (d : DataPath) (r : Z) :
  operations op (alu_left (alu d)) (alu_right (alu d)) = Ok (PyInt r) ->
  INT32_MIN <= r ->
  exists s,
    DataPathM.execute_alu op d = (Ok tt, alu_stored (PyInt s) d) /\
    alu_bus (DataPathM.execute_alu op d).2 = PyInt s /\
    output_bus (DataPathM.execute_alu op d).2 = PyInt s /\
    zero_flag (alu (DataPathM.execute_alu op d).2) = (s =? 0) /\
    in_int32 s /\
    (r <= INT32_MAX -> s = r) /\
    (INT32_MAX < r -> s = r - (r - INT32_MAX + (WRAP - 1)) / WRAP * WRAP) /\
    (INT32_MAX < r <= INT32_MAX + WRAP -> s = INT32_MIN + (r - INT32_MAX)).
Proof.
  intros Hop Hlo. exists (alu_wrap r).
  rewrite (execute_alu_int op d r Hop). cbn [snd alu_stored].
  repeat split.
  - cbn. apply py_eq_int.
  - apply alu_wrap_in_range; assumption.
  - apply alu_wrap_in_range; assumption.
  - intros Hhi. apply alu_wrap_id. split; assumption.
  - intros Hhi. rewrite alu_wrap_above by assumption. unfold wrapped_above.
    destruct (Z.gtb_spec r INT32_MAX); [reflexivity | lia].
  - intros [Hhi Hle]. rewrite alu_wrap_above by assumption.
    apply wrapped_above_once. split; assumption.
Qed.

Lemma execute_alu_wraps_overflow_witness :
  exists s,
    DataPathM.execute_alu ALU_ADD (alu_inputs 2147483647 1)
      = (Ok tt, alu_stored (PyInt s) (alu_inputs 2147483647 1)) /\
    s = -2147483647.
Proof.
  destruct (execute_alu_wraps_overflow ALU_ADD (alu_inputs 2147483647 1) 2147483648
              eq_refl ltac:(unfold INT32_MIN; lia))
    as (s & Hex & _ & _ & _ & _ & _ & _ & Honce).
  exists s. split; [exact Hex |].
  rewrite Honce by (unfold INT32_MAX, WRAP; lia). reflexivity.
Defined.

(** C3, as stated, fails for [MUL] on 131072 and 65536, both within the
    range: the raw result is 2^33, the loop runs twice and stores 2, while one
    reflection gives 4294967297, itself outside the range. *)
Lemma execute_alu_not_one_reflection :
  ~ stores_reflection ALU_MUL (alu_inputs 131072 65536) /\
  alu_bus (DataPathM.execute_alu ALU_MUL (alu_inputs 131072 65536)).2 = PyInt 2 /\
  reflected_once (131072 * 65536) = 4294967297.
Proof.
  assert (Hrun : alu_bus (DataPathM.execute_alu ALU_MUL (alu_inputs 131072 65536)).2
                 = PyInt 2).
  { rewrite (execute_alu_int ALU_MUL (alu_inputs 131072 65536) 8589934592 eq_refl).
    reflexivity. }
  split; [| split; [exact Hrun | reflexivity]].
  intros Hclaim. destruct (Hclaim 8589934592 eq_refl) as [Hbus _].
  rewrite Hrun in Hbus. vm_compute in Hbus. discriminate.
Qed.

(** The second loop reflects a result below the range to above it: the value
    stored for [r < INT32_MIN] is [-r - 1], larger than [INT32_MAX]. *)
Lemma execute_alu_underflow (op : AluOperations) (d : DataPath) (r : Z) :
  operations op (alu_left (alu d)) (alu_right (alu d)) = Ok (PyInt r) ->
  r < INT32_MIN ->
  DataPathM.execute_alu op d = (Ok tt, alu_stored (PyInt (- r - 1)) d) /\
  INT32_MAX < - r - 1.
Proof.
  intros Hop Hr. rewrite (execute_alu_int op d r Hop). unfold alu_wrap.
  rewrite wrapped_above_small by (unfold INT32_MIN, INT32_MAX in *; lia).
  destruct (Z.ltb_spec r INT32_MIN); [| lia].
  unfold INT32_MIN, INT32_MAX in *. split; [do 3 f_equal; lia | lia].
Qed.

(** ** Frame rules for the methods *)

Section Preserves.
Context {S A : Type} (f : S -> A).

Lemma preserves_ret {B} (b : B) : preserves f (ret b).
Proof. intros s. reflexivity. Qed.

Lemma preserves_raise {B} (e : exn) : preserves f (@raise S B e).
Proof. intros s. reflexivity. Qed.

Lemma preserves_get : preserves f (@get S).
Proof. intros s. reflexivity. Qed.

Lemma preserves_lift_res {B} (r : res B) : preserves f (lift_res r).
Proof. intros s. reflexivity. Qed.

Lemma preserves_field {B} (o : option B) : preserves f (field o).
Proof. destruct o; intros s; reflexivity. Qed.

Lemma preserves_modify (g : S -> S) : (forall s, f (g s) = f s) -> preserves f (modify g).
Proof. intros Hg s. apply Hg. Qed.

Lemma preserves_bind {B C} (m : M S B) (k : B -> M S C) :
  preserves f m -> (forall b, preserves f (k b)) -> preserves f (bind m k).
Proof.
  intros Hm Hk s. unfold bind. specialize (Hm s).
  destruct (m s) as [[b | e |] s']; cbn in *; [| assumption | assumption].
  rewrite Hk. assumption.
Qed.

End Preserves.

Lemma preserves_dp {A B} (f : ControlUnit -> A) (m : M DataPath B) :
  (forall d c, f (set_data_path d c) = f c) -> preserves f (ControlUnitM.dp m).
Proof.
  intros Hf c. unfold ControlUnitM.dp. destruct (m (data_path c)) as [r d]. apply Hf.
Qed.

Lemma preserves_dp_lift {A B} (g : DataPath -> A) (m : M DataPath B) :
  preserves g m -> preserves (fun c => g (data_path c)) (ControlUnitM.dp m).
Proof.
  intros Hm c. unfold ControlUnitM.dp. specialize (Hm (data_path c)).
  destruct (m (data_path c)) as [r d]. exact Hm.
Qed.

Ltac preserves_step :=
  lazymatch goal with
  | |- preserves _ (bind _ _) => apply preserves_bind; [| intros ?]
  | |- preserves _ (ret _) => apply preserves_ret
  | |- preserves _ (raise _) => apply preserves_raise
  | |- preserves _ get => apply preserves_get
  | |- preserves _ (lift_res _) => apply preserves_lift_res
  | |- preserves _ (field _) => apply preserves_field
  | |- preserves _ (modify _) => apply preserves_modify; intros ?; reflexivity
  | |- preserves (fun c => _ (data_path c)) (ControlUnitM.dp _) => apply preserves_dp_lift
  | |- preserves _ (ControlUnitM.dp _) => apply preserves_dp; intros ? ?; reflexivity
  | |- preserves _ (if ?b then _ else _) => destruct b
  | |- preserves _ (match ?x with _ => _ end) => destruct x
  end.

Ltac solve_preserves := repeat preserves_step.

(** *** What the control unit's own methods leave alone *)

Lemma tick_preserves {A} (f : ControlUnit -> A) :
  (forall t c, f (set_tick t c) = f c) -> preserves f ControlUnitM.tick.
Proof. intros Hf c. apply Hf. Qed.

Lemma latch_program_counter_preserves {A} (f : ControlUnit -> A) :
  (forall d c, f (set_data_path d c) = f c) ->
  preserves f ControlUnitM.latch_program_counter.
Proof.
  intros Hf. unfold ControlUnitM.latch_program_counter.
  apply preserves_bind; [apply preserves_get | intros c0].
  apply preserves_bind; [apply preserves_lift_res | intros v].
  apply preserves_dp. exact Hf.
Qed.

Lemma branch_target_preserves {A} (f : ControlUnit -> A) (a : operand) :
  (forall d c, f (set_data_path d c) = f c) ->
  preserves f (ControlUnitM.branch_target a).
Proof.
  intros Hf. destruct a; unfold ControlUnitM.branch_target;
    (apply preserves_bind; [| intros ?]); apply preserves_dp; exact Hf.
Qed.

(** A component of the control unit that no datapath method, no tick and
    no write of [int_enabled] touches. *)
Definition control_only {A} (f : ControlUnit -> A) : Prop :=
  (forall d c, f (set_data_path d c) = f c) /\
  (forall t c, f (set_tick t c) = f c) /\
  (forall b c, f (set_int_enabled b c) = f c).

Ltac control_step Hf :=
  lazymatch goal with
  | |- preserves _ (bind _ _) => apply preserves_bind; [| intros ?]
  | |- preserves _ (ret _) => apply preserves_ret
  | |- preserves _ (raise _) => apply preserves_raise
  | |- preserves _ get => apply preserves_get
  | |- preserves _ (lift_res _) => apply preserves_lift_res
  | |- preserves _ (field _) => apply preserves_field
  | |- preserves _ ControlUnitM.tick => apply tick_preserves; apply Hf
  | |- preserves _ ControlUnitM.latch_program_counter =>
      apply latch_program_counter_preserves; apply Hf
  | |- preserves _ (ControlUnitM.branch_target _) =>
      apply branch_target_preserves; apply Hf
  | |- preserves _ (ControlUnitM.dp _) => apply preserves_dp; apply Hf
  | |- preserves _ (modify (set_int_enabled _)) => apply preserves_modify; apply Hf
  | |- preserves _ (if ?b then _ else _) => destruct b
  | |- preserves _ (match ?x with _ => _ end) => destruct x
  end.

Lemma execute_preserves {A} (f : ControlUnit -> A) (i : instr) :
  control_only f ->
  (opcode i = IRET -> forall b c, f (set_is_interrupted b c) = f c) ->
  preserves f (ControlUnitM.execute i).
Proof.
  intros Hf Hiret. unfold ControlUnitM.execute.
  destruct (opcode i) eqn:Hop; repeat control_step Hf.
  apply preserves_modify. apply Hiret. reflexivity.
Qed.

(** *** What the datapath's methods leave alone *)

(** A component of the datapath that only [input_buffer.append] and
    [output_buffer.append] can change. *)
Definition buffers_only {A} (g : DataPath -> A) : Prop :=
  (forall f d, g (set_reg_file f d) = g d) /\
  (forall a d, g (set_alu a d) = g d) /\
  (forall m d, g (set_data_memory m d) = g d) /\
  (forall v d, g (set_alu_bus v d) = g d) /\
  (forall v d, g (set_output_bus v d) = g d) /\
  (forall v d, g (set_data_bus v d) = g d) /\
  (forall p d, g (set_input_pointer p d) = g d).

Section DataPathFrame.
Context {A : Type} (g : DataPath -> A) (Hg : buffers_only g).
Import DataPathM.

Ltac frame_step :=
  lazymatch goal with
  | |- preserves _ (bind _ _) => apply preserves_bind; [| intros ?]
  | |- preserves _ (ret _) => apply preserves_ret
  | |- preserves _ (raise _) => apply preserves_raise
  | |- preserves _ get => apply preserves_get
  | |- preserves _ (lift_res _) => apply preserves_lift_res
  | |- preserves _ (modify _) => apply preserves_modify; intros ?; cbv beta; apply Hg
  | |- preserves _ (if ?b then _ else _) => destruct b
  | |- preserves _ (match ?x with _ => _ end) => destruct x
  end.

Lemma latch_registers_preserves op1 op2 o : preserves g (latch_registers op1 op2 o).
Proof. unfold latch_registers. repeat frame_step. Qed.

Lemma latch_alu_preserves k : preserves g (latch_alu k).
Proof. unfold latch_alu. repeat frame_step. Qed.

Lemma latch_output_preserves : preserves g latch_output.
Proof. unfold latch_output. repeat frame_step. Qed.

Lemma execute_alu_preserves op : preserves g (execute_alu op).
Proof.
  unfold execute_alu. repeat frame_step.
Qed.

Lemma write_preserves : preserves g write.
Proof. unfold write. repeat frame_step. Qed.

Lemma read_preserves : preserves g read.
Proof. unfold read. repeat frame_step. Qed.

Lemma input_preserves : preserves g input.
Proof.
  unfold input. apply preserves_bind; [apply preserves_get | intros d0].
  apply preserves_bind.
  - intros d. destruct (res_bind _ _) as [c | [] |]; cbn; try reflexivity. apply Hg.
  - intros _. apply preserves_modify. intros d. apply Hg.
Qed.

Lemma print_preserves :
  (forall b d, g (set_output_buffer b d) = g d) -> preserves g print.
Proof.
  intros Hout. unfold print. apply preserves_bind; [apply preserves_get | intros d0].
  destruct (output_int d0).
  - apply preserves_modify. intros d. apply Hout.
  - apply preserves_bind; [apply preserves_lift_res | intros c].
    apply preserves_modify. intros d. apply Hout.
Qed.

End DataPathFrame.

Ltac datapath_method Hg Hout :=
  first
    [ apply latch_registers_preserves; exact Hg
    | apply latch_alu_preserves; exact Hg
    | apply latch_output_preserves; exact Hg
    | apply execute_alu_preserves; exact Hg
    | apply write_preserves; exact Hg
    | apply read_preserves; exact Hg
    | apply input_preserves; exact Hg
    | apply (print_preserves _ Hout)
    | apply preserves_bind; [apply preserves_get | intros ?; apply preserves_ret]
    | apply preserves_modify; intros ?; cbv beta; apply Hg
    | apply preserves_modify; intros ?; reflexivity ].

Ltac through_datapath Hg Hout :=
  lazymatch goal with
  | |- preserves _ (bind _ _) => apply preserves_bind; [| intros ?]
  | |- preserves _ (ret _) => apply preserves_ret
  | |- preserves _ (raise _) => apply preserves_raise
  | |- preserves _ get => apply preserves_get
  | |- preserves _ (lift_res _) => apply preserves_lift_res
  | |- preserves _ (field _) => apply preserves_field
  | |- preserves _ ControlUnitM.tick => apply preserves_modify; intros ?; reflexivity
  | |- preserves _ (ControlUnitM.dp _) =>
      apply preserves_dp_lift; datapath_method Hg Hout
  | |- preserves _ (modify _) => apply preserves_modify; intros ?; reflexivity
  | |- preserves _ (if ?b then _ else _) => destruct b
  | |- preserves _ (match ?x with _ => _ end) => destruct x
  end.

Section ThroughDataPath.
Context {A : Type} (g : DataPath -> A) (Hg : buffers_only g).
Import ControlUnitM.

Lemma latch_program_counter_keeps :
  preserves (fun c => g (data_path c)) latch_program_counter.
Proof.
  unfold latch_program_counter. repeat through_datapath Hg Hg.
Qed.

Lemma branch_target_keeps a : preserves (fun c => g (data_path c)) (branch_target a).
Proof. unfold branch_target. repeat through_datapath Hg Hg. Qed.

Lemma execute_keeps i :
  (forall b d, g (set_output_buffer b d) = g d) ->
  preserves (fun c => g (data_path c)) (execute i).
Proof.
  intros Hout. pose proof latch_program_counter_keeps as Hpc.
  pose proof branch_target_keeps as Hbt.
  unfold execute.
  destruct (opcode i);
    repeat first [ apply Hpc | apply Hbt | through_datapath Hg Hout ].
Qed.

End ThroughDataPath.

Lemma input_buffer_buffers_only : buffers_only input_buffer.
Proof. repeat split. Qed.

(** *** The interrupt queue *)

Lemma foldr_min_spec (k : Z) (ks : list Z) :
  foldr Z.min k ks ∈ k :: ks /\ forall k', k' ∈ k :: ks -> foldr Z.min k ks <= k'.
Proof.
  induction ks as [| x ks [IHin IHle]]; cbn.
  - split; [left | intros k' Hk'; apply list_elem_of_singleton in Hk'; lia].
  - split.
    + destruct (Z.min_spec x (foldr Z.min k ks)) as [[_ ->] | [_ ->]].
      * right. left.
      * apply elem_of_cons in IHin as [-> | Hin]; [left | right; right; exact Hin].
    + intros k' Hk'. apply elem_of_cons in Hk' as [-> | Hk'].
      * specialize (IHle k ltac:(left)). lia.
      * apply elem_of_cons in Hk' as [-> | Hk']; [lia |].
        specialize (IHle k' ltac:(right; exact Hk')). lia.
Qed.

Lemma min_key_Some (q : gmap Z pystr) (k : Z) :
  min_key q = Some k ->
  is_Some (q !! k) /\ forall k', is_Some (q !! k') -> k <= k'.
Proof.
  unfold min_key. intros Hmin.
  assert (Hkeys : forall x, x ∈ (map_to_list q).*1 <-> is_Some (q !! x)).
  { intros x. rewrite list_elem_of_fmap. split.
    - intros [[x' v] [-> Hin]]. apply elem_of_map_to_list in Hin. eauto.
    - intros [v Hv]. exists (x, v). split; [reflexivity |].
      apply elem_of_map_to_list. exact Hv. }
  destruct ((map_to_list q).*1) as [| k0 ks] eqn:Hl; [discriminate |].
  injection Hmin as <-. destruct (foldr_min_spec k0 ks) as [Hin Hle].
  split; [apply Hkeys; exact Hin |].
  intros k' Hk'. apply Hle. apply Hkeys. exact Hk'.
Qed.

Lemma min_key_None (q : gmap Z pystr) : min_key q = None <-> q = ∅.
Proof.
  unfold min_key. split.
  - intros Hmin. apply map_to_list_empty_iff.
    destruct (map_to_list q) as [| kv l]; [reflexivity | discriminate].
  - intros ->. rewrite map_to_list_empty. reflexivity.
Qed.

(** *** Sequencing *)

Lemma bind_Ok {S B C} (m : M S B) (k : B -> M S C) (s s' : S) (c : C) :
  bind m k s = (Ok c, s') -> exists b s1, m s = (Ok b, s1) /\ k b s1 = (Ok c, s').
Proof.
  unfold bind. destruct (m s) as [[b | e |] s1]; intros H; try discriminate. eauto.
Qed.

Lemma hoare_bind {S B C} (P : S -> Prop) (Q1 : B -> S -> Prop) (Q : C -> S -> Prop)
    (m : M S B) (k : B -> M S C) :
  hoare P m Q1 -> (forall b, hoare (Q1 b) (k b) Q) -> hoare P (bind m k) Q.
Proof.
  intros Hm Hk s c s' HP Hrun. apply bind_Ok in Hrun as (b & s1 & Hm1 & Hk1).
  eapply Hk; [| exact Hk1]. eapply Hm; eassumption.
Qed.

Lemma hoare_preserves {S A B} (f : S -> A) (x : A) (m : M S B) :
  preserves f m -> hoare (fun s => f s = x) m (fun _ s' => f s' = x).
Proof.
  intros Hm s b s' HP Hrun. rewrite <- HP, <- (Hm s), Hrun. reflexivity.
Qed.

Lemma hoare_bind_preserves {S A B C} (f : S -> A) (x : A) (Q : C -> S -> Prop)
    (m : M S B) (k : B -> M S C) :
  preserves f m -> (forall b, hoare (fun s => f s = x) (k b) Q) ->
  hoare (fun s => f s = x) (bind m k) Q.
Proof.
  intros Hm Hk. eapply hoare_bind; [apply hoare_preserves; exact Hm | exact Hk].
Qed.

(** *** The admission of an interrupt *)

Lemma decode_and_execute_instruction_eq (c : ControlUnit) :
  ControlUnitM.decode_and_execute_instruction c =
  match (if ControlUnitM.interrupt_pending c
         then ControlUnitM.admit_interrupt c else (Ok tt, c)) with
  | (Ok _, c1) =>
      match py_getitem (program c1) (registers (reg_file (data_path c1)) PC) with
      | Ok i => ControlUnitM.execute i (after_fetch i c1)
      | Raise e => (Raise e, c1)
      | Hang => (Hang, c1)
      end
  | (Raise e, c1) => (Raise e, c1)
  | (Hang, c1) => (Hang, c1)
  end.
Proof.
  unfold ControlUnitM.decode_and_execute_instruction, bind, get, lift_res, modify, ret.
  destruct (ControlUnitM.interrupt_pending c).
  - destruct (ControlUnitM.admit_interrupt c) as [[[] | e |] c1]; reflexivity.
  - destruct (py_getitem _ _); reflexivity.
Qed.

Lemma admit_interrupt_queue (c : ControlUnit) (k : Z) :
  min_key (int_queue c) = Some k ->
  int_queue (ControlUnitM.admit_interrupt c).2 = delete k (int_queue c).
Proof.
  intros Hmin. destruct (min_key_Some _ _ Hmin) as [[payload Hp] _].
  unfold ControlUnitM.admit_interrupt.
  unfold bind at 1. unfold get at 1. cbn [fst snd].
  rewrite Hmin. unfold bind at 1. cbn [field ret].
  rewrite Hp. unfold bind at 1. cbn [field ret].
  unfold bind at 1. cbn [modify].
  match goal with
  | |- int_queue (?m ?s).2 = _ =>
      assert (Hrest : preserves int_queue m);
      [| rewrite (Hrest s); reflexivity]
  end.
  pose proof (tick_preserves int_queue ltac:(reflexivity)) as Htick.
  repeat first [ apply Htick | preserves_step ].
Qed.

Lemma admit_interrupt_returns (c c' : ControlUnit) (k : Z) (payload : pystr) :
  min_key (int_queue c) = Some k ->
  int_queue c !! k = Some payload ->
  ControlUnitM.admit_interrupt c = (Ok tt, c') ->
  input_buffer (data_path c') = input_buffer (data_path c) ++ [payload] /\
  is_interrupted c' = true.
Proof.
  intros Hmin Hp. unfold ControlUnitM.admit_interrupt.
  unfold bind at 1. unfold get at 1. cbn [fst snd].
  rewrite Hmin. unfold bind at 1. cbn [field ret].
  rewrite Hp. unfold bind at 1. cbn [field ret].
  set (B := input_buffer (data_path c)).
  match goal with
  | |- ?m ?s = _ -> _ =>
      assert (Hrest : hoare (fun s0 => input_buffer (data_path s0) = B) m
                (fun _ s' => input_buffer (data_path s') = B ++ [payload] /\
                             is_interrupted s' = true));
      [| intros Hrun; exact (Hrest s tt c' eq_refl Hrun)]
  end.
  pose proof (latch_program_counter_keeps input_buffer input_buffer_buffers_only).
  repeat (apply hoare_bind_preserves;
          [ solve [ repeat through_datapath input_buffer_buffers_only
                             (fun (b : list out_item) (d : DataPath) =>
                                eq_refl (input_buffer d)) ]
          | intros ? ]).
  intros s0 u s' HP Hrun.
  unfold bind, ControlUnitM.dp, modify in Hrun. cbn in Hrun.
  injection Hrun as Hs. subst s'. cbn. rewrite HP. split; reflexivity.
Qed.

Lemma interrupt_pending_true (c : ControlUnit) :
  ControlUnitM.interrupt_pending c = true ->
  int_enabled c = true /\ is_interrupted c = false /\ int_queue c <> ∅ /\
  exists k, min_key (int_queue c) = Some k /\ k <= _tick c.
Proof.
  unfold ControlUnitM.interrupt_pending. intros H.
  apply andb_prop in H as [H Hk]. apply andb_prop in H as [H Hsize].
  apply andb_prop in H as [Hen Hint].
  destruct (min_key (int_queue c)) as [k |] eqn:Hmin; [| discriminate].
  repeat split.
  - exact Hen.
  - destruct (is_interrupted c); [discriminate | reflexivity].
  - intros Hempty. rewrite Hempty in Hmin. discriminate.
  - exists k. split; [reflexivity | lia].
Qed.

Lemma execute_after_fetch (i : instr) (c1 c' : ControlUnit) (r : res unit) :
  ControlUnitM.execute i (after_fetch i c1) = (r, c') ->
  int_queue c' = int_queue c1 /\
  instr_ c' = Some i /\
  (opcode i <> IRET -> is_interrupted c' = is_interrupted c1) /\
  input_buffer (data_path c') = input_buffer (data_path c1).
Proof.
  intros Hrun.
  assert (Hc' : c' = (ControlUnitM.execute i (after_fetch i c1)).2) by (rewrite Hrun; reflexivity).
  subst c'. repeat split.
  - rewrite (execute_preserves int_queue i); [reflexivity | repeat split | reflexivity].
  - rewrite (execute_preserves instr_ i); [reflexivity | repeat split | reflexivity].
  - intros Hop.
    rewrite (execute_preserves is_interrupted i); [reflexivity | repeat split | contradiction].
  - rewrite (execute_keeps input_buffer input_buffer_buffers_only i); reflexivity.
Qed.

Lemma decode_after_admission (c c' : ControlUnit) (r : res unit) :
  ControlUnitM.decode_and_execute_instruction c = (r, c') ->
  exists r1 c1,
    (if ControlUnitM.interrupt_pending c
     then ControlUnitM.admit_interrupt c else (Ok tt, c)) = (r1, c1) /\
    int_queue c' = int_queue c1 /\
    (is_interrupted c' = is_interrupted c1 \/ fetched c' IRET) /\
    input_buffer (data_path c') = input_buffer (data_path c1) /\
    (r = Ok tt -> r1 = Ok tt).
Proof.
  rewrite decode_and_execute_instruction_eq.
  destruct (if ControlUnitM.interrupt_pending c then _ else _) as [r1 c1].
  intros Hrun. exists r1, c1. split; [reflexivity |].
  destruct r1 as [[] | e |].
  - destruct (py_getitem _ _) as [i | e |].
    + destruct (execute_after_fetch i c1 c' r Hrun) as (Hq & Hi & Hflag & Hbuf).
      repeat split; try assumption.
      destruct (decide (opcode i = IRET)) as [Hop | Hop].
      * right. exists i. split; assumption.
      * left. apply Hflag. exact Hop.
    + injection Hrun as <- <-. repeat split; first [reflexivity | left; reflexivity | intros; congruence].
    + injection Hrun as <- <-. repeat split; first [reflexivity | left; reflexivity | intros; congruence].
  - injection Hrun as <- <-. repeat split; first [reflexivity | left; reflexivity | intros; congruence].
  - injection Hrun as <- <-. repeat split; first [reflexivity | left; reflexivity | intros; congruence].
Qed.

Lemma step_while_interrupted (c c' : ControlUnit) (r : res unit) :
  is_interrupted c = true ->
  ControlUnitM.decode_and_execute_instruction c = (r, c') ->
  int_queue c' = int_queue c /\ (is_interrupted c' = false -> fetched c' IRET).
Proof.
  intros Hint Hrun.
  destruct (decode_after_admission c c' r Hrun) as (r1 & c1 & Hadm & Hq & Hflag & _).
  assert (Hpend : ControlUnitM.interrupt_pending c = false).
  { unfold ControlUnitM.interrupt_pending. rewrite Hint.
    destruct (int_enabled c); reflexivity. }
  rewrite Hpend in Hadm. injection Hadm as <- <-.
  split; [exact Hq |].
  intros Hfalse. destruct Hflag as [Hsame | Hiret]; [congruence | exact Hiret].
Qed.

(** C5: a call of [decode_and_execute_instruction] takes an entry out of
    the interrupt queue only from a state where [int_enabled] is true,
    [is_interrupted] is false, the queue is not empty and the tick has reached
    its smallest key; the entry it takes out is the one with the smallest key,
    and its payload is what a returning call has appended to the input buffer.
    From a state where [is_interrupted] is true the call leaves the queue as
    it is, and [is_interrupted] is false afterwards only if the call executed
    [IRET]; so along any sequence of calls that execute no [IRET], the flag
    stays true and the queue unchanged. *)
Theorem interrupt_admission_discipline (c c' : ControlUnit) (r : res unit) :
  ControlUnitM.decode_and_execute_instruction c = (r, c') ->
  (int_queue c' <> int_queue c ->
     int_enabled c = true /\ is_interrupted c = false /\ int_queue c <> ∅ /\
     exists k payload,
       int_queue c !! k = Some payload /\ k <= _tick c /\
       (forall k', is_Some (int_queue c !! k') -> k <= k') /\
       int_queue c' = delete k (int_queue c) /\
       (r = Ok tt ->
        input_buffer (data_path c') = input_buffer (data_path c) ++ [payload])) /\
  (is_interrupted c = true ->
     int_queue c' = int_queue c /\ (is_interrupted c' = false -> fetched c' IRET)) /\
  (forall c'', is_interrupted c' = true -> rtc step_without_iret c' c'' ->
     is_interrupted c'' = true /\ int_queue c'' = int_queue c').
Proof.
  intros Hrun. split; [| split].
  - intros Hchanged.
    destruct (decode_after_admission c c' r Hrun) as (r1 & c1 & Hadm & Hq & _ & Hbuf & Hok).
    destruct (ControlUnitM.interrupt_pending c) eqn:Hpend.
    + destruct (interrupt_pending_true c Hpend) as (Hen & Hint & Hne & k & Hmin & Hk).
      destruct (min_key_Some _ _ Hmin) as [[payload Hp] Hleast].
      repeat split; try assumption.
      exists k, payload. repeat split; try assumption.
      * rewrite Hq. rewrite <- (admit_interrupt_queue c k Hmin), Hadm. reflexivity.
      * intros ->. specialize (Hok eq_refl). subst r1. rewrite Hbuf.
        apply (admit_interrupt_returns c c1 k payload Hmin Hp Hadm).
    + injection Hadm as <- <-. contradiction.
  - intros Hint. exact (step_while_interrupted c c' r Hint Hrun).
  - clear Hrun. intros c'' Hint Hsteps. induction Hsteps as [c0 | c0 c1 c2 [Hstep Hno] Hrest IH].
    + split; [exact Hint | reflexivity].
    + destruct (step_while_interrupted c0 c1 (Ok tt) Hint Hstep) as [Hq Hflag].
      assert (Hint1 : is_interrupted c1 = true).
      { destruct (is_interrupted c1); [reflexivity |]. exfalso. apply Hno. apply Hflag.
        reflexivity. }
      destruct (IH Hint1) as [Hint2 Hq2].
      split; [exact Hint2 | rewrite Hq2; exact Hq].
Qed.

Lemma interrupt_admission_discipline_witness :
  let c := after 5 (booted echo_handler echo_schedule false) in
  let c' := (ControlUnitM.decode_and_execute_instruction c).2 in
  int_enabled c = true /\ is_interrupted c = false /\ int_queue c <> ∅ /\
  exists k payload,
    int_queue c !! k = Some payload /\ k <= _tick c /\
    (forall k', is_Some (int_queue c !! k') -> k <= k') /\
    int_queue c' = delete k (int_queue c) /\
    (Ok tt = Ok tt ->
     input_buffer (data_path c') = input_buffer (data_path c) ++ [payload]).
Proof.
  intros c c'.
  assert (Hrun : ControlUnitM.decode_and_execute_instruction c = (Ok tt, c'))
    by (vm_compute; reflexivity).
  assert (Hchanged : int_queue c' <> int_queue c)
    by (vm_compute; discriminate).
  exact (proj1 (interrupt_admission_discipline c c' (Ok tt) Hrun) Hchanged).
Defined.

(** ** Invariants of a run *)

Section Maintains.
Context {S : Type} (I : S -> Prop).

Lemma maintains_unchanged {B} (m : M S B) :
  (forall s, (m s).2 = s) -> maintains I m.
Proof. intros Hm s Hs. rewrite Hm. exact Hs. Qed.

Lemma maintains_bind {B C} (m : M S B) (k : B -> M S C) :
  maintains I m -> (forall b, maintains I (k b)) -> maintains I (bind m k).
Proof.
  intros Hm Hk s Hs. unfold bind. specialize (Hm s Hs).
  destruct (m s) as [[b | e |] s1]; cbn in *; [| assumption | assumption].
  apply Hk. exact Hm.
Qed.

End Maintains.

Lemma preserves_maintains {S A B} (f : S -> A) (P : A -> Prop) (m : M S B) :
  preserves f m -> maintains (fun s => P (f s)) m.
Proof. intros Hm s Hs. rewrite (Hm s). exact Hs. Qed.

Lemma maintains_dp {B} (I : DataPath -> Prop) (m : M DataPath B) :
  maintains I m -> maintains (fun c => I (data_path c)) (ControlUnitM.dp m).
Proof.
  intros Hm c Hc. unfold ControlUnitM.dp. specialize (Hm (data_path c) Hc).
  destruct (m (data_path c)) as [r d]. exact Hm.
Qed.

Lemma output_state_buffers_only : buffers_only output_state.
Proof. repeat split. Qed.

Lemma print_maintains_chars :
  maintains (fun d => chars_in_str_mode (output_state d)) DataPathM.print.
Proof.
  intros d Hd. unfold DataPathM.print, bind, get, modify, lift_res.
  destruct (output_int d) eqn:Hmode; cbn.
  - intros Hfalse. cbn in Hfalse. congruence.
  - destruct (DataPathM.py_chr (alu_bus d)) as [ch | e |]; cbn; try exact Hd.
    intros _. cbn. apply Forall_app. split; [apply Hd; exact Hmode |].
    constructor; [exact Logic.I | constructor].
Qed.

Ltac maintains_step :=
  lazymatch goal with
  | |- maintains _ (bind _ _) => apply maintains_bind; [| intros ?]
  | |- maintains _ (ret _) => apply maintains_unchanged; intros ?; reflexivity
  | |- maintains _ (raise _) => apply maintains_unchanged; intros ?; reflexivity
  | |- maintains _ get => apply maintains_unchanged; intros ?; reflexivity
  | |- maintains _ (lift_res _) => apply maintains_unchanged; intros ?; reflexivity
  | |- maintains _ (field ?o) =>
      destruct o; apply maintains_unchanged; intros ?; reflexivity
  | |- maintains _ ControlUnitM.tick => intros ? ?; assumption
  | |- maintains _ (ControlUnitM.dp DataPathM.print) =>
      apply (maintains_dp _ _ print_maintains_chars)
  | |- maintains _ (ControlUnitM.dp _) =>
      apply (maintains_dp (fun d => chars_in_str_mode (output_state d)));
      apply (preserves_maintains output_state chars_in_str_mode);
      datapath_method output_state_buffers_only output_state_buffers_only
  | |- maintains _ (modify _) => intros ? ?; assumption
  | |- maintains _ (if ?b then _ else _) => destruct b
  | |- maintains _ (match ?x with _ => _ end) => destruct x
  end.

Lemma latch_program_counter_maintains_chars :
  maintains (fun c => chars_in_str_mode (output_state (data_path c)))
    ControlUnitM.latch_program_counter.
Proof. unfold ControlUnitM.latch_program_counter. repeat maintains_step. Qed.

Lemma branch_target_maintains_chars (a : operand) :
  maintains (fun c => chars_in_str_mode (output_state (data_path c)))
    (ControlUnitM.branch_target a).
Proof. unfold ControlUnitM.branch_target. repeat maintains_step. Qed.

Lemma execute_maintains_chars (i : instr) :
  maintains (fun c => chars_in_str_mode (output_state (data_path c)))
    (ControlUnitM.execute i).
Proof.
  pose proof latch_program_counter_maintains_chars as Hpc.
  pose proof branch_target_maintains_chars as Hbt.
  unfold ControlUnitM.execute.
  destruct (opcode i); repeat first [ apply Hpc | apply Hbt | maintains_step ].
Qed.

Lemma admit_interrupt_maintains_chars :
  maintains (fun c => chars_in_str_mode (output_state (data_path c)))
    ControlUnitM.admit_interrupt.
Proof. unfold ControlUnitM.admit_interrupt. repeat maintains_step. Qed.

Lemma decode_maintains_chars :
  maintains (fun c => chars_in_str_mode (output_state (data_path c)))
    ControlUnitM.decode_and_execute_instruction.
Proof.
  pose proof admit_interrupt_maintains_chars as Hadm.
  pose proof execute_maintains_chars as Hex.
  unfold ControlUnitM.decode_and_execute_instruction.
  repeat first [ apply Hadm | apply Hex | maintains_step ].
Qed.

Lemma nsteps_maintains (I : ControlUnit -> Prop) (n : nat) (c0 c : ControlUnit) :
  maintains I ControlUnitM.decode_and_execute_instruction ->
  I c0 -> nsteps step n c0 c -> I c.
Proof.
  intros HI H0 Hsteps. induction Hsteps as [| n c0 c1 c2 Hstep Hrest IH]; [exact H0 |].
  apply IH. specialize (HI c0 H0). unfold step in Hstep. rewrite Hstep in HI. exact HI.
Qed.

(** *** The loop of [simulation] *)

Lemma run_nsteps (n : nat) (c0 c : ControlUnit) :
  nsteps step n c0 c ->
  forall (fuel : nat) (limit k : Z),
    (n <= fuel)%nat -> k + Z.of_nat n <= limit ->
    run fuel limit k c0 = run (fuel - n) limit (k + Z.of_nat n) c.
Proof.
  induction 1 as [c0 | n c0 c1 c2 Hstep Hrest IH]; intros fuel limit k Hfuel Hlimit.
  - rewrite Nat.sub_0_r, Z.add_0_r. reflexivity.
  - destruct fuel as [| fuel]; [lia |].
    cbn [run]. destruct (Z.gtb_spec limit k); [| lia].
    unfold step in Hstep. rewrite Hstep.
    rewrite IH by lia.
    replace (S fuel - S n)%nat with (fuel - n)%nat by lia.
    replace (k + Z.of_nat (S n)) with (k + 1 + Z.of_nat n) by lia. reflexivity.
Qed.

Lemma run_raise (fuel : nat) (limit k : Z) (c c' : ControlUnit) (e : exn) :
  k < limit ->
  ControlUnitM.decode_and_execute_instruction c = (Raise e, c') ->
  run (S fuel) limit k c = (Raise e, k, c').
Proof.
  intros Hk Hrun. cbn [run]. destruct (Z.gtb_spec limit k); [| lia].
  rewrite Hrun. reflexivity.
Qed.

Lemma run_until_raise (n : nat) (limit : Z) (c0 c c' : ControlUnit) (e : exn) :
  nsteps step n c0 c ->
  Z.of_nat n < limit ->
  ControlUnitM.decode_and_execute_instruction c = (Raise e, c') ->
  run (Z.to_nat limit) limit 0 c0 = (Raise e, Z.of_nat n, c').
Proof.
  intros Hsteps Hn Hrun.
  rewrite (run_nsteps n c0 c Hsteps) by lia.
  replace (Z.to_nat limit - n)%nat with (S (Z.to_nat limit - n - 1)) by lia.
  apply run_raise; [lia | exact Hrun].
Qed.

Lemma join_chars (float_repr : spec_float -> pystr) (b : list out_item) :
  Forall is_chr b -> join b = Ok (concat_str float_repr b).
Proof.
  induction 1 as [| x b Hx Hb IH]; [reflexivity |].
  destruct x as [v | ch]; [destruct Hx |]. cbn. rewrite IH. reflexivity.
Qed.

Lemma finish_returns (float_repr : spec_float -> pystr) (warnings : list string)
    (n : Z) (c : ControlUnit) :
  chars_in_str_mode (output_state (data_path c)) ->
  finish float_repr warnings n c
  = Returned (rendered float_repr (data_path c)) n (_tick c) warnings.
Proof.
  intros Hchars. unfold finish, rendered.
  destruct (output_int (data_path c)) eqn:Hmode; cbn; [reflexivity |].
  rewrite (join_chars float_repr) by (apply Hchars; exact Hmode). reflexivity.
Qed.

Lemma boot_chars (program : Program) (queue : gmap Z pystr) (output_int : bool)
    (c0 : ControlUnit) :
  boot program queue output_int = Ok c0 ->
  chars_in_str_mode (output_state (data_path c0)).
Proof.
  unfold boot. destruct (load_data _ _ _) as [m | e |]; cbn; try discriminate.
  intros [= <-]. intros _. constructor.
Qed.

(** C6: [latch_registers] with [R0] as output selector raises
    [MemoryError]; and when a call of [decode_and_execute_instruction] raises
    it during [simulation], after [n] instructions that returned,
    [simulation] returns: it has logged the warning, the text is the
    rendering of the output buffer as it stands at the fault, the instruction
    counter is [n] and the tick is the one reached at the fault. *)
Theorem read_only_fault_ends_run (float_repr : spec_float -> pystr)
    (program : Program) (queue : gmap Z pystr) (limit : Z) (output_int : bool)
    (c0 c c' : ControlUnit) (n : nat) :
  boot program queue output_int = Ok c0 ->
  nsteps step n c0 c ->
  Z.of_nat n < limit ->
  ControlUnitM.decode_and_execute_instruction c = (Raise MemoryError, c') ->
  (forall op1 op2 d, (DataPathM.latch_registers op1 op2 (Reg R0) d).1 = Raise MemoryError) /\
  simulation float_repr program queue limit output_int
  = Returned (rendered float_repr (data_path c')) (Z.of_nat n) (_tick c')
      ["Can not write to read-only register!"%string].
Proof.
  intros Hboot Hsteps Hn Hfault. split; [intros op1 op2 d; reflexivity |].
  unfold simulation. rewrite Hboot.
  rewrite (run_until_raise n limit c0 c c' MemoryError Hsteps Hn Hfault).
  apply finish_returns.
  assert (Hc : chars_in_str_mode (output_state (data_path c))).
  { apply (nsteps_maintains (fun c => chars_in_str_mode (output_state (data_path c)))
             n c0 c decode_maintains_chars); [| exact Hsteps].
    exact (boot_chars program queue output_int c0 Hboot). }
  pose proof (decode_maintains_chars c Hc) as Hc'. rewrite Hfault in Hc'. exact Hc'.
Qed.

Lemma read_only_fault_ends_run_witness :
  simulation no_float_repr writes_r0 ∅ 100000 false
  = Returned [104] 1 1 ["Can not write to read-only register!"%string].
Proof.
  pose (c0 := booted writes_r0 ∅ false).
  pose (c := after 1 c0).
  pose (c' := (ControlUnitM.decode_and_execute_instruction c).2).
  assert (Hboot : boot writes_r0 ∅ false = Ok c0) by (vm_compute; reflexivity).
  assert (Hsteps : nsteps step 1 c0 c).
  { apply (nsteps_l _ _ _ c); [vm_compute; reflexivity | apply nsteps_O]. }
  assert (Hfault : ControlUnitM.decode_and_execute_instruction c = (Raise MemoryError, c'))
    by (vm_compute; reflexivity).
  exact (proj2 (read_only_fault_ends_run no_float_repr writes_r0 ∅ 100000 false
                  c0 c c' 1 Hboot Hsteps ltac:(lia) Hfault)).
Defined.

(** *** Reading past the end of the input buffer *)

Lemma input_past_the_end (d : DataPath) :
  0 <= input_pointer d ->
  Z.of_nat (length (input_buffer d)) <= input_pointer d ->
  DataPathM.input d = (Raise IndexError, d).
Proof.
  intros Hlo Hhi. unfold DataPathM.input, bind, get. cbn.
  unfold py_getitem, py_index.
  destruct (Z.ltb_spec (input_pointer d) 0); [lia |].
  destruct (Z.leb_spec 0 (input_pointer d)); [| lia].
  destruct (Z.ltb_spec (input_pointer d) (Z.of_nat (length (input_buffer d)))); [lia |].
  reflexivity.
Qed.

(** C1, on the code: for the program [IN r1; HLT] with an empty interrupt
    schedule, the subscript of the empty [input_buffer] raises [IndexError];
    [input] only converts a [KeyError], so no [EOFError] is raised, and
    [simulation], which catches [EOFError], lets the [IndexError] propagate
    instead of logging a warning and returning. *)
Theorem input_exhausted_propagates (float_repr : spec_float -> pystr) :
  simulation float_repr reads_nothing ∅ 100000 false = Uncaught IndexError.
Proof. vm_compute. reflexivity. Qed.

(** ** The dispatch of single instructions *)

Lemma execute_alu_wrapped (op : AluOperations) (d : DataPath) (r : Z) :
  operations op (alu_left (alu d)) (alu_right (alu d)) = Ok (PyInt r) ->
  DataPathM.execute_alu op d = (Ok tt, alu_stored (PyInt (alu_wrap r)) d).
Proof. apply execute_alu_int. Qed.

Arguments DataPathM.execute_alu : simpl never.

Ltac run_methods :=
  unfold bind, field, ret, raise, get, modify, lift_res, ControlUnitM.dp,
    ControlUnitM.tick, ControlUnitM.latch_program_counter,
    ControlUnitM.branch_target, DataPathM.latch_registers, DataPathM.latch_alu,
    DataPathM.latch_output, DataPathM.get_zero_flag;
  cbn.

(** C9, as amended: a dispatched [CMP] whose operands hold the integers [x]
    and [y] and whose [out] register is not [R0] returns after one tick; the
    zero flag tells whether the wrapped difference is zero, and the
    difference is not discarded: it is written to the [out] register, as for
    [SUB] (it is [x - y] itself when that lies in the 32-bit range).  [PC]
    is incremented, and no other register is modified. *)
Theorem cmp_writes_difference (c : ControlUnit) (i : instr) (a1 o : Register)
    (a2 : operand) (x y pc : Z) :
  opcode i = CMP -> arg1 i = Some a1 -> arg2 i = Some a2 -> out i = Some o ->
  o <> R0 ->
  reg c a1 = PyInt x -> operand_value c a2 = PyInt y -> reg c PC = PyInt pc ->
  exists c',
    ControlUnitM.execute i c = (Ok tt, c') /\
    zero_flag (alu (data_path c')) = (alu_wrap (x - y) =? 0) /\
    (o <> PC -> reg c' o = PyInt (alu_wrap (x - y)) /\ reg c' PC = PyInt (pc + 1)) /\
    (o = PC -> reg c' PC = PyInt (alu_wrap (x - y) + 1)) /\
    (forall r, r <> o -> r <> PC -> reg c' r = reg c r) /\
    (in_int32 (x - y) -> alu_wrap (x - y) = x - y) /\
    _tick c' = _tick c + 1.
Proof.
  intros Hop H1 H2 Ho HR0 Hx Hy Hpc.
  unfold ControlUnitM.execute. rewrite Hop. unfold arg2_type. rewrite H2, H1, Ho.
  destruct c as [ci prog q d sb iv t ii ie cnt].
  destruct d as [mem rf al ab ob db ib ip obuf oi].
  destruct rf as [regs ik o1 o2 oo].
  unfold reg in *. cbn in Hx, Hy, Hpc.
  destruct a2 as [r2 | n]; cbn in Hy.
  all: run_methods.
  all: destruct (decide (Reg o = Reg R0)) as [Heq | _]; [congruence |].
  all: cbn.
  all: erewrite (execute_alu_int ALU_CMP _ (x - y)) by (cbn; rewrite Hx, ?Hy; reflexivity).
  all: cbn; unfold upd at 1.
  all: destruct (decide (PC = o)) as [<- | Hne]; rewrite ?Hpc; cbn.
  all: eexists; split; [reflexivity |]; cbn.
  all: repeat split; try congruence; try apply py_eq_int; try apply alu_wrap_id.
  all: unfold upd; intros.
  all: repeat match goal with
         | |- context [decide (?a = ?b)] => destruct (decide (a = b))
         | H : _ /\ _ |- _ => destruct H
         end; try congruence; try reflexivity.
Qed.

Lemma cmp_writes_difference_witness :
  exists c',
    ControlUnitM.execute cmp_r1_r2_5 (booted writes_r0 ∅ false) = (Ok tt, c') /\
    reg c' R1 = PyInt (-5).
Proof.
  destruct (cmp_writes_difference (booted writes_r0 ∅ false) cmp_r1_r2_5 R2 R1
              (Const 5) 0 5 0 eq_refl eq_refl eq_refl eq_refl ltac:(discriminate)
              eq_refl eq_refl eq_refl)
    as (c' & Hrun & _ & Hout & _).
  exists c'. split; [exact Hrun |].
  destruct (Hout ltac:(discriminate)) as [Hr1 _]. exact Hr1.
Defined.

(** C9, as stated, fails for [cmp r1, r2, 5] in the initial state: the
    difference 0 - 5 is written to [R1]. *)
Lemma cmp_modifies_out_register :
  ~ cmp_discards_difference cmp_r1_r2_5 (booted writes_r0 ∅ false) /\
  reg (booted writes_r0 ∅ false) R1 = PyInt 0 /\
  reg (ControlUnitM.execute cmp_r1_r2_5 (booted writes_r0 ∅ false)).2 R1 = PyInt (-5).
Proof.
  assert (Hafter : reg (ControlUnitM.execute cmp_r1_r2_5 (booted writes_r0 ∅ false)).2 R1
                   = PyInt (-5)) by (vm_compute; reflexivity).
  split; [| split; [reflexivity | exact Hafter]].
  intros Hclaim. specialize (Hclaim R1 ltac:(discriminate)).
  rewrite Hafter in Hclaim. vm_compute in Hclaim. discriminate.
Qed.

Arguments py_eq : simpl never.
Arguments alu_wrap : simpl never.
Local Opaque alu_wrap DataPathM.execute_alu.

Ltac split_all := repeat match goal with |- _ /\ _ => split end.

(** *** Running a sequence of methods one call at a time *)

Lemma bind_ok {S A B} (m : M S A) (k : A -> M S B) (s s' : S) (a : A) :
  m s = (Ok a, s') -> bind m k s = k a s'.
Proof. intros H. unfold bind. rewrite H. reflexivity. Qed.

Lemma dp_ok {A} (m : M DataPath A) (c : ControlUnit) (a : A) (d' : DataPath) :
  m (data_path c) = (Ok a, d') -> ControlUnitM.dp m c = (Ok a, set_data_path d' c).
Proof. intros H. unfold ControlUnitM.dp. rewrite H. reflexivity. Qed.

Lemma latch_registers_ok (a b : Register) (o : Register) (d : DataPath) :
  o <> R0 ->
  DataPathM.latch_registers a b (Reg o) d
  = (Ok tt, set_reg_file (fun rf => mkRegFile (registers rf) (int_keys rf) a b (Reg o)) d).
Proof.
  intros Ho. unfold DataPathM.latch_registers, bind, modify, raise.
  destruct (decide (Reg o = Reg R0)) as [Heq | _]; [congruence | reflexivity].
Qed.

Lemma latch_alu_ok (k : option Z) (d : DataPath) :
  DataPathM.latch_alu k d
  = (Ok tt,
     set_data_bus (registers (reg_file d) (operand_2 (reg_file d)))
       (set_alu (mkAlu (registers (reg_file d) (operand_1 (reg_file d)))
                   (match k with
                    | Some n => PyInt n
                    | None => registers (reg_file d) (operand_2 (reg_file d))
                    end) (zero_flag (alu d))) d)).
Proof. reflexivity. Qed.

Lemma latch_output_ok (d : DataPath) (k : Register) :
  output (reg_file d) = Reg k ->
  DataPathM.latch_output d
  = (Ok tt, set_reg_file (set_registers (upd k (output_bus d))) d).
Proof. intros H. unfold DataPathM.latch_output, bind, get. rewrite H. reflexivity. Qed.

Lemma tick_ok (c : ControlUnit) :
  ControlUnitM.tick c = (Ok tt, set_tick (_tick c + 1) c).
Proof. reflexivity. Qed.

Lemma latch_program_counter_ok (c : ControlUnit) (pc : Z) :
  reg c PC = PyInt pc ->
  ControlUnitM.latch_program_counter c
  = (Ok tt, set_data_path (set_reg_file (set_registers (upd PC (PyInt (pc + 1))))
                             (data_path c)) c).
Proof.
  intros H. unfold ControlUnitM.latch_program_counter, bind, get, lift_res.
  unfold reg in H. rewrite H. reflexivity.
Qed.

Lemma get_zero_flag_ok (d : DataPath) :
  DataPathM.get_zero_flag d = (Ok (zero_flag (alu d)), d).
Proof. reflexivity. Qed.

Lemma compare_with_r0 (c : ControlUnit) (a1 : Register) (x : Z) :
  reg c a1 = PyInt x -> reg c R0 = PyInt 0 ->
  exists c1,
    bind (ControlUnitM.dp (DataPathM.latch_registers a1 R0 (Reg R1))) (fun _ =>
    bind (ControlUnitM.dp (DataPathM.latch_alu None)) (fun _ =>
    bind (ControlUnitM.dp (DataPathM.execute_alu ALU_CMP)) (fun _ =>
    ControlUnitM.tick))) c = (Ok tt, c1) /\
    (forall r, reg c1 r = reg c r) /\
    zero_flag (alu (data_path c1)) = (alu_wrap x =? 0) /\
    _tick c1 = _tick c + 1.
Proof.
  intros Hx H0. unfold reg in *. eexists. split.
  - erewrite bind_ok by (apply dp_ok; apply latch_registers_ok; discriminate).
    erewrite bind_ok by (apply dp_ok; apply latch_alu_ok).
    erewrite bind_ok
      by (apply dp_ok; apply (execute_alu_int ALU_CMP _ (x - 0)); cbn;
          rewrite Hx, H0; reflexivity).
    apply tick_ok.
  - split_all.
    + intros r. reflexivity.
    + cbn. rewrite Z.sub_0_r. apply py_eq_int.
    + reflexivity.
Qed.

Lemma write_target (c : ControlUnit) (a2 : operand) (t : Z) :
  operand_value c a2 = PyInt t ->
  exists c2,
    bind (ControlUnitM.branch_target a2) (fun _ =>
    bind (ControlUnitM.dp (DataPathM.execute_alu ALU_RIGHT)) (fun _ =>
    bind (ControlUnitM.dp DataPathM.latch_output) (fun _ =>
    ControlUnitM.tick))) c = (Ok tt, c2) /\
    reg c2 PC = PyInt (alu_wrap t) /\
    (forall r, r <> PC -> reg c2 r = reg c r) /\
    _tick c2 = _tick c + 1.
Proof.
  intros Ht. unfold reg. unfold ControlUnitM.branch_target.
  destruct a2 as [r2 | n]; cbn in Ht; eexists; (split; [| split_all]).
  - erewrite bind_ok
      by (erewrite bind_ok by (apply dp_ok; apply latch_registers_ok; discriminate);
          apply dp_ok; apply latch_alu_ok).
    erewrite bind_ok
      by (apply dp_ok; apply (execute_alu_int ALU_RIGHT _ t); cbn; rewrite Ht; reflexivity).
    erewrite bind_ok by (apply dp_ok; apply (latch_output_ok _ PC); reflexivity).
    apply tick_ok.
  - reflexivity.
  - intros r Hr. cbn. unfold upd. destruct (decide (r = PC)); [contradiction | reflexivity].
  - reflexivity.
  - erewrite bind_ok
      by (erewrite bind_ok by (apply dp_ok; apply latch_registers_ok; discriminate);
          apply dp_ok; apply latch_alu_ok).
    erewrite bind_ok
      by (apply dp_ok; apply (execute_alu_int ALU_RIGHT _ t); cbn; congruence).
    erewrite bind_ok by (apply dp_ok; apply (latch_output_ok _ PC); reflexivity).
    apply tick_ok.
  - reflexivity.
  - intros r Hr. cbn. unfold upd. destruct (decide (r = PC)); [contradiction | reflexivity].
  - reflexivity.
Qed.

Lemma taken_condition (o : Opcode) (z : bool) :
  bool_decide (o = JMP) || bool_decide (o = JE) && z || bool_decide (o = JNE) && negb z
  = match o with JMP => true | JE => z | JNE => negb z | _ => false end.
Proof. destruct o, z; reflexivity. Qed.

Lemma field_arg2_type (i : instr) (a2 : operand) (c : ControlUnit) :
  arg2 i = Some a2 ->
  exists ty, @field ControlUnit _ (arg2_type i) c = (Ok ty, c).
Proof. intros H. unfold arg2_type. rewrite H. destruct a2; eexists; reflexivity. Qed.

(** C4, as amended: for a dispatched [JMP], [JE] or [JNE] whose target
    operand holds the integer [t], in a state where [R0] holds 0 and, for
    [JE] and [JNE], the register [arg1] holds the integer [x]: [JE] and [JNE]
    first spend one tick on [CMP(regs[arg1], regs[R0])], whose zero flag is
    set exactly when the wrapped value of [x - 0] is 0, which for [x] in the
    32-bit range means [x = 0]; [JMP] always, [JE] when the flag is set and
    [JNE] when it is clear write the target to [PC] in one more tick, after
    the ALU's wrap, so that [PC] becomes [t] itself when [t] lies in the
    32-bit range; otherwise [PC] is incremented by one.  No other register
    is modified. *)
Theorem branch_dispatch (c : ControlUnit) (i : instr) (a1 : Register)
    (a2 : operand) (x t pc : Z) :
  opcode i = JMP \/
    (opcode i = JE \/ opcode i = JNE) /\ arg1 i = Some a1 /\ reg c a1 = PyInt x ->
  arg2 i = Some a2 -> operand_value c a2 = PyInt t ->
  reg c PC = PyInt pc -> reg c R0 = PyInt 0 ->
  exists c',
    ControlUnitM.execute i c = (Ok tt, c') /\
    reg c' PC = (if branch_taken (opcode i) x then PyInt (alu_wrap t) else PyInt (pc + 1)) /\
    (in_int32 x -> (alu_wrap x =? 0) = (x =? 0)) /\
    (in_int32 t -> alu_wrap t = t) /\
    (forall r, r <> PC -> reg c' r = reg c r) /\
    _tick c' = _tick c + (if decide (opcode i = JMP) then 0 else 1)
                       + (if branch_taken (opcode i) x then 1 else 0).
Proof.
  intros Hop H2 Ht Hpc H0.
  assert (Hx0 : in_int32 x -> (alu_wrap x =? 0) = (x =? 0)).
  { intros Hx. rewrite alu_wrap_id by exact Hx. reflexivity. }
  assert (Ht0 : in_int32 t -> alu_wrap t = t) by apply alu_wrap_id.
  unfold ControlUnitM.execute.
  destruct Hop as [Hop | [Hop [H1 Hx]]].
  - rewrite Hop. cbn [branch_taken].
    erewrite bind_ok by (destruct (decide (JMP = JMP)); [reflexivity | congruence]).
    erewrite bind_ok by (apply dp_ok; apply get_zero_flag_ok).
    rewrite taken_condition.
    destruct (field_arg2_type i a2 (set_data_path (data_path c) c) H2) as [ty Hty].
    erewrite bind_ok by exact Hty. rewrite H2.
    erewrite bind_ok by reflexivity.
    destruct (write_target (set_data_path (data_path c) c) a2 t
                ltac:(destruct a2; exact Ht)) as (c2 & Hrun & Hpc2 & Hother & Htick).
    exists c2. split; [exact Hrun |]. split_all.
    + exact Hpc2.
    + exact Hx0.
    + exact Ht0.
    + intros r Hr. rewrite (Hother r Hr). reflexivity.
    + rewrite Htick. destruct (decide (JMP = JMP)); [cbn; lia | congruence].
  - destruct (compare_with_r0 c a1 x Hx H0) as (c1 & Hrun1 & Hregs1 & Hz1 & Htick1).
    assert (Hfirst :
      (if decide (opcode i = JMP) then ret tt
       else bind (field (arg1 i)) (fun a1 =>
            bind (ControlUnitM.dp (DataPathM.latch_registers a1 R0 (Reg R1))) (fun _ =>
            bind (ControlUnitM.dp (DataPathM.latch_alu None)) (fun _ =>
            bind (ControlUnitM.dp (DataPathM.execute_alu ALU_CMP)) (fun _ =>
            ControlUnitM.tick))))) c = (Ok tt, c1)).
    { destruct (decide (opcode i = JMP)) as [Heq | _]; [destruct Hop; congruence |].
      rewrite H1. erewrite bind_ok by reflexivity. exact Hrun1. }
    set (c0 := set_data_path (data_path c1) c1).
    assert (Hc0 : forall r, reg c0 r = reg c r) by (intros r; apply Hregs1).
    assert (Hbody :
      exists c',
        bind (ControlUnitM.dp DataPathM.get_zero_flag) (fun z =>
          if bool_decide (opcode i = JMP) || bool_decide (opcode i = JE) && z
             || bool_decide (opcode i = JNE) && negb z
          then
            bind (field (arg2_type i)) (fun _ =>
            bind (field (arg2 i)) (fun a2 =>
            bind (ControlUnitM.branch_target a2) (fun _ =>
            bind (ControlUnitM.dp (DataPathM.execute_alu ALU_RIGHT)) (fun _ =>
            bind (ControlUnitM.dp DataPathM.latch_output) (fun _ =>
            ControlUnitM.tick)))))
          else ControlUnitM.latch_program_counter) c1 = (Ok tt, c') /\
        reg c' PC = (if branch_taken (opcode i) x then PyInt (alu_wrap t)
                     else PyInt (pc + 1)) /\
        (forall r, r <> PC -> reg c' r = reg c r) /\
        _tick c' = _tick c1 + (if branch_taken (opcode i) x then 1 else 0)).
    { erewrite bind_ok by (apply dp_ok; apply get_zero_flag_ok).
      rewrite taken_condition, Hz1. fold c0.
      assert (Hsame : match opcode i with
                      | JMP => true
                      | JE => alu_wrap x =? 0
                      | JNE => negb (alu_wrap x =? 0)
                      | _ => false
                      end = branch_taken (opcode i) x)
        by (destruct Hop as [-> | ->]; reflexivity).
      rewrite Hsame. destruct (branch_taken (opcode i) x).
      - destruct (field_arg2_type i a2 c0 H2) as [ty Hty].
        erewrite bind_ok by exact Hty. rewrite H2.
        erewrite bind_ok by reflexivity.
        destruct (write_target c0 a2 t
                    ltac:(destruct a2; [rewrite <- Ht; apply Hc0 | exact Ht]))
          as (c2 & Hrun & Hpc2 & Hother & Htick).
        exists c2. split; [exact Hrun |]. split_all.
        + exact Hpc2.
        + intros r Hr. rewrite (Hother r Hr). apply Hc0.
        + rewrite Htick. reflexivity.
      - eexists. split; [apply (latch_program_counter_ok c0 pc); rewrite Hc0; exact Hpc |].
        split_all.
        + unfold reg. cbn. unfold upd. destruct (decide (PC = PC)); congruence.
        + intros r Hr. unfold reg. cbn. unfold upd.
          destruct (decide (r = PC)); [contradiction | apply Hregs1].
        + cbn. lia. }
    destruct Hbody as (c' & Hrun & Hpc' & Hother & Htick).
    exists c'.
    split.
    + set (body := bind (if decide (opcode i = JMP) then ret tt else _) _).
      assert (Hgoal : body c = (Ok tt, c'))
        by (subst body; erewrite bind_ok by exact Hfirst; exact Hrun).
      clearbody body. destruct Hop as [Hop | Hop]; rewrite Hop; exact Hgoal.
    + split_all.
      * exact Hpc'.
      * exact Hx0.
      * exact Ht0.
      * exact Hother.
      * rewrite Htick, Htick1.
        destruct (decide (opcode i = JMP)) as [Heq | _]; [destruct Hop; congruence | lia].
Qed.


Local Transparent alu_wrap DataPathM.execute_alu.

Lemma branch_dispatch_witness :
  exists c',
    ControlUnitM.execute je_r1_3 (booted loads_large ∅ false) = (Ok tt, c') /\
    reg c' PC = PyInt 3.
Proof.
  destruct (branch_dispatch (booted loads_large ∅ false) je_r1_3 R1 (Const 3) 0 3 0
              (or_intror (conj (or_introl eq_refl) (conj eq_refl eq_refl)))
              eq_refl eq_refl eq_refl eq_refl)
    as (c' & Hrun & Hpc & _).
  exists c'. split; [exact Hrun | exact Hpc].
Defined.

(** C4, as stated, fails for [je r1, 3] once [ld r1, 1] has loaded the data
    cell 4294967295: the register is not 0, yet the wrapped value the
    comparison tests is 0, the zero flag is set and the branch is taken; the
    run of the whole program skips the [OUT] that follows the branch. *)
Lemma je_taken_on_nonzero_register :
  let c := after 1 (booted loads_large ∅ false) in
  ~ je_taken_iff_zero je_r1_3 c /\
  reg c R1 = PyInt 4294967295 /\
  reg c PC = PyInt 1 /\
  reg (ControlUnitM.execute je_r1_3 c).2 PC = PyInt 3 /\
  simulation no_float_repr loads_large ∅ 100000 false = Returned [] 2 3 [].
Proof.
  intros c.
  assert (Hpc : reg (ControlUnitM.execute je_r1_3 c).2 PC = PyInt 3)
    by (vm_compute; reflexivity).
  split; [| repeat split; try exact Hpc; vm_compute; reflexivity].
  intros Hclaim.
  specialize (Hclaim R1 3 1 eq_refl eq_refl eq_refl ltac:(vm_compute; reflexivity)).
  rewrite Hpc in Hclaim. vm_compute in Hclaim. discriminate.
Qed.

(** *** [R0] stays 0 *)

Section RegFileFrame.
Import DataPathM.

Lemma latch_alu_keeps_reg_file k : preserves reg_file (latch_alu k).
Proof. unfold latch_alu. solve_preserves. Qed.

Lemma execute_alu_keeps_reg_file op : preserves reg_file (execute_alu op).
Proof. unfold execute_alu. solve_preserves. Qed.

Lemma write_keeps_reg_file : preserves reg_file write.
Proof. unfold write. solve_preserves. Qed.

Lemma read_keeps_reg_file : preserves reg_file read.
Proof. unfold read. solve_preserves. Qed.

Lemma print_keeps_reg_file : preserves reg_file print.
Proof. apply print_preserves. reflexivity. Qed.

Lemma input_keeps_reg_file : preserves reg_file input.
Proof.
  unfold input. apply preserves_bind; [apply preserves_get | intros d0].
  apply preserves_bind.
  - intros d. destruct (res_bind _ _) as [c | [] |]; reflexivity.
  - intros _. apply preserves_modify. reflexivity.
Qed.

Lemma latch_registers_r0 op1 op2 o :
  maintains (fun d => r0_is_zero (reg_file d)) (latch_registers op1 op2 o).
Proof.
  intros d [Hout Hr0]. unfold latch_registers, bind, modify, raise. cbn.
  destruct (decide (o = Reg R0)) as [-> | Hne]; cbn; split; assumption.
Qed.

Lemma latch_output_r0 : maintains (fun d => r0_is_zero (reg_file d)) latch_output.
Proof.
  intros d [Hout Hr0]. unfold latch_output, bind, get, modify.
  destruct (output (reg_file d)) as [k | n] eqn:Hk; cbn; unfold r0_is_zero; cbn.
  - split; [congruence |]. unfold upd.
    destruct (decide (R0 = k)) as [<- | _]; [congruence | exact Hr0].
  - split; [congruence | exact Hr0].
Qed.

End RegFileFrame.

Ltac r0_step :=
  lazymatch goal with
  | |- maintains _ (bind _ _) => apply maintains_bind; [| intros ?]
  | |- maintains _ (ret _) => apply maintains_unchanged; intros ?; reflexivity
  | |- maintains _ (raise _) => apply maintains_unchanged; intros ?; reflexivity
  | |- maintains _ get => apply maintains_unchanged; intros ?; reflexivity
  | |- maintains _ (lift_res _) => apply maintains_unchanged; intros ?; reflexivity
  | |- maintains _ (field ?o) =>
      destruct o; apply maintains_unchanged; intros ?; reflexivity
  | |- maintains _ ControlUnitM.tick => intros ? ?; assumption
  | |- maintains _ (ControlUnitM.dp (DataPathM.latch_registers _ _ _)) =>
      apply (maintains_dp (fun d => r0_is_zero (reg_file d))); apply latch_registers_r0
  | |- maintains _ (ControlUnitM.dp DataPathM.latch_output) =>
      apply (maintains_dp (fun d => r0_is_zero (reg_file d))); apply latch_output_r0
  | |- maintains _ (ControlUnitM.dp _) =>
      apply (maintains_dp (fun d => r0_is_zero (reg_file d)));
      apply (preserves_maintains reg_file r0_is_zero);
      first [ apply latch_alu_keeps_reg_file | apply execute_alu_keeps_reg_file
            | apply write_keeps_reg_file | apply read_keeps_reg_file
            | apply print_keeps_reg_file | apply input_keeps_reg_file
            | apply preserves_bind; [apply preserves_get | intros ?; apply preserves_ret]
            | apply preserves_modify; intros ?; reflexivity ]
  | |- maintains _ (modify _) => intros ? ?; assumption
  | |- maintains _ (if ?b then _ else _) => destruct b
  | |- maintains _ (match ?x with _ => _ end) => destruct x
  end.

Lemma latch_program_counter_r0 :
  maintains (fun c => r0_is_zero (reg_file (data_path c)))
    ControlUnitM.latch_program_counter.
Proof.
  intros c [Hout Hr0]. unfold ControlUnitM.latch_program_counter, bind, get, lift_res.
  destruct (py_add _ _) as [v | e |]; cbn; split; assumption.
Qed.

Lemma branch_target_r0 (a : operand) :
  maintains (fun c => r0_is_zero (reg_file (data_path c))) (ControlUnitM.branch_target a).
Proof. unfold ControlUnitM.branch_target. repeat r0_step. Qed.

Lemma execute_r0 (i : instr) :
  maintains (fun c => r0_is_zero (reg_file (data_path c))) (ControlUnitM.execute i).
Proof.
  pose proof latch_program_counter_r0 as Hpc.
  pose proof branch_target_r0 as Hbt.
  unfold ControlUnitM.execute.
  destruct (opcode i); repeat first [ apply Hpc | apply Hbt | r0_step ].
Qed.

(** In every state a run reaches, [R0] holds 0. *)
Lemma r0_stays_zero (program : Program) (queue : gmap Z pystr) (output_int : bool)
    (c0 c : ControlUnit) (n : nat) :
  boot program queue output_int = Ok c0 -> nsteps step n c0 c -> reg c R0 = PyInt 0.
Proof.
  intros Hboot Hsteps.
  assert (Hinv : r0_is_zero (reg_file (data_path c))); [| exact (proj2 Hinv)].
  apply (nsteps_maintains (fun c => r0_is_zero (reg_file (data_path c))) n c0 c);
    [| | exact Hsteps].
  - pose proof execute_r0 as Hex.
    unfold ControlUnitM.decode_and_execute_instruction, ControlUnitM.admit_interrupt.
    repeat first [ apply Hex | r0_step ].
  - unfold boot in Hboot. destruct (load_data _ _ _); try discriminate.
    injection Hboot as <-. split; [discriminate | reflexivity].
Qed.

(** * Further properties of the simulator *)

(** ** Data memory *)

Lemma py_index_valid (len : nat) (a : Z) :
  valid_index len a -> py_index len (PyInt a) = Ok (position len a) /\
                       (position len a < len)%nat.
Proof.
  unfold valid_index, py_index, position. intros [Hlo Hhi].
  destruct (Z.ltb_spec a 0).
  - destruct (Z.leb_spec 0 (a + Z.of_nat len)); [| lia].
    destruct (Z.ltb_spec (a + Z.of_nat len) (Z.of_nat len)); [| lia].
    split; [reflexivity | lia].
  - destruct (Z.leb_spec 0 a); [| lia].
    destruct (Z.ltb_spec a (Z.of_nat len)); [| lia].
    split; [reflexivity | lia].
Qed.

Lemma py_index_invalid (len : nat) (a : Z) :
  ~ valid_index len a -> py_index len (PyInt a) = Raise IndexError.
Proof.
  unfold valid_index, py_index. intros Hbad.
  destruct (Z.ltb_spec a 0).
  - destruct (Z.leb_spec 0 (a + Z.of_nat len)); [| reflexivity].
    destruct (Z.ltb_spec (a + Z.of_nat len) (Z.of_nat len)); [lia | reflexivity].
  - destruct (Z.leb_spec 0 a); [| lia].
    destruct (Z.ltb_spec a (Z.of_nat len)); [lia | reflexivity].
Qed.

(** X1: [write()] at an address the memory accepts (a negative address
    counts from the end) stores [data_bus] in that one cell and keeps the
    size of the memory, and a [read()] at the same address then puts that
    value on [output_bus]. *)
Theorem write_then_read (d : DataPath) (a : Z) :
  alu_bus d = PyInt a ->
  valid_index (length (data_memory d)) a ->
  exists d',
    DataPathM.write d = (Ok tt, d') /\
    length (data_memory d') = length (data_memory d) /\
    data_memory d' !! position (length (data_memory d)) a = Some (data_bus d) /\
    (forall j, j <> position (length (data_memory d)) a ->
               data_memory d' !! j = data_memory d !! j) /\
    DataPathM.read d' = (Ok tt, set_output_bus (data_bus d) d').
Proof.
  intros Hbus Hvalid.
  destruct (py_index_valid _ _ Hvalid) as [Hidx Hlt].
  exists (set_data_memory (<[position (length (data_memory d)) a := data_bus d]>
                             (data_memory d)) d).
  assert (Hlen : length (<[position (length (data_memory d)) a := data_bus d]>
                           (data_memory d)) = length (data_memory d))
    by apply length_insert.
  split_all.
  - unfold DataPathM.write, bind, get, lift_res, py_setitem. rewrite Hbus, Hidx.
    reflexivity.
  - cbn. exact Hlen.
  - cbn. apply list_lookup_insert_eq. exact Hlt.
  - intros j Hj. cbn. apply list_lookup_insert_ne. congruence.
  - unfold DataPathM.read, bind, get, lift_res, py_getitem. cbn. rewrite Hbus.
    rewrite Hlen, Hidx. cbn.
    rewrite list_lookup_insert_eq by exact Hlt. reflexivity.
Qed.

Lemma write_then_read_witness :
  exists d',
    DataPathM.write (set_alu_bus (PyInt (-1)) (set_data_bus (PyInt 7)
                       (DataPath_init [PyInt 1; PyInt 2; PyInt 3] false)))
      = (Ok tt, d') /\
    data_memory d' = [PyInt 1; PyInt 2; PyInt 7].
Proof.
  destruct (write_then_read
              (set_alu_bus (PyInt (-1)) (set_data_bus (PyInt 7)
                 (DataPath_init [PyInt 1; PyInt 2; PyInt 3] false))) (-1)
              eq_refl ltac:(unfold valid_index; cbn; lia))
    as (d' & Hw & _).
  exists d'. split; [exact Hw |].
  vm_compute in Hw. injection Hw as <-. reflexivity.
Defined.

(** X2: at an integer address outside the memory, [write()] and [read()]
    raise [IndexError], and at a float address (the result of a [DIV]) they
    raise [TypeError]; in both cases the datapath is left as it was. *)
Theorem memory_access_faults (d : DataPath) :
  (forall a, alu_bus d = PyInt a -> ~ valid_index (length (data_memory d)) a ->
     DataPathM.write d = (Raise IndexError, d) /\
     DataPathM.read d = (Raise IndexError, d)) /\
  (forall f, alu_bus d = PyFloat f ->
     DataPathM.write d = (Raise TypeError, d) /\
     DataPathM.read d = (Raise TypeError, d)).
Proof.
  split.
  - intros a Hbus Hbad.
    unfold DataPathM.write, DataPathM.read, bind, get, lift_res, py_setitem, py_getitem.
    rewrite Hbus, (py_index_invalid _ _ Hbad). split; reflexivity.
  - intros f Hbus.
    unfold DataPathM.write, DataPathM.read, bind, get, lift_res, py_setitem, py_getitem.
    rewrite Hbus. split; reflexivity.
Qed.

Lemma memory_access_faults_witness :
  DataPathM.read (set_alu_bus (PyInt 3) (DataPath_init [PyInt 1; PyInt 2; PyInt 3] false))
  = (Raise IndexError,
     set_alu_bus (PyInt 3) (DataPath_init [PyInt 1; PyInt 2; PyInt 3] false)).
Proof.
  exact (proj2 (proj1 (memory_access_faults
                         (set_alu_bus (PyInt 3)
                            (DataPath_init [PyInt 1; PyInt 2; PyInt 3] false)))
                  3 eq_refl ltac:(unfold valid_index; cbn; lia))).
Defined.

(** ** The start and the end of a simulation *)

Lemma py_setitem_valid (l : list pyval) (i : nat) (v : pyval) :
  (i < length l)%nat -> py_setitem l (PyInt (Z.of_nat i)) v = Ok (<[i := v]> l).
Proof.
  intros Hi. unfold py_setitem.
  destruct (py_index_valid (length l) (Z.of_nat i)
              ltac:(unfold valid_index; lia)) as [Hidx _].
  rewrite Hidx. unfold position.
  destruct (Z.ltb_spec (Z.of_nat i) 0); [lia |]. rewrite Nat2Z.id. reflexivity.
Qed.

Lemma load_data_fits (data : list Z) :
  forall (i : nat) (mem : list pyval),
    (i + length data <= length mem)%nat ->
    load_data (Z.of_nat i) data mem
    = Ok (take i mem ++ (PyInt <$> data) ++ drop (i + length data) mem).
Proof.
  induction data as [| x data IH]; intros i mem Hfit; cbn [load_data length fmap list_fmap].
  - rewrite Nat.add_0_r. cbn. rewrite take_drop. reflexivity.
  - cbn [length] in Hfit.
    rewrite py_setitem_valid by lia. cbn [res_bind].
    replace (Z.of_nat i + 1) with (Z.of_nat (S i)) by lia.
    rewrite IH by (rewrite length_insert; lia).
    f_equal.
    rewrite drop_insert_lt by lia.
    rewrite (insert_take_drop mem i) by lia.
    assert (Hlen : length (take i mem) = i) by (rewrite length_take; lia).
    replace (S i) with (length (take i mem) + 1)%nat at 1 by lia.
    rewrite take_app_add. cbn [take]. rewrite <- app_assoc. cbn [app].
    replace (S i + length data)%nat with (i + S (length data))%nat by lia.
    reflexivity.
Qed.

Lemma load_data_too_long (data : list Z) :
  forall (i : nat) (mem : list pyval),
    (i <= length mem)%nat ->
    (length mem < i + length data)%nat ->
    load_data (Z.of_nat i) data mem = Raise IndexError.
Proof.
  induction data as [| x data IH]; intros i mem Hi Hlong; cbn [load_data length] in *.
  - lia.
  - destruct (decide (i = length mem)) as [-> | Hne].
    + unfold py_setitem. rewrite py_index_invalid by (unfold valid_index; lia).
      reflexivity.
    + rewrite py_setitem_valid by lia. cbn [res_bind].
      replace (Z.of_nat i + 1) with (Z.of_nat (S i)) by lia.
      apply IH; rewrite length_insert; lia.
Qed.

(** X3: when the data of the program fit the memory (at most
    [DATA_MEM_SZ + 2] cells), [simulation] starts from a memory of exactly
    [DATA_MEM_SZ + 2] cells that holds the data from address 0 on and 0
    everywhere else, with [SP] at [DATA_MEM_SZ] and every other register 0. *)
Theorem boot_memory_image (prog : Program) (queue : gmap Z pystr) (output_int : bool) :
  (length (data prog) <= Z.to_nat (DATA_MEM_SZ + 2))%nat ->
  boot prog queue output_int
  = Ok (ControlUnit_init (code prog)
          (DataPath_init (memory_image (data prog)) output_int) queue) /\
  length (memory_image (data prog)) = Z.to_nat (DATA_MEM_SZ + 2) /\
  (forall j x, data prog !! j = Some x ->
               memory_image (data prog) !! j = Some (PyInt x)) /\
  (forall j, (length (data prog) <= j < Z.to_nat (DATA_MEM_SZ + 2))%nat ->
             memory_image (data prog) !! j = Some (PyInt 0)).
Proof.
  intros Hfit. split_all.
  - unfold boot.
    rewrite (load_data_fits (data prog) 0) by (rewrite length_replicate; lia).
    cbn [res_bind take app Nat.add]. rewrite drop_replicate. reflexivity.
  - unfold memory_image. rewrite length_app, length_fmap, length_replicate. lia.
  - intros j x Hj. unfold memory_image.
    rewrite lookup_app_l by (rewrite length_fmap; eapply lookup_lt_Some; exact Hj).
    rewrite list_lookup_fmap, Hj. reflexivity.
  - intros j Hj. unfold memory_image.
    rewrite lookup_app_r by (rewrite length_fmap; lia).
    apply lookup_replicate_2. rewrite length_fmap. lia.
Qed.

Lemma boot_memory_image_witness :
  boot loads_large ∅ false
  = Ok (ControlUnit_init (code loads_large)
          (DataPath_init (memory_image [0; 4294967295]) false) ∅).
Proof.
  exact (proj1 (boot_memory_image loads_large ∅ false
                  ltac:(unfold DATA_MEM_SZ, loads_large; cbn [length data]; lia))).
Defined.

(** X4: a program with more than [DATA_MEM_SZ + 2] data cells makes the
    loading loop of [simulation] raise [IndexError], which nothing catches:
    no instruction is executed and nothing is returned. *)
Theorem data_too_long_is_fatal (float_repr : spec_float -> pystr)
    (prog : Program) (queue : gmap Z pystr) (limit : Z) (output_int : bool) :
  (Z.to_nat (DATA_MEM_SZ + 2) < length (data prog))%nat ->
  simulation float_repr prog queue limit output_int = Uncaught IndexError.
Proof.
  intros Hlong. unfold simulation, boot.
  rewrite (load_data_too_long (data prog) 0)
    by (rewrite ?length_replicate; lia).
  reflexivity.
Qed.

Lemma data_too_long_is_fatal_witness :
  simulation no_float_repr (mkProgram [mkInstr HLT None None None] (replicate (Z.to_nat 10003) 7))
    ∅ 10 false
  = Uncaught IndexError.
Proof.
  apply data_too_long_is_fatal. cbn [data]. rewrite length_replicate.
  unfold DATA_MEM_SZ. lia.
Defined.

(** X5: when the call after [n] returning instructions fetches [HLT] with
    no interrupt to admit, [simulation] returns without a warning: the text
    is the rendering of the output buffer, the instruction counter is [n]
    (the [HLT] itself is not counted) and the tick is the one before the
    [HLT] (it costs no tick). *)
Theorem halt_ends_run (float_repr : spec_float -> pystr)
    (prog : Program) (queue : gmap Z pystr) (limit : Z) (output_int : bool)
    (c0 c : ControlUnit) (n : nat) (i : instr) :
  boot prog queue output_int = Ok c0 ->
  nsteps step n c0 c ->
  Z.of_nat n < limit ->
  ControlUnitM.interrupt_pending c = false ->
  py_getitem (program c) (reg c PC) = Ok i ->
  opcode i = HLT ->
  simulation float_repr prog queue limit output_int
  = Returned (rendered float_repr (data_path c)) (Z.of_nat n) (_tick c) [].
Proof.
  intros Hboot Hsteps Hn Hpend Hfetch Hop.
  assert (Hhalt : ControlUnitM.decode_and_execute_instruction c
                  = (Raise StopIteration, after_fetch i c)).
  { rewrite decode_and_execute_instruction_eq, Hpend. unfold reg in Hfetch.
    rewrite Hfetch. unfold ControlUnitM.execute. rewrite Hop. reflexivity. }
  unfold simulation. rewrite Hboot.
  rewrite (run_until_raise n limit c0 c _ StopIteration Hsteps Hn Hhalt).
  rewrite finish_returns; [reflexivity |]. cbn.
  apply (nsteps_maintains (fun c => chars_in_str_mode (output_state (data_path c)))
           n c0 c decode_maintains_chars); [| exact Hsteps].
  exact (boot_chars prog queue output_int c0 Hboot).
Qed.

Lemma halt_ends_run_witness :
  simulation no_float_repr prints_hi ∅ 1000 false = Returned [104; 105] 2 2 [].
Proof.
  pose (c0 := booted prints_hi ∅ false).
  pose (c := after 2 c0).
  assert (Hboot : boot prints_hi ∅ false = Ok c0) by (vm_compute; reflexivity).
  assert (Hsteps : nsteps step 2 c0 c).
  { apply (nsteps_l _ _ _ (after 1 c0)); [vm_compute; reflexivity |].
    apply (nsteps_l _ _ _ c); [vm_compute; reflexivity | apply nsteps_O]. }
  exact (halt_ends_run no_float_repr prints_hi ∅ 1000 false c0 c 2
           (mkInstr HLT None None None) Hboot Hsteps ltac:(lia) eq_refl eq_refl eq_refl).
Defined.

(** X6: the instruction limit is fatal: when [limit] calls of
    [decode_and_execute_instruction] have returned, the assertion at the head
    of the loop fails and [simulation] raises [AssertionError]; nothing is
    returned, not even the output produced so far. *)
Theorem limit_exceeded_is_fatal (float_repr : spec_float -> pystr)
    (prog : Program) (queue : gmap Z pystr) (limit : Z) (output_int : bool)
    (c0 c : ControlUnit) :
  boot prog queue output_int = Ok c0 ->
  nsteps step (Z.to_nat limit) c0 c ->
  simulation float_repr prog queue limit output_int = Uncaught AssertionError.
Proof.
  intros Hboot Hsteps. unfold simulation. rewrite Hboot.
  destruct (Z.le_gt_cases 0 limit) as [Hpos | Hneg].
  - rewrite (run_nsteps _ c0 c Hsteps) by lia.
    rewrite Nat.sub_diag, Z2Nat.id by lia. cbn [run].
    destruct (limit >? 0 + limit); reflexivity.
  - replace (Z.to_nat limit) with 0%nat by lia. cbn [run].
    destruct (Z.gtb_spec limit 0); [lia | reflexivity].
Qed.

Lemma limit_exceeded_is_fatal_witness :
  simulation no_float_repr spins ∅ 3 false = Uncaught AssertionError.
Proof.
  pose (c0 := booted spins ∅ false).
  assert (Hboot : boot spins ∅ false = Ok c0) by (vm_compute; reflexivity).
  assert (Hsteps : nsteps step (Z.to_nat 3) c0 (after 3 c0)).
  { apply (nsteps_l _ _ _ (after 1 c0)); [vm_compute; reflexivity |].
    apply (nsteps_l _ _ _ (after 2 c0)); [vm_compute; reflexivity |].
    apply (nsteps_l _ _ _ (after 3 c0)); [vm_compute; reflexivity | apply nsteps_O]. }
  exact (limit_exceeded_is_fatal no_float_repr spins ∅ 3 false c0 (after 3 c0)
           Hboot Hsteps).
Defined.

(** ** The cost of an instruction in ticks *)

Lemma ticks_bind {B C} (lo1 hi1 lo2 hi2 : Z) (m : M ControlUnit B)
    (k : B -> M ControlUnit C) :
  ticks lo1 hi1 m -> (forall b, ticks lo2 hi2 (k b)) ->
  ticks (lo1 + lo2) (hi1 + hi2) (bind m k).
Proof.
  intros Hm Hk s c s' Hrun. apply bind_Ok in Hrun as (b & s1 & H1 & H2).
  specialize (Hm _ _ _ H1). specialize (Hk _ _ _ _ H2). lia.
Qed.

Lemma ticks_preserves {B} (m : M ControlUnit B) : preserves _tick m -> ticks 0 0 m.
Proof. intros Hm s b s' Hrun. specialize (Hm s). rewrite Hrun in Hm. cbn in Hm. lia. Qed.

Lemma ticks_tick : ticks 1 1 ControlUnitM.tick.
Proof.
  intros s b s' Hrun. unfold ControlUnitM.tick, modify in Hrun.
  inversion Hrun; subst. cbn. lia.
Qed.

Lemma ticks_raise {B} (lo hi : Z) (e : exn) : ticks lo hi (@raise ControlUnit B e).
Proof. intros s b s' Hrun. discriminate. Qed.

Lemma ticks_weaken {B} (lo hi lo' hi' : Z) (m : M ControlUnit B) :
  ticks lo hi m -> lo' <= lo -> hi <= hi' -> ticks lo' hi' m.
Proof. intros Hm Hlo Hhi s b s' Hrun. specialize (Hm _ _ _ Hrun). lia. Qed.

Lemma ticks_field {B} (lo hi : Z) (o : option B) :
  lo <= 0 <= hi -> ticks lo hi (@field ControlUnit B o).
Proof.
  intros Hb. destruct o; [| apply ticks_raise].
  intros s b' s' Hrun. cbn in Hrun. inversion Hrun; subst. lia.
Qed.

Ltac ticks_step :=
  lazymatch goal with
  | |- ticks _ _ (bind _ _) => eapply ticks_bind; [| intros ?]
  | |- ticks _ _ (raise _) => apply ticks_raise
  | |- ticks _ _ ControlUnitM.tick => apply ticks_tick
  | |- ticks _ _ (if ?b then _ else _) => destruct b
  | |- ticks _ _ (match ?x with _ => _ end) => destruct x
  | |- ticks _ _ _ =>
      apply ticks_preserves;
      first [ apply latch_program_counter_preserves; intros ? ?; reflexivity
            | apply branch_target_preserves; intros ? ?; reflexivity
            | solve_preserves ]
  end.

Lemma admit_interrupt_ticks : ticks 3 3 ControlUnitM.admit_interrupt.
Proof.
  unfold ControlUnitM.admit_interrupt.
  eapply ticks_weaken; [solve [repeat ticks_step] | lia | lia].
Qed.

Lemma execute_ticks (i : instr) :
  ticks (min_ticks (opcode i)) (max_ticks (opcode i)) (ControlUnitM.execute i).
Proof.
  unfold ControlUnitM.execute.
  destruct (opcode i) eqn:Hop; cbn [min_ticks max_ticks].
  all: try (eapply ticks_weaken; [solve [repeat ticks_step] | lia | lia]).
  - (* JMP *)
    eapply (ticks_weaken (0 + (0 + 1)) (0 + (0 + 1))); [| lia | lia].
    apply ticks_bind; [destruct (decide (JMP = JMP)); [| congruence];
                       apply ticks_preserves; solve_preserves |].
    intros _. apply ticks_bind; [apply ticks_preserves; solve_preserves |].
    intros z. rewrite bool_decide_eq_true_2 by reflexivity. cbn [orb].
    eapply ticks_weaken; [solve [repeat ticks_step] | lia | lia].
  - (* JE *)
    eapply (ticks_weaken (1 + (0 + 0)) (1 + (0 + 1))); [| lia | lia].
    apply ticks_bind.
    { destruct (decide (JE = JMP)); [congruence |].
      eapply ticks_weaken; [solve [repeat ticks_step] | lia | lia]. }
    intros _. apply ticks_bind; [apply ticks_preserves; solve_preserves |].
    intros z. destruct (_ || _).
    + eapply ticks_weaken; [solve [repeat ticks_step] | lia | lia].
    + eapply ticks_weaken; [solve [repeat ticks_step] | lia | lia].
  - (* JNE *)
    eapply (ticks_weaken (1 + (0 + 0)) (1 + (0 + 1))); [| lia | lia].
    apply ticks_bind.
    { destruct (decide (JNE = JMP)); [congruence |].
      eapply ticks_weaken; [solve [repeat ticks_step] | lia | lia]. }
    intros _. apply ticks_bind; [apply ticks_preserves; solve_preserves |].
    intros z. destruct (_ || _).
    + eapply ticks_weaken; [solve [repeat ticks_step] | lia | lia].
    + eapply ticks_weaken; [solve [repeat ticks_step] | lia | lia].
  - (* HLT *)
    eapply ticks_weaken; [apply (ticks_raise 1 1) | lia | lia].
Qed.

Lemma admit_interrupt_keeps_count : preserves instr_cnt ControlUnitM.admit_interrupt.
Proof.
  pose proof (tick_preserves instr_cnt ltac:(reflexivity)) as Htick.
  unfold ControlUnitM.admit_interrupt. repeat first [ apply Htick | preserves_step ].
Qed.

(** X7: every call of [decode_and_execute_instruction] that returns counts
    one instruction and advances the tick by 3 if it admitted an interrupt,
    plus the cost of the instruction it fetched: 2 for [IRET], 1 or 2 for
    [JE] and [JNE], 0 for [DECLARE], 1 for every other instruction. *)
Theorem tick_accounting (c c' : ControlUnit) :
  step c c' ->
  exists i,
    instr_ c' = Some i /\
    instr_cnt c' = instr_cnt c + 1 /\
    _tick c + (if ControlUnitM.interrupt_pending c then 3 else 0) + min_ticks (opcode i)
    <= _tick c'
    <= _tick c + (if ControlUnitM.interrupt_pending c then 3 else 0) + max_ticks (opcode i).
Proof.
  unfold step. rewrite decode_and_execute_instruction_eq. intros Hrun.
  assert (Hadm : exists c1,
             (if ControlUnitM.interrupt_pending c
              then ControlUnitM.admit_interrupt c else (Ok tt, c)) = (Ok tt, c1) /\
             instr_cnt c1 = instr_cnt c /\
             _tick c1 = _tick c + (if ControlUnitM.interrupt_pending c then 3 else 0)).
  { destruct (ControlUnitM.interrupt_pending c).
    - pose proof (admit_interrupt_keeps_count c) as Hcnt.
      destruct (ControlUnitM.admit_interrupt c) as [[[] | e |] c1] eqn:Hadm;
        try discriminate.
      exists c1. split_all; [reflexivity | exact Hcnt |].
      pose proof (admit_interrupt_ticks _ _ _ Hadm). lia.
    - exists c. split_all; [reflexivity | reflexivity | lia]. }
  destruct Hadm as (c1 & Hadm & Hcnt & Htick). rewrite Hadm in Hrun.
  destruct (py_getitem _ _) as [i | e |]; try discriminate.
  exists i.
  assert (Hctl : forall {A} (f : ControlUnit -> A),
             control_only f -> (forall b s, f (set_is_interrupted b s) = f s) ->
             f c' = f (after_fetch i c1)).
  { intros A f Hf Hint.
    pose proof (execute_preserves f i Hf (fun _ => Hint) (after_fetch i c1)) as H.
    rewrite Hrun in H. exact H. }
  split_all.
  - rewrite (Hctl _ instr_); [reflexivity | repeat split | reflexivity].
  - rewrite (Hctl _ instr_cnt); [cbn; lia | repeat split | reflexivity].
  - pose proof (execute_ticks i _ _ _ Hrun) as H. cbn in H. lia.
  - pose proof (execute_ticks i _ _ _ Hrun) as H. cbn in H. lia.
Qed.

Lemma tick_accounting_witness :
  exists i,
    instr_ (after 6 (booted echo_handler echo_schedule false)) = Some i /\
    instr_cnt (after 6 (booted echo_handler echo_schedule false))
    = instr_cnt (after 5 (booted echo_handler echo_schedule false)) + 1.
Proof.
  destruct (tick_accounting (after 5 (booted echo_handler echo_schedule false))
              (after 6 (booted echo_handler echo_schedule false))
              ltac:(vm_compute; reflexivity)) as (i & Hi & Hcnt & _).
  exists i. split; assumption.
Defined.

(** ** What a call never changes *)

Lemma decode_preserves {A} (f : ControlUnit -> A) :
  control_only f ->
  (forall b c, f (set_is_interrupted b c) = f c) ->
  (forall q c, f (set_int_queue q c) = f c) ->
  (forall i c, f (set_instr i c) = f c) ->
  (forall n c, f (set_instr_cnt n c) = f c) ->
  preserves f ControlUnitM.decode_and_execute_instruction.
Proof.
  intros Hf Hint Hq Hi Hn.
  assert (Hadm : preserves f ControlUnitM.admit_interrupt).
  { unfold ControlUnitM.admit_interrupt.
    repeat first
      [ apply preserves_modify; first [apply Hq | apply Hint]
      | control_step Hf ]. }
  pose proof (fun i => execute_preserves f i Hf (fun _ => Hint)) as Hex.
  unfold ControlUnitM.decode_and_execute_instruction.
  repeat first
    [ apply Hadm | apply Hex
    | apply preserves_modify; first [apply Hi | intros ?; apply Hn]
    | control_step Hf ].
Qed.

Lemma decode_keeps_output_mode :
  preserves (fun c => output_int (data_path c))
    ControlUnitM.decode_and_execute_instruction.
Proof.
  assert (Hg : buffers_only output_int) by (repeat split).
  assert (Hout : forall b d, output_int (set_output_buffer b d) = output_int d)
    by reflexivity.
  pose proof (fun i => execute_keeps output_int Hg i Hout) as Hex.
  unfold ControlUnitM.decode_and_execute_instruction, ControlUnitM.admit_interrupt.
  repeat first [ apply Hex | through_datapath Hg Hout ].
Qed.

(** X8: a call of [decode_and_execute_instruction], however it ends, never
    modifies the program (no instruction can rewrite the code), the
    interrupt vector or the output mode, and never adds an entry to the
    interrupt schedule: the schedule is only consumed. *)
Theorem program_is_never_modified (c : ControlUnit) :
  program (ControlUnitM.decode_and_execute_instruction c).2 = program c /\
  interrupt_vector (ControlUnitM.decode_and_execute_instruction c).2
  = interrupt_vector c /\
  output_int (data_path (ControlUnitM.decode_and_execute_instruction c).2)
  = output_int (data_path c) /\
  int_queue (ControlUnitM.decode_and_execute_instruction c).2 ⊆ int_queue c.
Proof.
  split_all.
  - apply (decode_preserves program); try reflexivity. repeat split.
  - apply (decode_preserves interrupt_vector); try reflexivity. repeat split.
  - apply decode_keeps_output_mode.
  - rewrite decode_and_execute_instruction_eq.
    assert (Hadm : int_queue (if ControlUnitM.interrupt_pending c
                              then ControlUnitM.admit_interrupt c else (Ok tt, c)).2
                   ⊆ int_queue c).
    { destruct (ControlUnitM.interrupt_pending c) eqn:Hpend; [| reflexivity].
      unfold ControlUnitM.interrupt_pending in Hpend.
      destruct (min_key (int_queue c)) as [k |] eqn:Hmin;
        [| rewrite andb_false_r in Hpend; discriminate].
      rewrite (admit_interrupt_queue c k Hmin). apply delete_subseteq. }
    destruct (if ControlUnitM.interrupt_pending c then _ else _) as [[[] | e |] c1];
      cbn [snd] in *; try exact Hadm.
    destruct (py_getitem _ _) as [i | e |]; cbn [snd]; try exact Hadm.
    rewrite (execute_preserves int_queue i); [exact Hadm | repeat split | reflexivity].
Qed.

(** ** Exceptions [simulation] does not catch *)

(** X9: [simulation] catches [EOFError], [MemoryError] and
    [StopIteration] only: when a call of [decode_and_execute_instruction]
    raises anything else (an [IndexError] of a memory or program access, a
    [TypeError], a [ValueError] of [chr], a [KeyError] of a missing field, a
    [ZeroDivisionError]), the exception leaves [simulation] and the output
    produced so far is not returned. *)
Theorem uncaught_exception_propagates (float_repr : spec_float -> pystr)
    (prog : Program) (queue : gmap Z pystr) (limit : Z) (output_int : bool)
    (c0 c c' : ControlUnit) (n : nat) (e : exn) :
  boot prog queue output_int = Ok c0 ->
  nsteps step n c0 c ->
  Z.of_nat n < limit ->
  ControlUnitM.decode_and_execute_instruction c = (Raise e, c') ->
  e <> EOFError -> e <> MemoryError -> e <> StopIteration ->
  simulation float_repr prog queue limit output_int = Uncaught e.
Proof.
  intros Hboot Hsteps Hn Hfault He1 He2 He3.
  unfold simulation. rewrite Hboot.
  rewrite (run_until_raise n limit c0 c c' e Hsteps Hn Hfault).
  destruct e; try reflexivity; congruence.
Qed.

Lemma uncaught_exception_propagates_witness :
  simulation no_float_repr divides_by_zero ∅ 1000 false = Uncaught ZeroDivisionError.
Proof.
  pose (c0 := booted divides_by_zero ∅ false).
  pose (c := after 1 c0).
  pose (c' := (ControlUnitM.decode_and_execute_instruction c).2).
  assert (Hboot : boot divides_by_zero ∅ false = Ok c0) by (vm_compute; reflexivity).
  assert (Hsteps : nsteps step 1 c0 c).
  { apply (nsteps_l _ _ _ c); [vm_compute; reflexivity | apply nsteps_O]. }
  assert (Hfault : ControlUnitM.decode_and_execute_instruction c
                   = (Raise ZeroDivisionError, c')) by (vm_compute; reflexivity).
  exact (uncaught_exception_propagates no_float_repr divides_by_zero ∅ 1000 false
           c0 c c' 1 ZeroDivisionError Hboot Hsteps ltac:(lia) Hfault
           ltac:(discriminate) ltac:(discriminate) ltac:(discriminate)).
Defined.

(** ** Arithmetic instructions *)

Lemma alu_wrap_below (r : Z) : r < INT32_MIN -> alu_wrap r = - r - 1.
Proof.
  intros Hr. unfold alu_wrap.
  rewrite wrapped_above_small by (unfold INT32_MIN, INT32_MAX in *; lia).
  destruct (Z.ltb_spec r INT32_MIN); [lia | lia].
Qed.

Lemma execute_alu_raises (op : AluOperations) (d : DataPath) (e : exn) :
  operations op (alu_left (alu d)) (alu_right (alu d)) = Raise e ->
  DataPathM.execute_alu op d = (Raise e, d).
Proof.
  intros Hop. unfold DataPathM.execute_alu, bind, get, lift_res. rewrite Hop. reflexivity.
Qed.

(** X10: a dispatched [ADD], [SUB], [MUL], [MOD] or [CMP] whose operands
    hold the integers [x] and [y] (for [MOD], [y] not 0) and whose [out]
    register is not [R0] returns after one tick with the raw result [r] of
    the operation, passed through the two loops of [execute_alu], in the
    [out] register: [r] itself when it lies in the 32-bit range, a value of
    that range whenever [r] is not below [INT32_MIN], and [- r - 1], which
    lies above [INT32_MAX], when [r] is below [INT32_MIN].  The zero flag
    tells whether the stored value is 0, [PC] is incremented, and no other
    register, no memory cell, neither buffer and not the input pointer is
    modified. *)
Theorem arithmetic_dispatch (c : ControlUnit) (i : instr) (op : AluOperations)
    (a1 o : Register) (a2 : operand) (x y r pc : Z) :
  opcode2alu (opcode i) = Some op ->
  arg1 i = Some a1 -> arg2 i = Some a2 -> out i = Some o ->
  o <> R0 ->
  reg c a1 = PyInt x -> operand_value c a2 = PyInt y -> reg c PC = PyInt pc ->
  operations op (PyInt x) (PyInt y) = Ok (PyInt r) ->
  exists c',
    ControlUnitM.execute i c = (Ok tt, c') /\
    zero_flag (alu (data_path c')) = (alu_wrap r =? 0) /\
    (o <> PC -> reg c' o = PyInt (alu_wrap r) /\ reg c' PC = PyInt (pc + 1)) /\
    (o = PC -> reg c' PC = PyInt (alu_wrap r + 1)) /\
    (forall r', r' <> o -> r' <> PC -> reg c' r' = reg c r') /\
    (in_int32 r -> alu_wrap r = r) /\
    (INT32_MIN <= r -> in_int32 (alu_wrap r)) /\
    (r < INT32_MIN -> alu_wrap r = - r - 1 /\ INT32_MAX < alu_wrap r) /\
    data_memory (data_path c') = data_memory (data_path c) /\
    output_buffer (data_path c') = output_buffer (data_path c) /\
    input_buffer (data_path c') = input_buffer (data_path c) /\
    input_pointer (data_path c') = input_pointer (data_path c) /\
    _tick c' = _tick c + 1.
Proof.
  intros Halu H1 H2 Ho HR0 Hx Hy Hpc Hr.
  assert (Hbelow : r < INT32_MIN -> alu_wrap r = - r - 1 /\ INT32_MAX < alu_wrap r).
  { intros Hlow. rewrite (alu_wrap_below r Hlow).
    split; [reflexivity | unfold INT32_MIN, INT32_MAX in *; lia]. }
  unfold ControlUnitM.execute.
  destruct (opcode i) eqn:Hop; try discriminate Halu.
  all: injection Halu as <-.
  all: unfold arg2_type; rewrite H2, H1, Ho.
  all: destruct c as [ci prog q d sb iv t ii ie cnt].
  all: destruct d as [mem rf al ab ob db ib ip obuf oi].
  all: destruct rf as [regs ik o1 o2 oo].
  all: unfold reg in *; cbn in Hx, Hy, Hpc.
  all: destruct a2 as [r2 | n]; cbn in Hy.
  all: run_methods.
  all: destruct (decide (Reg o = Reg R0)) as [Heq | _]; [congruence |].
  all: cbn.
  all: erewrite (execute_alu_int _ _ r) by (cbn [alu alu_left alu_right]; rewrite Hx, ?Hy; exact Hr).
  all: cbn; unfold upd at 1.
  all: destruct (decide (PC = o)) as [<- | Hne]; rewrite ?Hpc; cbn.
  all: eexists; split; [reflexivity |]; cbn.
  all: split_all; try congruence; try reflexivity; try apply py_eq_int;
       try apply alu_wrap_id; try apply alu_wrap_in_range; try exact Hbelow.
  all: unfold upd; intros.
  all: repeat match goal with
         | |- context [decide (?a = ?b)] => destruct (decide (a = b))
         | H : _ /\ _ |- _ => destruct H
         | |- _ /\ _ => split
         end; try congruence; try reflexivity.
Qed.

Lemma arithmetic_dispatch_witness :
  exists c',
    ControlUnitM.execute add_r1_r2_5 (booted writes_r0 ∅ false) = (Ok tt, c') /\
    reg c' R1 = PyInt 5.
Proof.
  destruct (arithmetic_dispatch (booted writes_r0 ∅ false) add_r1_r2_5 ALU_ADD R2 R1
              (Const 5) 0 5 5 0 eq_refl eq_refl eq_refl eq_refl ltac:(discriminate)
              eq_refl eq_refl eq_refl eq_refl)
    as (c' & Hrun & _ & Hout & _).
  exists c'. split; [exact Hrun |].
  destruct (Hout ltac:(discriminate)) as [Hr1 _]. exact Hr1.
Defined.

(** X11: a dispatched [DIV] or [MOD] whose [out] register is not [R0] and
    whose second operand holds the integer 0 raises [ZeroDivisionError] (for
    any first operand that is an integer): no register is written, the tick
    is not advanced, and memory and the output buffer are untouched. *)
Theorem division_by_zero_raises (c : ControlUnit) (i : instr)
    (a1 o : Register) (a2 : operand) (x : Z) :
  opcode i = DIV \/ opcode i = MOD ->
  arg1 i = Some a1 -> arg2 i = Some a2 -> out i = Some o ->
  o <> R0 ->
  reg c a1 = PyInt x -> operand_value c a2 = PyInt 0 ->
  exists c',
    ControlUnitM.execute i c = (Raise ZeroDivisionError, c') /\
    (forall r, reg c' r = reg c r) /\
    data_memory (data_path c') = data_memory (data_path c) /\
    output_buffer (data_path c') = output_buffer (data_path c) /\
    _tick c' = _tick c.
Proof.
  intros Hop H1 H2 Ho HR0 Hx Hy.
  unfold ControlUnitM.execute.
  destruct Hop as [Hop | Hop]; rewrite Hop.
  all: unfold arg2_type; rewrite H2, H1, Ho.
  all: destruct c as [ci prog q d sb iv t ii ie cnt].
  all: destruct d as [mem rf al ab ob db ib ip obuf oi].
  all: destruct rf as [regs ik o1 o2 oo].
  all: unfold reg in *; cbn in Hx, Hy.
  all: destruct a2 as [r2 | n]; cbn in Hy.
  all: run_methods.
  all: destruct (decide (Reg o = Reg R0)) as [Heq | _]; [congruence |].
  all: cbn.
  all: erewrite (execute_alu_raises _ _ ZeroDivisionError)
         by (cbn [alu alu_left alu_right]; rewrite Hx, ?Hy; try injection Hy as ->; reflexivity).
  all: eexists; split; [reflexivity |]; cbn.
  all: repeat split.
Qed.

Lemma division_by_zero_raises_witness :
  exists c',
    ControlUnitM.execute (mkInstr DIV (Some R2) (Some (Const 0)) (Some R1))
      (booted divides_by_zero ∅ false) = (Raise ZeroDivisionError, c') /\
    _tick c' = 0.
Proof.
  destruct (division_by_zero_raises (booted divides_by_zero ∅ false)
              (mkInstr DIV (Some R2) (Some (Const 0)) (Some R1)) R2 R1 (Const 0) 0
              (or_introl eq_refl) eq_refl eq_refl eq_refl ltac:(discriminate)
              eq_refl eq_refl)
    as (c' & Hrun & _ & _ & _ & Htick).
  exists c'. split; [exact Hrun | exact Htick].
Defined.

(** ** Memory instructions *)

Lemma read_ok (d : DataPath) (a : Z) (v : pyval) :
  alu_bus d = PyInt a ->
  valid_index (length (data_memory d)) a ->
  data_memory d !! position (length (data_memory d)) a = Some v ->
  DataPathM.read d = (Ok tt, set_output_bus v d).
Proof.
  intros Hbus Hvalid Hv. destruct (py_index_valid _ _ Hvalid) as [Hidx _].
  unfold DataPathM.read, bind, get, lift_res, py_getitem.
  rewrite Hbus, Hidx. cbn. rewrite Hv. reflexivity.
Qed.

Lemma write_ok (d : DataPath) (a : Z) :
  alu_bus d = PyInt a ->
  valid_index (length (data_memory d)) a ->
  DataPathM.write d
  = (Ok tt, set_data_memory (<[position (length (data_memory d)) a := data_bus d]>
                               (data_memory d)) d).
Proof.
  intros Hbus Hvalid. destruct (py_index_valid _ _ Hvalid) as [Hidx _].
  unfold DataPathM.write, bind, get, lift_res, py_setitem.
  rewrite Hbus, Hidx. reflexivity.
Qed.

Arguments DataPathM.read : simpl never.
Arguments DataPathM.write : simpl never.
Arguments DataPathM.print : simpl never.
Arguments DataPathM.input : simpl never.

(** X12: a dispatched [LD] whose [out] register is neither [R0] nor [PC]
    loads the cell at the wrapped address into [out], unwrapped, in one
    tick, increments [PC] and changes nothing else.  The address is the
    immediate; for a register operand it is not the value of that register
    but the value of [R0] (the ALU's right input), so that [ld r1, r2] reads
    cell 0 whenever [R0] holds 0. *)
Theorem load_dispatch (c : ControlUnit) (i : instr) (o : Register) (a2 : operand)
    (a pc : Z) :
  opcode i = LD -> arg2 i = Some a2 -> out i = Some o ->
  o <> R0 -> o <> PC ->
  ld_address c a2 = PyInt a ->
  valid_index (length (data_memory (data_path c))) (alu_wrap a) ->
  reg c PC = PyInt pc ->
  exists c' v,
    ControlUnitM.execute i c = (Ok tt, c') /\
    data_memory (data_path c)
      !! position (length (data_memory (data_path c))) (alu_wrap a) = Some v /\
    reg c' o = v /\
    reg c' PC = PyInt (pc + 1) /\
    (forall r, r <> o -> r <> PC -> reg c' r = reg c r) /\
    (in_int32 a -> alu_wrap a = a) /\
    data_memory (data_path c') = data_memory (data_path c) /\
    _tick c' = _tick c + 1.
Proof.
  intros Hop H2 Ho HR0 HPC Ha Hvalid Hpc.
  destruct (lookup_lt_is_Some_2 (data_memory (data_path c))
              (position (length (data_memory (data_path c))) (alu_wrap a))
              (proj2 (py_index_valid _ _ Hvalid))) as [v Hv].
  unfold ControlUnitM.execute. rewrite Hop. unfold arg2_type. rewrite H2, Ho.
  destruct c as [ci prog q d sb iv t ii ie cnt].
  destruct d as [mem rf al ab ob db ib ip obuf oi].
  destruct rf as [regs ik o1 o2 oo].
  unfold reg, ld_address in *. cbn in Ha, Hpc, Hvalid, Hv.
  destruct a2 as [r2 | n].
  all: run_methods.
  all: destruct (decide (Reg o = Reg R0)) as [Heq | _]; [congruence |].
  all: cbn.
  all: erewrite (execute_alu_int ALU_RIGHT _ a)
         by (cbn; congruence).
  all: cbn.
  all: erewrite (read_ok _ (alu_wrap a) v) by (try reflexivity; assumption).
  all: cbn; unfold upd at 1.
  all: destruct (decide (PC = o)) as [<- | Hne]; [congruence |]; rewrite ?Hpc; cbn.
  all: eexists; exists v; split; [reflexivity |]; cbn.
  all: unfold upd.
  all: destruct (decide (o = o)); [| congruence].
  all: destruct (decide (PC = PC)); [| congruence].
  all: split_all; try reflexivity; try assumption; try apply alu_wrap_id.
  all: try (destruct (decide (o = PC)); [congruence | reflexivity]).
  all: intros r Hr1 Hr2.
  all: destruct (decide (r = PC)); [congruence |].
  all: destruct (decide (r = o)); [congruence | reflexivity].
Qed.

Lemma load_dispatch_witness :
  exists c' v,
    ControlUnitM.execute ld_r1_r2
      (after 1 (booted (loads_through_r2) ∅ false))
    = (Ok tt, c') /\
    reg c' R2 = PyInt 5 /\ reg c' R1 = v /\ v = PyInt 42.
Proof.
  destruct (load_dispatch
              (after 1 (booted (loads_through_r2)
                          ∅ false))
              ld_r1_r2 R1 (Reg R2) 0 1 eq_refl eq_refl eq_refl
              ltac:(discriminate) ltac:(discriminate) eq_refl
              ltac:(unfold valid_index; vm_compute; split; [discriminate | reflexivity])
              eq_refl)
    as (c' & v & Hrun & Hv & Hreg & _ & Hother & _).
  exists c', v. split; [exact Hrun |]. split; [| split; [exact Hreg |]].
  - rewrite (Hother R2) by discriminate. reflexivity.
  - vm_compute in Hv. congruence.
Defined.

(** X13: a dispatched [SV] whose operand holds the integer address [a]
    stores the value of the register [arg1] in the cell at the wrapped
    address in one tick (a negative address counts from the end of the
    memory), increments [PC], and changes no other cell and no other
    register; the size of the memory stays the same. *)
Theorem store_dispatch (c : ControlUnit) (i : instr) (a1 : Register) (a2 : operand)
    (a pc : Z) :
  opcode i = SV -> arg1 i = Some a1 -> arg2 i = Some a2 ->
  operand_value c a2 = PyInt a ->
  valid_index (length (data_memory (data_path c))) (alu_wrap a) ->
  reg c PC = PyInt pc ->
  exists c',
    ControlUnitM.execute i c = (Ok tt, c') /\
    data_memory (data_path c')
    = <[position (length (data_memory (data_path c))) (alu_wrap a) := reg c a1]>
        (data_memory (data_path c)) /\
    length (data_memory (data_path c')) = length (data_memory (data_path c)) /\
    reg c' PC = PyInt (pc + 1) /\
    (forall r, r <> PC -> reg c' r = reg c r) /\
    (in_int32 a -> alu_wrap a = a) /\
    _tick c' = _tick c + 1.
Proof.
  intros Hop H1 H2 Ha Hvalid Hpc.
  unfold ControlUnitM.execute. rewrite Hop. unfold arg2_type. rewrite H2, H1.
  destruct c as [ci prog q d sb iv t ii ie cnt].
  destruct d as [mem rf al ab ob db ib ip obuf oi].
  destruct rf as [regs ik o1 o2 oo].
  unfold reg in *. cbn in Ha, Hpc, Hvalid.
  destruct a2 as [r2 | n]; cbn in Ha.
  all: run_methods.
  all: destruct (decide (Reg R1 = Reg R0)) as [Heq | _]; [congruence |].
  all: cbn.
  all: erewrite (execute_alu_int _ _ a) by (cbn; congruence).
  all: cbn.
  all: erewrite (write_ok _ (alu_wrap a)) by (try reflexivity; assumption).
  all: cbn; rewrite ?Hpc; cbn.
  all: eexists; split; [reflexivity |]; cbn.
  all: unfold upd.
  all: destruct (decide (PC = PC)); [| congruence].
  all: split_all; try reflexivity; try apply alu_wrap_id; try apply length_insert.
  all: intros r Hr.
  all: destruct (decide (r = PC)); [congruence | reflexivity].
Qed.

Lemma store_dispatch_witness :
  exists c',
    ControlUnitM.execute sv_r1_3
      (after 1 (booted (mkProgram [add_r1_r2_5; sv_r1_3] [0; 0; 0; 0; 0]) ∅ false))
    = (Ok tt, c') /\
    take 5 (data_memory (data_path c')) = [PyInt 0; PyInt 0; PyInt 0; PyInt 5; PyInt 0].
Proof.
  destruct (store_dispatch
              (after 1 (booted (mkProgram [add_r1_r2_5; sv_r1_3] [0; 0; 0; 0; 0]) ∅ false))
              sv_r1_3 R1 (Const 3) 3 1 eq_refl eq_refl eq_refl eq_refl
              ltac:(unfold valid_index; vm_compute; split; [discriminate | reflexivity])
              eq_refl)
    as (c' & Hrun & Hmem & _).
  exists c'. split; [exact Hrun |]. rewrite Hmem. vm_compute. reflexivity.
Defined.

(** ** Input and output instructions *)

Lemma print_ok (d : DataPath) (v : Z) :
  alu_bus d = PyInt v ->
  output_int d = true \/ is_code_point v ->
  DataPathM.print d
  = (Ok tt, set_output_buffer (output_buffer d ++ [printed (output_int d) v]) d).
Proof.
  intros Hbus Hok. unfold DataPathM.print, bind, get, lift_res, modify, printed.
  rewrite Hbus. destruct (output_int d); [reflexivity |].
  destruct Hok as [Hmode | [Hlo Hhi]]; [discriminate |]. unfold DataPathM.py_chr.
  destruct (Z.ltb_spec v (-2147483648)); [lia |].
  destruct (Z.ltb_spec 2147483647 v); [lia |]. cbn [orb].
  destruct (Z.leb_spec 0 v); [| lia]. destruct (Z.ltb_spec v 1114112); [| lia].
  reflexivity.
Qed.

Lemma print_raises (d : DataPath) (v : Z) :
  alu_bus d = PyInt v ->
  output_int d = false -> ~ is_code_point v ->
  DataPathM.print d = (Raise (chr_fault v), d).
Proof.
  intros Hbus Hmode Hbad. unfold DataPathM.print, bind, get, lift_res.
  rewrite Hbus, Hmode. unfold DataPathM.py_chr, chr_fault, is_code_point in *.
  destruct ((v <? -2147483648) || (2147483647 <? v)); [reflexivity |].
  destruct (Z.leb_spec 0 v); destruct (Z.ltb_spec v 1114112); try reflexivity. lia.
Qed.

Lemma chr_fault_of_wrapped (v : Z) :
  (INT32_MIN <= v -> chr_fault (alu_wrap v) = ValueError) /\
  (v < INT32_MIN -> chr_fault (alu_wrap v) = OverflowError).
Proof.
  unfold chr_fault. split; intros Hv.
  - pose proof (alu_wrap_in_range v Hv) as [Hlo Hhi]. unfold INT32_MIN, INT32_MAX in *.
    destruct (Z.ltb_spec (alu_wrap v) (-2147483648)); [lia |].
    destruct (Z.ltb_spec 2147483647 (alu_wrap v)); [lia | reflexivity].
  - rewrite (alu_wrap_below v Hv). unfold INT32_MIN in *.
    destruct (Z.ltb_spec (- v - 1) (-2147483648)); [reflexivity |].
    destruct (Z.ltb_spec 2147483647 (- v - 1)); [reflexivity | lia].
Qed.

(** X14: a dispatched [OUT] whose operand holds the integer [v] appends
    one item to the output buffer in one tick and increments [PC]: in
    integer mode the wrapped value, in character mode the character with
    that code point, provided the wrapped value is a code point (0 to
    0x10FFFF); no register other than [PC] changes. *)
Theorem output_dispatch (c : ControlUnit) (i : instr) (a2 : operand) (v pc : Z) :
  opcode i = OUT -> arg2 i = Some a2 ->
  operand_value c a2 = PyInt v -> reg c PC = PyInt pc ->
  output_int (data_path c) = true \/ is_code_point (alu_wrap v) ->
  exists c',
    ControlUnitM.execute i c = (Ok tt, c') /\
    output_buffer (data_path c')
    = output_buffer (data_path c) ++ [printed (output_int (data_path c)) (alu_wrap v)] /\
    reg c' PC = PyInt (pc + 1) /\
    (forall r, r <> PC -> reg c' r = reg c r) /\
    data_memory (data_path c') = data_memory (data_path c) /\
    _tick c' = _tick c + 1.
Proof.
  intros Hop H2 Hv Hpc Hok.
  unfold ControlUnitM.execute. rewrite Hop. unfold arg2_type. rewrite H2.
  destruct c as [ci prog q d sb iv t ii ie cnt].
  destruct d as [mem rf al ab ob db ib ip obuf oi].
  destruct rf as [regs ik o1 o2 oo].
  unfold reg in *. cbn in Hv, Hpc, Hok.
  destruct a2 as [r2 | n]; cbn in Hv.
  all: run_methods.
  all: destruct (decide (Reg R1 = Reg R0)) as [Heq | _]; [congruence |].
  all: cbn.
  all: erewrite (execute_alu_int ALU_RIGHT _ v) by (cbn; congruence).
  all: cbn.
  all: erewrite (print_ok _ (alu_wrap v)) by (try reflexivity; assumption).
  all: cbn; rewrite ?Hpc; cbn.
  all: eexists; split; [reflexivity |]; cbn.
  all: unfold upd.
  all: destruct (decide (PC = PC)); [| congruence].
  all: split_all; try reflexivity.
  all: intros r Hr.
  all: destruct (decide (r = PC)); [congruence | reflexivity].
Qed.

Lemma output_dispatch_witness :
  exists c',
    ControlUnitM.execute (mkInstr OUT None (Some (Const 104)) None)
      (booted prints_hi ∅ false) = (Ok tt, c') /\
    output_buffer (data_path c') = [OutChr 104].
Proof.
  destruct (output_dispatch (booted prints_hi ∅ false)
              (mkInstr OUT None (Some (Const 104)) None) (Const 104) 104 0
              eq_refl eq_refl eq_refl eq_refl
              ltac:(right; unfold is_code_point; vm_compute;
                    split; [discriminate | reflexivity]))
    as (c' & Hrun & Hbuf & _).
  exists c'. split; [exact Hrun |]. rewrite Hbuf. reflexivity.
Defined.

(** X15: in character mode a dispatched [OUT] whose operand holds an
    integer whose wrapped value is not a code point raises the exception of
    [chr]: [ValueError] for an operand not below [INT32_MIN] (its wrapped
    value is negative or above 0x10FFFF), and [OverflowError] for an operand
    below [INT32_MIN], whose wrapped value lies above [INT32_MAX] and does
    not fit a C [int].  Nothing is appended to the output buffer, no register
    is written and the tick is not advanced. *)
Theorem output_of_non_character_raises (c : ControlUnit) (i : instr) (a2 : operand)
    (v : Z) :
  opcode i = OUT -> arg2 i = Some a2 ->
  operand_value c a2 = PyInt v ->
  output_int (data_path c) = false -> ~ is_code_point (alu_wrap v) ->
  exists c',
    ControlUnitM.execute i c = (Raise (chr_fault (alu_wrap v)), c') /\
    (INT32_MIN <= v -> chr_fault (alu_wrap v) = ValueError) /\
    (v < INT32_MIN -> chr_fault (alu_wrap v) = OverflowError) /\
    output_buffer (data_path c') = output_buffer (data_path c) /\
    (forall r, reg c' r = reg c r) /\
    _tick c' = _tick c.
Proof.
  intros Hop H2 Hv Hmode Hbad.
  destruct (chr_fault_of_wrapped v) as [Hvalue Hoverflow].
  unfold ControlUnitM.execute. rewrite Hop. unfold arg2_type. rewrite H2.
  destruct c as [ci prog q d sb iv t ii ie cnt].
  destruct d as [mem rf al ab ob db ib ip obuf oi].
  destruct rf as [regs ik o1 o2 oo].
  unfold reg in *. cbn in Hv, Hmode.
  destruct a2 as [r2 | n]; cbn in Hv.
  all: run_methods.
  all: destruct (decide (Reg R1 = Reg R0)) as [Heq | _]; [congruence |].
  all: cbn.
  all: erewrite (execute_alu_int ALU_RIGHT _ v) by (cbn; congruence).
  all: cbn.
  all: erewrite (print_raises _ (alu_wrap v)) by (try reflexivity; assumption).
  all: cbn.
  all: eexists; split; [reflexivity |]; cbn.
  all: split_all; try reflexivity; assumption.
Qed.

Lemma output_of_non_character_raises_witness :
  (exists c',
     ControlUnitM.execute (mkInstr OUT None (Some (Const (-1))) None)
       (booted prints_minus_one ∅ false) = (Raise ValueError, c') /\
     output_buffer (data_path c') = []) /\
  (exists c',
     ControlUnitM.execute (mkInstr OUT None (Some (Const (-2147483649))) None)
       (booted prints_below_range ∅ false) = (Raise OverflowError, c') /\
     output_buffer (data_path c') = []).
Proof.
  split.
  - destruct (output_of_non_character_raises (booted prints_minus_one ∅ false)
                (mkInstr OUT None (Some (Const (-1))) None) (Const (-1)) (-1)
                eq_refl eq_refl eq_refl eq_refl
                ltac:(unfold is_code_point; vm_compute; intros [H _]; apply H; reflexivity))
      as (c' & Hrun & _ & _ & Hbuf & _).
    exists c'. split; [exact Hrun | exact Hbuf].
  - destruct (output_of_non_character_raises (booted prints_below_range ∅ false)
                (mkInstr OUT None (Some (Const (-2147483649))) None)
                (Const (-2147483649)) (-2147483649)
                eq_refl eq_refl eq_refl eq_refl
                ltac:(unfold is_code_point; vm_compute; intros [_ H]; discriminate H))
      as (c' & Hrun & _ & _ & Hbuf & _).
    exists c'. split; [exact Hrun | exact Hbuf].
Defined.

Lemma input_ok (d : DataPath) (ch : Z) :
  0 <= input_pointer d ->
  input_buffer d !! Z.to_nat (input_pointer d) = Some [ch] ->
  DataPathM.input d
  = (Ok tt, set_input_pointer (input_pointer d + 1) (set_output_bus (PyInt ch) d)).
Proof.
  intros Hlo Hitem.
  assert (Hlt : (Z.to_nat (input_pointer d) < length (input_buffer d))%nat)
    by (eapply lookup_lt_Some; exact Hitem).
  destruct (py_index_valid (length (input_buffer d)) (input_pointer d)
              ltac:(unfold valid_index; lia)) as [Hidx _].
  unfold position in Hidx.
  destruct (Z.ltb_spec (input_pointer d) 0); [lia |].
  unfold DataPathM.input, bind, get, modify, py_getitem.
  rewrite Hidx. cbn [res_bind]. unfold pystr in *. rewrite Hitem. reflexivity.
Qed.

(** X16: a dispatched [IN] into a register other than [R0] and [PC], with
    a one-character string at [input_pointer] in the input buffer, puts the
    code point of that character in the register (unwrapped), advances
    [input_pointer] by one and [PC] by one in one tick, and leaves the input
    buffer, the output buffer and every other register as they were. *)
Theorem input_dispatch (c : ControlUnit) (i : instr) (o : Register) (ch pc : Z) :
  opcode i = IN -> arg2 i = Some (Reg o) ->
  o <> R0 -> o <> PC ->
  0 <= input_pointer (data_path c) ->
  input_buffer (data_path c) !! Z.to_nat (input_pointer (data_path c)) = Some [ch] ->
  reg c PC = PyInt pc ->
  exists c',
    ControlUnitM.execute i c = (Ok tt, c') /\
    reg c' o = PyInt ch /\
    input_pointer (data_path c') = input_pointer (data_path c) + 1 /\
    reg c' PC = PyInt (pc + 1) /\
    (forall r, r <> o -> r <> PC -> reg c' r = reg c r) /\
    input_buffer (data_path c') = input_buffer (data_path c) /\
    output_buffer (data_path c') = output_buffer (data_path c) /\
    _tick c' = _tick c + 1.
Proof.
  intros Hop H2 HR0 HPC Hlo Hitem Hpc.
  unfold ControlUnitM.execute. rewrite Hop, H2.
  destruct c as [ci prog q d sb iv t ii ie cnt].
  destruct d as [mem rf al ab ob db ib ip obuf oi].
  destruct rf as [regs ik o1 o2 oo].
  unfold reg in *. cbn in Hlo, Hitem, Hpc.
  run_methods.
  destruct (decide (Reg o = Reg R0)) as [Heq | _]; [congruence |].
  cbn.
  erewrite (execute_alu_int ALU_NOP _ 0) by reflexivity.
  cbn.
  erewrite (input_ok _ ch) by assumption.
  cbn. unfold upd at 1.
  destruct (decide (PC = o)) as [<- | Hne]; [congruence |]. rewrite Hpc. cbn.
  eexists; split; [reflexivity |]; cbn.
  unfold upd.
  destruct (decide (PC = PC)); [| congruence].
  destruct (decide (o = o)); [| congruence].
  split_all; try reflexivity.
  - destruct (decide (o = PC)); [congruence | reflexivity].
  - intros r Hr1 Hr2.
    destruct (decide (r = PC)); [congruence |].
    destruct (decide (r = o)); [congruence | reflexivity].
Qed.

Lemma input_dispatch_witness :
  exists c',
    ControlUnitM.execute (mkInstr IN None (Some (Reg R1)) None)
      (ControlUnitM.admit_interrupt (after 5 (booted echo_handler echo_schedule false))).2 = (Ok tt, c') /\
    reg c' R1 = PyInt 120.
Proof.
  destruct (input_dispatch (ControlUnitM.admit_interrupt (after 5 (booted echo_handler echo_schedule false))).2
              (mkInstr IN None (Some (Reg R1)) None) R1 120
              2 eq_refl eq_refl ltac:(discriminate) ltac:(discriminate)
              ltac:(vm_compute; discriminate) ltac:(vm_compute; reflexivity)
              ltac:(vm_compute; reflexivity))
    as (c' & Hrun & Hreg & _).
  exists c'. split; [exact Hrun | exact Hreg].
Defined.

(** ** Entering and leaving an interrupt handler *)

Lemma position_nonneg (len : nat) (a : Z) : 0 <= a -> position len a = Z.to_nat a.
Proof. intros Ha. unfold position. destruct (Z.ltb_spec a 0); [lia | reflexivity]. Qed.

Ltac norm_state :=
  cbn [set_registers set_reg_file set_alu set_data_memory set_alu_bus set_output_bus
       set_data_bus set_input_buffer set_input_pointer set_output_buffer
       set_instr set_int_queue set_data_path set_tick set_is_interrupted
       set_int_enabled set_instr_cnt alu_stored
       data_memory reg_file alu alu_bus output_bus data_bus input_buffer
       input_pointer output_buffer output_int
       registers int_keys operand_1 operand_2 output
       alu_left alu_right zero_flag
       instr_ program int_queue data_path _sig_branch interrupt_vector _tick
       is_interrupted int_enabled instr_cnt].

Ltac run_step tac := erewrite bind_ok by tac; cbv beta; norm_state.

Lemma admit_interrupt_runs (c : ControlUnit) (k sp : Z) (payload : pystr)
    (handler : pyval) :
  min_key (int_queue c) = Some k ->
  int_queue c !! k = Some payload ->
  interrupt_vector c = [0] ->
  reg c SP = PyInt sp ->
  1 <= sp < Z.of_nat (length (data_memory (data_path c))) ->
  sp <= INT32_MAX ->
  data_memory (data_path c) !! 0%nat = Some handler ->
  exists c1,
    ControlUnitM.admit_interrupt c = (Ok tt, c1) /\
    data_memory (data_path c1) = <[Z.to_nat sp := reg c PC]> (data_memory (data_path c)) /\
    reg c1 SP = PyInt (sp - 1) /\
    reg c1 PC = handler /\
    (forall r, r <> PC -> r <> SP -> reg c1 r = reg c r) /\
    input_buffer (data_path c1) = input_buffer (data_path c) ++ [payload] /\
    is_interrupted c1 = true /\
    _tick c1 = _tick c + 3.
Proof.
  intros Hmin Hp Hiv Hsp Hrange Hmax Hh.
  assert (Hw : alu_wrap sp = sp) by (apply alu_wrap_id; unfold in_int32, INT32_MIN; lia).
  assert (Hw1 : alu_wrap (sp - 1) = sp - 1)
    by (apply alu_wrap_id; unfold in_int32, INT32_MIN; lia).
  assert (Hw0 : alu_wrap 0 = 0) by reflexivity.
  destruct c as [ci prog q d sb iv t ii ie cnt].
  destruct d as [mem rf al ab ob db ib ip obuf oi].
  destruct rf as [regs ik o1 o2 oo].
  unfold reg in *. cbn in Hmin, Hp, Hiv, Hsp, Hrange, Hh. subst iv.
  assert (Hpos : position (length mem) sp = Z.to_nat sp)
    by (apply position_nonneg; lia).
  assert (Hvalid : valid_index (length mem) sp) by (unfold valid_index; lia).
  assert (Hvalid0 : valid_index (length mem) 0) by (unfold valid_index; lia).
  assert (Hne : Z.to_nat sp <> 0%nat) by lia.
  clear Hrange Hmax.
  unfold ControlUnitM.admit_interrupt.
  eexists. split.
  - run_step ltac:(reflexivity). rewrite Hmin.
    run_step ltac:(reflexivity). rewrite Hp.
    run_step ltac:(reflexivity).
    run_step ltac:(reflexivity).
    run_step ltac:(apply dp_ok; apply latch_registers_ok; discriminate).
    run_step ltac:(apply dp_ok; apply latch_alu_ok).
    run_step ltac:(apply dp_ok; apply (execute_alu_int ALU_LEFT _ sp); norm_state;
                   rewrite Hsp; reflexivity).
    rewrite Hw.
    run_step ltac:(apply dp_ok; apply (write_ok _ sp); [reflexivity | exact Hvalid]).
    rewrite Hpos.
    run_step ltac:(apply tick_ok).
    run_step ltac:(apply dp_ok; apply latch_registers_ok; discriminate).
    run_step ltac:(apply dp_ok; apply latch_alu_ok).
    run_step ltac:(apply dp_ok; apply (execute_alu_int ALU_DEC _ (sp - 1)); norm_state;
                   rewrite Hsp; reflexivity).
    rewrite Hw1.
    run_step ltac:(apply dp_ok; apply (latch_output_ok _ SP); reflexivity).
    run_step ltac:(apply tick_ok).
    run_step ltac:(apply dp_ok; apply latch_registers_ok; discriminate).
    run_step ltac:(reflexivity).
    run_step ltac:(reflexivity).
    run_step ltac:(apply dp_ok; apply latch_alu_ok).
    run_step ltac:(apply dp_ok; apply (execute_alu_int ALU_RIGHT _ 0); reflexivity).
    rewrite Hw0.
    run_step ltac:(apply dp_ok; apply (read_ok _ 0 handler);
                   [ reflexivity
                   | norm_state; rewrite length_insert; exact Hvalid0
                   | norm_state; rewrite length_insert;
                     rewrite list_lookup_insert_ne by exact Hne; exact Hh ]).
    run_step ltac:(apply dp_ok; apply (latch_output_ok _ PC); reflexivity).
    run_step ltac:(apply tick_ok).
    run_step ltac:(apply dp_ok; reflexivity).
    reflexivity.
  - norm_state. unfold upd. split_all; try reflexivity.
    + intros r Hr1 Hr2.
      destruct (decide (r = PC)); [congruence |].
      destruct (decide (r = SP)); [congruence | reflexivity].
    + clear. lia.
Qed.

Lemma iret_runs (c : ControlUnit) (i : instr) (s : Z) (v : pyval) :
  opcode i = IRET ->
  reg c SP = PyInt s ->
  0 <= s + 1 < Z.of_nat (length (data_memory (data_path c))) ->
  s + 1 <= INT32_MAX ->
  data_memory (data_path c) !! Z.to_nat (s + 1) = Some v ->
  exists c',
    ControlUnitM.execute i c = (Ok tt, c') /\
    reg c' PC = v /\
    reg c' SP = PyInt (s + 1) /\
    (forall r, r <> PC -> r <> SP -> reg c' r = reg c r) /\
    data_memory (data_path c') = data_memory (data_path c) /\
    input_buffer (data_path c') = input_buffer (data_path c) /\
    is_interrupted c' = false /\
    _tick c' = _tick c + 2.
Proof.
  intros Hop Hsp Hrange Hmax Hv.
  assert (Hw : alu_wrap (s + 1) = s + 1)
    by (apply alu_wrap_id; unfold in_int32, INT32_MIN; lia).
  destruct c as [ci prog q d sb iv t ii ie cnt].
  destruct d as [mem rf al ab ob db ib ip obuf oi].
  destruct rf as [regs ik o1 o2 oo].
  unfold reg in *. cbn in Hsp, Hrange, Hv.
  assert (Hpos : position (length mem) (s + 1) = Z.to_nat (s + 1))
    by (apply position_nonneg; lia).
  assert (Hvalid : valid_index (length mem) (s + 1)) by (unfold valid_index; lia).
  clear Hrange Hmax.
  unfold ControlUnitM.execute. rewrite Hop.
  eexists. split.
  - run_step ltac:(apply dp_ok; apply latch_registers_ok; discriminate).
    run_step ltac:(apply dp_ok; apply latch_alu_ok).
    run_step ltac:(apply dp_ok; apply (execute_alu_int ALU_INC _ (s + 1)); norm_state;
                   rewrite Hsp; reflexivity).
    rewrite Hw.
    run_step ltac:(apply dp_ok; apply (latch_output_ok _ SP); reflexivity).
    run_step ltac:(apply tick_ok).
    run_step ltac:(apply dp_ok; apply latch_registers_ok; discriminate).
    run_step ltac:(apply dp_ok; apply latch_alu_ok).
    run_step ltac:(apply dp_ok; apply (execute_alu_int ALU_LEFT _ (s + 1)); reflexivity).
    rewrite Hw.
    run_step ltac:(apply dp_ok; apply (read_ok _ (s + 1) v);
                   [ reflexivity | exact Hvalid
                   | norm_state; rewrite Hpos; exact Hv ]).
    run_step ltac:(apply dp_ok; apply (latch_output_ok _ PC); reflexivity).
    run_step ltac:(apply tick_ok).
    reflexivity.
  - norm_state. unfold upd. split_all; try reflexivity.
    + intros r Hr1 Hr2.
      destruct (decide (r = PC)); [congruence |].
      destruct (decide (r = SP)); [congruence | reflexivity].
    + clear. lia.
Qed.

(** X17: the admission of an interrupt and the [IRET] that ends its
    handler are inverse on [PC] and [SP].  With the stack pointer [sp] inside
    the memory and at least 1, the admission stores [PC] in the cell at [sp],
    lowers [SP] to [sp - 1], loads [PC] from cell 0 (the interrupt vector)
    and takes 3 ticks; an [IRET] executed in the state the admission leaves
    restores the interrupted [PC] and the old [SP] in 2 more ticks, clears
    [is_interrupted] and leaves the other registers as they were. *)
Theorem interrupt_entry_and_return (c : ControlUnit) (k sp : Z)
    (handler : pyval) (i : instr) :
  min_key (int_queue c) = Some k ->
  interrupt_vector c = [0] ->
  reg c SP = PyInt sp ->
  1 <= sp < Z.of_nat (length (data_memory (data_path c))) ->
  sp <= INT32_MAX ->
  data_memory (data_path c) !! 0%nat = Some handler ->
  opcode i = IRET ->
  exists c1 c2,
    ControlUnitM.admit_interrupt c = (Ok tt, c1) /\
    data_memory (data_path c1)
    = <[Z.to_nat sp := reg c PC]> (data_memory (data_path c)) /\
    reg c1 SP = PyInt (sp - 1) /\
    reg c1 PC = handler /\
    is_interrupted c1 = true /\
    _tick c1 = _tick c + 3 /\
    ControlUnitM.execute i c1 = (Ok tt, c2) /\
    reg c2 PC = reg c PC /\
    reg c2 SP = PyInt sp /\
    (forall r, r <> PC -> r <> SP -> reg c2 r = reg c r) /\
    is_interrupted c2 = false /\
    _tick c2 = _tick c + 5.
Proof.
  intros Hmin Hiv Hsp Hrange Hmax Hh Hop.
  destruct (min_key_Some _ _ Hmin) as [[payload Hp] _].
  destruct (admit_interrupt_runs c k sp payload handler Hmin Hp Hiv Hsp Hrange Hmax Hh)
    as (c1 & Hrun1 & Hmem1 & Hsp1 & Hpc1 & Hregs1 & _ & Hint1 & Htick1).
  assert (Hlen1 : length (data_memory (data_path c1)) = length (data_memory (data_path c)))
    by (rewrite Hmem1; apply length_insert).
  assert (Hsaved : data_memory (data_path c1) !! Z.to_nat (sp - 1 + 1) = Some (reg c PC)).
  { rewrite Hmem1. replace (sp - 1 + 1) with sp by (clear; lia).
    apply list_lookup_insert_eq. clear - Hrange. lia. }
  destruct (iret_runs c1 i (sp - 1) (reg c PC) Hop Hsp1
              ltac:(rewrite Hlen1; clear - Hrange; lia) ltac:(clear - Hmax; lia) Hsaved)
    as (c2 & Hrun2 & Hpc2 & Hsp2 & Hregs2 & _ & _ & Hint2 & Htick2).
  exists c1, c2. split_all; try assumption.
  - rewrite Hsp2. replace (sp - 1 + 1) with sp by (clear; lia). reflexivity.
  - intros r Hr1 Hr2. rewrite (Hregs2 r Hr1 Hr2). apply Hregs1; assumption.
  - rewrite Htick2, Htick1. clear. lia.
Qed.

Lemma interrupt_entry_and_return_witness :
  exists c1 c2,
    ControlUnitM.admit_interrupt (after 5 (booted echo_handler echo_schedule false))
    = (Ok tt, c1) /\
    reg c1 PC = PyInt 2 /\
    ControlUnitM.execute (mkInstr IRET None None None) c1 = (Ok tt, c2) /\
    reg c2 PC = PyInt 1 /\ reg c2 SP = PyInt 10000.
Proof.
  destruct (interrupt_entry_and_return
              (after 5 (booted echo_handler echo_schedule false)) 5 10000 (PyInt 2)
              (mkInstr IRET None None None)
              ltac:(vm_compute; reflexivity) ltac:(vm_compute; reflexivity)
              ltac:(vm_compute; reflexivity)
              ltac:(split; [vm_compute; discriminate | vm_compute; reflexivity])
              ltac:(vm_compute; discriminate)
              ltac:(vm_compute; reflexivity) eq_refl)
    as (c1 & c2 & Hrun1 & _ & _ & Hpc1 & _ & _ & Hrun2 & Hpc2 & Hsp2 & _).
  exists c1, c2. split_all; assumption.
Defined.

(** ** The exceptions a call can raise *)

Lemma r0_kept_by_a_call :
  maintains (fun c => r0_is_zero (reg_file (data_path c)))
    ControlUnitM.decode_and_execute_instruction.
Proof.
  pose proof execute_r0 as Hex.
  unfold ControlUnitM.decode_and_execute_instruction, ControlUnitM.admit_interrupt.
  repeat first [ apply Hex | r0_step ].
Qed.

(** X18: [R0] is read-only: in every state a simulation reaches, and in
    the state the next call leaves however it ends, [R0] holds 0. *)
Theorem r0_is_read_only (prog : Program) (queue : gmap Z pystr) (output_int : bool)
    (c0 c : ControlUnit) (n : nat) :
  boot prog queue output_int = Ok c0 ->
  nsteps step n c0 c ->
  reg c R0 = PyInt 0 /\
  reg (ControlUnitM.decode_and_execute_instruction c).2 R0 = PyInt 0.
Proof.
  intros Hboot Hsteps.
  assert (Hinv : r0_is_zero (reg_file (data_path c))).
  { apply (nsteps_maintains (fun c => r0_is_zero (reg_file (data_path c))) n c0 c
             r0_kept_by_a_call); [| exact Hsteps].
    unfold boot in Hboot. destruct (load_data _ _ _); try discriminate.
    injection Hboot as <-. split; [discriminate | reflexivity]. }
  split; [exact (proj2 Hinv) |].
  exact (proj2 (r0_kept_by_a_call c Hinv)).
Qed.

Lemma r0_is_read_only_witness :
  reg (after 1 (booted writes_r0 ∅ false)) R0 = PyInt 0 /\
  reg (ControlUnitM.decode_and_execute_instruction (after 1 (booted writes_r0 ∅ false))).2 R0
  = PyInt 0.
Proof.
  apply (r0_is_read_only writes_r0 ∅ false (booted writes_r0 ∅ false)
           (after 1 (booted writes_r0 ∅ false)) 1).
  - vm_compute. reflexivity.
  - apply (nsteps_l _ _ _ (after 1 (booted writes_r0 ∅ false)));
      [vm_compute; reflexivity | apply nsteps_O].
Defined.

Section Never.
Context (e : exn) {S : Type}.

Lemma never_raises_ret {A} (a : A) : never_raises e (@ret S A a).
Proof. intros s. discriminate. Qed.

Lemma never_raises_get : never_raises e (@get S).
Proof. intros s. discriminate. Qed.

Lemma never_raises_modify (f : S -> S) : never_raises e (modify f).
Proof. intros s. discriminate. Qed.

Lemma never_raises_raise {A} (e' : exn) : e' <> e -> never_raises e (@raise S A e').
Proof. intros Hne s. cbn. unfold never. congruence. Qed.

Lemma never_raises_field {A} (o : option A) :
  e <> KeyError -> never_raises e (@field S A o).
Proof. intros Hne. destruct o; intros s; cbn; unfold never; congruence. Qed.

Lemma never_raises_lift_res {A} (r : res A) : never e r -> never_raises e (@lift_res S A r).
Proof. intros Hr s. exact Hr. Qed.

Lemma never_raises_bind {A B} (m : M S A) (k : A -> M S B) :
  never_raises e m -> (forall a, never_raises e (k a)) -> never_raises e (bind m k).
Proof.
  intros Hm Hk s. unfold bind. specialize (Hm s).
  destruct (m s) as [[a | e' |] s']; cbn in *.
  - apply Hk.
  - unfold never in *. congruence.
  - discriminate.
Qed.

End Never.

Lemma never_raises_dp (e : exn) {A} (m : M DataPath A) :
  never_raises e m -> never_raises e (ControlUnitM.dp m).
Proof.
  intros Hm c. unfold ControlUnitM.dp. specialize (Hm (data_path c)).
  destruct (m (data_path c)) as [r d]. exact Hm.
Qed.

(** *** What the operations on numbers and lists raise *)

Lemma res_bind_never (e : exn) {A B} (r : res A) (k : A -> res B) :
  never e r -> (forall a, never e (k a)) -> never e (res_bind r k).
Proof.
  intros Hr Hk. destruct r; cbn; [apply Hk | unfold never in *; congruence | discriminate].
Qed.

Lemma float_of_int_never (e : exn) (z : Z) :
  e <> OverflowError -> never e (float_of_int z).
Proof.
  intros Hne. unfold float_of_int, never.
  destruct (binary_normalize _ _ _ _ _); congruence.
Qed.

Lemma to_float_never (e : exn) (v : pyval) : e <> OverflowError -> never e (to_float v).
Proof.
  intros Hne. destruct v; cbv beta iota delta [to_float];
    [apply float_of_int_never; exact Hne | discriminate].
Qed.

Lemma float_binop_never (e : exn) op (a b : pyval) :
  e <> OverflowError -> never e (float_binop op a b).
Proof.
  intros Hne. unfold float_binop.
  apply res_bind_never; [apply to_float_never; exact Hne | intros fa].
  apply res_bind_never; [apply to_float_never; exact Hne | intros fb]. discriminate.
Qed.

Lemma py_add_never (e : exn) (a b : pyval) : e <> OverflowError -> never e (py_add a b).
Proof.
  intros Hne. destruct a, b; cbv beta iota delta [py_add];
    try discriminate; apply float_binop_never; exact Hne.
Qed.

Lemma py_sub_never (e : exn) (a b : pyval) : e <> OverflowError -> never e (py_sub a b).
Proof.
  intros Hne. destruct a, b; cbv beta iota delta [py_sub];
    try discriminate; apply float_binop_never; exact Hne.
Qed.

Lemma py_mul_never (e : exn) (a b : pyval) : e <> OverflowError -> never e (py_mul a b).
Proof.
  intros Hne. destruct a, b; cbv beta iota delta [py_mul];
    try discriminate; apply float_binop_never; exact Hne.
Qed.

Lemma py_truediv_never (e : exn) (a b : pyval) :
  e <> OverflowError -> e <> ZeroDivisionError -> never e (py_truediv a b).
Proof.
  intros Hne Hz.
  assert (Hfloat : forall a b,
             never e (res_bind (to_float a) (fun fa =>
                      res_bind (to_float b) (fun fb =>
                        if is_fzero fb then Raise ZeroDivisionError
                        else Ok (PyFloat (fdiv fa fb)))))).
  { intros a' b'.
    apply res_bind_never; [apply to_float_never; exact Hne | intros fa].
    apply res_bind_never; [apply to_float_never; exact Hne | intros fb].
    unfold never. destruct (is_fzero fb); congruence. }
  destruct a as [x | f], b as [y | g]; try apply Hfloat.
  cbv beta iota delta [py_truediv]. unfold never. destruct (y =? 0); [congruence |].
  destruct (fdiv _ _); congruence.
Qed.

Lemma py_mod_never (e : exn) (a b : pyval) :
  e <> OverflowError -> e <> ZeroDivisionError -> never e (py_mod a b).
Proof.
  intros Hne Hz.
  assert (Hfloat : forall a b,
             never e (res_bind (to_float a) (fun fa =>
                      res_bind (to_float b) (fun fb =>
                        if is_fzero fb then Raise ZeroDivisionError
                        else Ok (PyFloat (float_rem fa fb)))))).
  { intros a' b'.
    apply res_bind_never; [apply to_float_never; exact Hne | intros fa].
    apply res_bind_never; [apply to_float_never; exact Hne | intros fb].
    unfold never. destruct (is_fzero fb); congruence. }
  destruct a as [x | f], b as [y | g]; try apply Hfloat.
  cbv beta iota delta [py_mod]. unfold never. destruct (y =? 0); congruence.
Qed.

Lemma operations_never (e : exn) (op : AluOperations) (l r : pyval) :
  e <> OverflowError -> e <> ZeroDivisionError -> never e (operations op l r).
Proof.
  intros Hne Hz. destruct op; cbv beta iota delta [operations];
    first [ apply py_truediv_never; assumption | apply py_mod_never; assumption
          | apply py_add_never; assumption | apply py_sub_never; assumption
          | apply py_mul_never; assumption | discriminate ].
Qed.

Lemma py_while_never (e : exn) (fuel : nat) cond body :
  (forall v, never e (body v)) -> forall v, never e (py_while fuel cond body v).
Proof.
  intros Hbody. induction fuel as [| fuel IH]; intros v; cbn;
    destruct (cond v); try discriminate.
  apply res_bind_never; [apply Hbody | exact IH].
Qed.

Lemma wrap_above_never (e : exn) (v : pyval) :
  e <> OverflowError -> never e (DataPathM.wrap_above v).
Proof.
  intros Hne. unfold DataPathM.wrap_above. apply py_while_never. intros w.
  apply res_bind_never; [apply py_sub_never; exact Hne | intros ?; apply py_add_never; exact Hne].
Qed.

Lemma wrap_below_never (e : exn) (v : pyval) :
  e <> OverflowError -> never e (DataPathM.wrap_below v).
Proof.
  intros Hne. unfold DataPathM.wrap_below. apply py_while_never. intros w.
  apply res_bind_never; [apply py_add_never; exact Hne | intros ?; apply py_sub_never; exact Hne].
Qed.

Lemma py_index_never (e : exn) (len : nat) (i : pyval) :
  e <> IndexError -> e <> TypeError -> never e (py_index len i).
Proof.
  intros H1 H2. unfold py_index, never. destruct i; [| congruence].
  destruct (_ && _); congruence.
Qed.

Lemma py_getitem_never (e : exn) {A} (l : list A) (i : pyval) :
  e <> IndexError -> e <> TypeError -> never e (py_getitem l i).
Proof.
  intros H1 H2. unfold py_getitem.
  apply res_bind_never; [apply py_index_never; assumption | intros j].
  unfold never. destruct (l !! j); congruence.
Qed.

Lemma py_setitem_never (e : exn) {A} (l : list A) (i : pyval) (x : A) :
  e <> IndexError -> e <> TypeError -> never e (py_setitem l i x).
Proof.
  intros H1 H2. unfold py_setitem.
  apply res_bind_never; [apply py_index_never; assumption | intros j]. discriminate.
Qed.

Lemma py_chr_never (e : exn) (v : pyval) :
  e <> ValueError -> e <> TypeError -> e <> OverflowError ->
  never e (DataPathM.py_chr v).
Proof.
  intros H1 H2 H3. unfold DataPathM.py_chr, never. destruct v; [| congruence].
  destruct (_ || _); [congruence |]. destruct (_ && _); congruence.
Qed.

Lemma py_ord_never (e : exn) (s : pystr) : e <> TypeError -> never e (DataPathM.py_ord s).
Proof.
  intros H. unfold DataPathM.py_ord, never. destruct s as [| c [| c' s]]; congruence.
Qed.

(** [input()]: the subscript and [ord] raise [IndexError] or [TypeError]
    only, so the handler for [KeyError] never runs. *)
Lemma input_never_eof : never_raises EOFError DataPathM.input.
Proof.
  unfold DataPathM.input.
  apply never_raises_bind; [apply never_raises_get | intros d].
  apply never_raises_bind; [| intros _; apply never_raises_modify].
  intros s.
  assert (Hsub : forall e, e <> IndexError -> e <> TypeError ->
                   never e (res_bind (py_getitem (input_buffer d) (PyInt (input_pointer d)))
                              DataPathM.py_ord)).
  { intros e H1 H2. apply res_bind_never; [apply py_getitem_never; assumption |].
    intros a. apply py_ord_never. exact H2. }
  pose proof (Hsub KeyError ltac:(discriminate) ltac:(discriminate)) as Hkey.
  pose proof (Hsub EOFError ltac:(discriminate) ltac:(discriminate)) as Heof.
  unfold never in *.
  destruct (res_bind _ _) as [c | e' |]; cbn; try discriminate.
  destruct e'; cbn; congruence.
Qed.

Ltac never_eof_step :=
  lazymatch goal with
  | |- never_raises _ (bind _ _) => apply never_raises_bind; [| intros ?]
  | |- never_raises _ (ret _) => apply never_raises_ret
  | |- never_raises _ get => apply never_raises_get
  | |- never_raises _ (modify _) => apply never_raises_modify
  | |- never_raises _ ControlUnitM.tick => apply never_raises_modify
  | |- never_raises _ (raise _) => apply never_raises_raise; discriminate
  | |- never_raises _ (field _) => apply never_raises_field; discriminate
  | |- never_raises _ (ControlUnitM.dp DataPathM.input) =>
      apply never_raises_dp; apply input_never_eof
  | |- never_raises _ (ControlUnitM.dp _) => apply never_raises_dp
  | |- never_raises _ (lift_res _) =>
      apply never_raises_lift_res;
      first [ apply operations_never; discriminate
            | apply wrap_above_never; discriminate
            | apply wrap_below_never; discriminate
            | apply py_getitem_never; discriminate
            | apply py_setitem_never; discriminate
            | apply py_chr_never; discriminate
            | apply py_add_never; discriminate ]
  | |- never_raises _ (if ?b then _ else _) => destruct b
  | |- never_raises _ (match ?x with _ => _ end) => destruct x
  end.

Lemma execute_never_eof (i : instr) : never_raises EOFError (ControlUnitM.execute i).
Proof.
  unfold ControlUnitM.execute, ControlUnitM.branch_target,
    ControlUnitM.latch_program_counter,
    DataPathM.latch_registers, DataPathM.latch_alu, DataPathM.latch_output,
    DataPathM.execute_alu, DataPathM.write, DataPathM.read, DataPathM.print,
    DataPathM.get_zero_flag.
  destruct (opcode i); repeat never_eof_step.
Qed.

Lemma decode_never_eof :
  never_raises EOFError ControlUnitM.decode_and_execute_instruction.
Proof.
  pose proof execute_never_eof as Hex.
  unfold ControlUnitM.decode_and_execute_instruction, ControlUnitM.admit_interrupt,
    DataPathM.latch_registers, DataPathM.latch_alu, DataPathM.latch_output,
    DataPathM.execute_alu, DataPathM.write, DataPathM.read.
  repeat first [ apply Hex | never_eof_step ].
Qed.

Lemma run_never_eof (fuel : nat) :
  forall (limit k : Z) (c : ControlUnit), (run fuel limit k c).1.1 <> Raise EOFError.
Proof.
  induction fuel as [| fuel IH]; intros limit k c; cbn [run].
  - destruct (limit >? k); discriminate.
  - destruct (limit >? k); [| discriminate].
    pose proof (decode_never_eof c) as Hdec. unfold never in Hdec.
    destruct (ControlUnitM.decode_and_execute_instruction c) as [[[] | e |] c'];
      cbn in *; [apply IH | exact Hdec | discriminate].
Qed.

(** X19: no call of [decode_and_execute_instruction] raises [EOFError]
    (the subscript of the input buffer raises [IndexError], which [input]
    does not convert), so the handler of [simulation] for an exhausted input
    never runs: [simulation] never returns with the warning
    ["Input buffer is empty!"], whatever the program, the schedule, the limit
    and the output mode. *)
Theorem input_warning_is_unreachable (float_repr : spec_float -> pystr)
    (prog : Program) (queue : gmap Z pystr) (limit : Z) (output_int : bool) :
  (forall c, (ControlUnitM.decode_and_execute_instruction c).1 <> Raise EOFError) /\
  forall buffer n t,
    simulation float_repr prog queue limit output_int
    <> Returned buffer n t ["Input buffer is empty!"%string].
Proof.
  split; [exact decode_never_eof |].
  intros buffer n t. unfold simulation.
  destruct (boot prog queue output_int) as [c0 | e |]; try discriminate.
  pose proof (run_never_eof (Z.to_nat limit) limit 0 c0) as Hrun.
  destruct (run (Z.to_nat limit) limit 0 c0) as [[r k] c]. cbn in Hrun.
  destruct r as [[] | e |]; try discriminate.
  destruct e; try discriminate; try congruence.
  all: unfold finish; destruct (negb _); try discriminate;
    destruct (join _); discriminate.
Qed.

(** ** Results below the 32-bit range *)

(** X20: the second loop of [execute_alu] does not bring a result below
    [INT32_MIN] back into the range: for a raw integer result [r] below
    [INT32_MIN] the value stored on both buses is [- r - 1], which lies above
    [INT32_MAX] (the loop body computes [2147483647 - (res + 2147483648)] and
    the first loop has already been left), and the zero flag is clear. *)
Theorem underflow_escapes_the_range (op : AluOperations) (d : DataPath) (r : Z) :
  operations op (alu_left (alu d)) (alu_right (alu d)) = Ok (PyInt r) ->
  r < INT32_MIN ->
  exists d',
    DataPathM.execute_alu op d = (Ok tt, d') /\
    alu_bus d' = PyInt (- r - 1) /\
    output_bus d' = PyInt (- r - 1) /\
    INT32_MAX < - r - 1 /\
    zero_flag (alu d') = false.
Proof.
  intros Hop Hr. destruct (execute_alu_underflow op d r Hop Hr) as [Hrun Hbig].
  exists (alu_stored (PyInt (- r - 1)) d). split_all; try reflexivity; try assumption.
  cbn. rewrite py_eq_int. apply Z.eqb_neq. unfold INT32_MAX in Hbig. lia.
Qed.

Lemma underflow_escapes_the_range_witness :
  exists d',
    DataPathM.execute_alu ALU_SUB (alu_inputs (-2147483648) 1) = (Ok tt, d') /\
    alu_bus d' = PyInt 2147483648.
Proof.
  destruct (underflow_escapes_the_range ALU_SUB (alu_inputs (-2147483648) 1)
              (-2147483649) eq_refl ltac:(unfold INT32_MIN; lia))
    as (d' & Hrun & Hbus & _).
  exists d'. split; [exact Hrun | exact Hbus].
Defined.

(** ** The translator *)

Import Translation.

Lemma dict_final_hlt : dict [("opcode"%string, VOpcode HLT)] = final_hlt.
Proof. unfold dict, final_hlt. cbn. apply insert_empty. Qed.

(** C7: whenever [translate] returns an artifact, its code list is not
    empty and its last instruction is the appended one, whose opcode is
    [HLT], whatever the source ends with. *)
Theorem translate_ends_with_hlt (script : string) (a : Artifact) :
  translate script = Ok a ->
  art_code a <> [] /\
  last (art_code a) = Some final_hlt /\
  final_hlt !! "opcode"%string = Some (VOpcode HLT) /\
  exists emitted, art_code a = emitted ++ [final_hlt].
Proof.
  unfold translate. intros Hrun.
  destruct (pass1 _ _) as [v1 | e |]; try discriminate. cbn [res_bind] in Hrun.
  destruct (pass2 _ _) as [v2 | e |]; try discriminate. cbn [res_bind] in Hrun.
  injection Hrun as <-. cbn [art_code code append_code].
  rewrite insert_empty. fold final_hlt.
  split; [intros H; apply app_eq_nil in H as [_ H]; discriminate |].
  split; [apply last_snoc |].
  split; [reflexivity |].
  exists (code v2). reflexivity.
Qed.

Lemma translate_ends_with_hlt_witness :
  exists a, translate echo_source = Ok a /\ last (art_code a) = Some final_hlt.
Proof.
  assert (Hrun : exists a, translate echo_source = Ok a)
    by (vm_compute; eexists; reflexivity).
  destruct Hrun as [a Hrun]. exists a. split; [exact Hrun |].
  exact (proj1 (proj2 (translate_ends_with_hlt echo_source a Hrun))).
Defined.

Lemma foldl_raise {A B} (f : B -> A -> res B) (e : exn) (l : list A) :
  foldl (fun r x => res_bind r (fun v => f v x)) (Raise e) l = Raise e.
Proof. induction l as [| x l IH]; [reflexivity | exact IH]. Qed.

Lemma pass1_raise (pre post : list string) (line : string) (v0 v : locals) (e : exn) :
  pass1 pre v0 = Ok v -> pass1_line v line = Raise e ->
  pass1 (pre ++ line :: post) v0 = Raise e.
Proof.
  unfold pass1. intros Hpre Hline. rewrite foldl_app. cbn. rewrite Hpre. cbn.
  rewrite Hline. apply foldl_raise.
Qed.



(** ** The artifact on disk *)

Lemma to_Opcode_value (o : Opcode) : to_Opcode (VStr (Opcode_value o)) = Ok o.
Proof. destruct o; reflexivity. Qed.

Lemma to_Register_value (r : Register) : to_Register (VStr (Register_value r)) = Ok r.
Proof. destruct r; reflexivity. Qed.

Lemma to_OperandType_value (t : OperandType) :
  to_OperandType (VStr (OperandType_value t)) = Ok t.
Proof. destruct t; reflexivity. Qed.

Lemma plain_is_plain (v : pyobj) : is_plain v = true -> plain v = v.
Proof. destruct v; cbn; intros H; try discriminate; reflexivity. Qed.

Lemma read_data_typed (cells : list pyobj) :
  Forall (fun v => exists z, v = VInt z) cells ->
  mapM (fun cell => res_bind (py_int cell) (fun z => Ok (VInt z))) (plain <$> cells)
  = Ok cells.
Proof.
  induction 1 as [| v cells [z ->] Hcells IH]; [reflexivity |].
  cbn. cbn in IH. rewrite IH. reflexivity.
Qed.

Section ReadInstr.
Local Open Scope string_scope.
Variable d : gmap string pyobj.
Hypothesis Htyped : typed_instr d.

Lemma typed_lookup (k : string) (v : pyobj) :
  d !! k = Some v -> typed_field d k v = true.
Proof. destruct Htyped as (_ & _ & Hall). intros H. exact (Hall k v H). Qed.

Lemma typed_opcode : exists o, d !! "opcode" = Some (VOpcode o).
Proof.
  destruct Htyped as ([v Hv] & _ & _). pose proof (typed_lookup _ _ Hv) as Hf.
  cbn in Hf. destruct v; try discriminate. eauto.
Qed.

Lemma typed_arg1 :
  d !! "arg1" = None \/ exists r, d !! "arg1" = Some (VRegister r).
Proof.
  destruct (d !! "arg1") as [v |] eqn:Hv; [| left; reflexivity].
  pose proof (typed_lookup _ _ Hv) as Hf. cbn in Hf. destruct v; try discriminate. eauto.
Qed.

Lemma typed_out :
  d !! "out" = None \/ exists r, d !! "out" = Some (VRegister r).
Proof.
  destruct (d !! "out") as [v |] eqn:Hv; [| left; reflexivity].
  pose proof (typed_lookup _ _ Hv) as Hf. cbn in Hf. destruct v; try discriminate. eauto.
Qed.

Lemma typed_arg2 :
  (d !! "arg2_type" = None /\
   (d !! "arg2" = None \/ exists v, d !! "arg2" = Some v /\ plain v = v)) \/
  (exists r, d !! "arg2_type" = Some (VOperandType REGISTER) /\
             d !! "arg2" = Some (VRegister r)) \/
  (exists z, d !! "arg2_type" = Some (VOperandType CONSTANT) /\
             d !! "arg2" = Some (VInt z)).
Proof.
  destruct Htyped as (_ & Hhas & _).
  destruct (d !! "arg2_type") as [ty |] eqn:Hty.
  - pose proof (typed_lookup _ _ Hty) as Hf. cbn in Hf.
    destruct ty as [| | | | t]; try discriminate.
    destruct (Hhas ltac:(eauto)) as [v Hv].
    pose proof (typed_lookup _ _ Hv) as Hf2. cbn in Hf2. rewrite Hty in Hf2.
    right. destruct t; destruct v; try discriminate; [left | right]; eauto.
  - left. split; [reflexivity |].
    destruct (d !! "arg2") as [v |] eqn:Hv; [| left; reflexivity].
    pose proof (typed_lookup _ _ Hv) as Hf2. cbn in Hf2. rewrite Hty in Hf2.
    right. exists v. split; [reflexivity | apply plain_is_plain; exact Hf2].
Qed.

Lemma typed_other (k : string) (v : pyobj) :
  k <> "opcode" -> k <> "arg1" -> k <> "arg2_type" -> k <> "arg2" -> k <> "out" ->
  d !! k = Some v -> plain v = v.
Proof.
  intros H1 H2 H3 H4 H5 Hv. pose proof (typed_lookup _ _ Hv) as Hf.
  unfold typed_field in Hf.
  destruct (String.eqb_spec k "opcode"); [contradiction |].
  destruct (String.eqb_spec k "arg1"); [contradiction |].
  destruct (String.eqb_spec k "out"); [contradiction |].
  destruct (String.eqb_spec k "arg2_type"); [contradiction |].
  destruct (String.eqb_spec k "arg2"); [contradiction |].
  cbn in Hf. apply plain_is_plain. exact Hf.
Qed.

End ReadInstr.

Ltac lookup_fields :=
  repeat first
    [ rewrite lookup_insert_eq
    | rewrite lookup_insert_ne by discriminate
    | rewrite lookup_fmap ].

Lemma read_instr_typed (d : gmap string pyobj) :
  typed_instr d -> read_instr (plain <$> d) = Ok d.
Proof.
  intros Htyped.
  destruct (typed_opcode d Htyped) as [o Ho].
  pose proof (typed_arg1 d Htyped) as H1.
  pose proof (typed_arg2 d Htyped) as H2.
  pose proof (typed_out d Htyped) as H3.
  pose proof (typed_other d Htyped) as Hrest.
  assert (Hfinal : forall e : gmap string pyobj,
             (forall k, e !! k = d !! k) -> @Ok (gmap string pyobj) e = Ok d).
  { intros e He. f_equal. apply map_eq. exact He. }
  unfold read_instr, dict_get.
  rewrite lookup_fmap, Ho. cbn [fmap option_fmap option_map plain as_text res_bind].
  rewrite to_Opcode_value. cbn [res_bind].
  destruct H1 as [H1 | [r1 H1]];
    destruct H2 as [[H2 H2'] | [[r2 [H2 H2']] | [z2 [H2 H2']]]];
    destruct H3 as [H3 | [r3 H3]].
  all: lookup_fields; rewrite ?H1, ?H2, ?H3;
       cbn [fmap option_fmap option_map plain as_text res_bind];
       rewrite ?to_Register_value, ?to_OperandType_value;
       cbn [res_bind OperandType_value].
  all: lookup_fields; rewrite ?H1, ?H2, ?H2', ?H3;
       cbn [fmap option_fmap option_map plain as_text res_bind py_int];
       rewrite ?to_Register_value, ?to_OperandType_value;
       cbn [res_bind].
  all: lookup_fields; rewrite ?H1, ?H2, ?H2', ?H3;
       cbn [fmap option_fmap option_map plain as_text res_bind py_int];
       rewrite ?to_Register_value, ?to_OperandType_value;
       cbn [res_bind].
  all: lookup_fields; rewrite ?H1, ?H2, ?H2', ?H3;
       cbn [fmap option_fmap option_map plain as_text res_bind py_int];
       rewrite ?to_Register_value, ?to_OperandType_value;
       cbn [res_bind].
  all: apply Hfinal; intros k.
  all: destruct (decide (k = "opcode"%string)) as [-> | Hk1];
         [lookup_fields; congruence |].
  all: destruct (decide (k = "arg1"%string)) as [-> | Hk2];
         [lookup_fields; rewrite ?H1; reflexivity |].
  all: destruct (decide (k = "arg2_type"%string)) as [-> | Hk3];
         [lookup_fields; rewrite ?H2; reflexivity |].
  all: destruct (decide (k = "out"%string)) as [-> | Hk5];
         [lookup_fields; rewrite ?H3; reflexivity |].
  all: destruct (decide (k = "arg2"%string)) as [-> | Hk4].
  all: repeat first
         [ rewrite lookup_insert_eq
         | rewrite lookup_insert_ne by congruence
         | rewrite lookup_fmap ].
  all: try (rewrite ?H2'; reflexivity).
  all: try (destruct H2' as [H2' | [v [H2' Hv]]]; rewrite H2'; cbn; congruence).
  all: destruct (d !! k) as [v |] eqn:Hv; cbn; [| reflexivity].
  all: rewrite (Hrest k v) by assumption; reflexivity.
Qed.

Lemma read_code_instrs_typed (instrs : list (gmap string pyobj)) :
  Forall typed_instr instrs ->
  mapM read_instr ((fun d : gmap string pyobj => plain <$> d) <$> instrs) = Ok instrs.
Proof.
  induction 1 as [| d instrs Hd Hrest IH]; [reflexivity |].
  cbn. rewrite (read_instr_typed d Hd). cbn. cbn in IH. rewrite IH. reflexivity.
Qed.

(** An artifact whose data cells are integers and whose instruction fields
    are as [read_code] leaves them is returned as it is. *)
Lemma read_write_typed (a : Artifact) (filename : string) (fs : files) :
  typed_artifact a ->
  read_code filename (write_code filename a fs) = Ok a.
Proof.
  intros [Hcode Hdata]. unfold read_code, write_code, files in *.
  rewrite lookup_insert_eq. unfold json_roundtrip. cbn [art_data art_code].
  rewrite (read_data_typed _ Hdata). cbn [res_bind].
  rewrite (read_code_instrs_typed _ Hcode). cbn [res_bind].
  destruct a; reflexivity.
Qed.

Lemma typed_example_typed : typed_artifact typed_example.
Proof.
  assert (Hhlt : typed_instr final_hlt).
  { split; [eexists; reflexivity |]. split.
    - intros [v Hv]. vm_compute in Hv. discriminate.
    - apply map_Forall_singleton. reflexivity. }
  split.
  - constructor; [| constructor; [exact Hhlt | constructor]].
    split; [eexists; reflexivity |]. split; [intros _; eexists; reflexivity |].
    unfold typed_example. cbn [list_to_map foldr].
    repeat (apply map_Forall_insert_2; [reflexivity |]).
    apply map_Forall_empty.
  - repeat constructor; eexists; reflexivity.
Qed.

Local Open Scope string_scope.

(** ** The coercions of [read_code] *)

Lemma as_text_plain (v : pyobj) : as_text (plain v) = as_text v.
Proof. destruct v; reflexivity. Qed.

Lemma to_Opcode_plain (v : pyobj) : to_Opcode (plain v) = to_Opcode v.
Proof. unfold to_Opcode. rewrite as_text_plain. reflexivity. Qed.

Lemma to_Register_plain (v : pyobj) : to_Register (plain v) = to_Register v.
Proof. unfold to_Register. rewrite as_text_plain. reflexivity. Qed.

Lemma to_OperandType_plain (v : pyobj) : to_OperandType (plain v) = to_OperandType v.
Proof. unfold to_OperandType. rewrite as_text_plain. reflexivity. Qed.

Lemma py_int_plain (v : pyobj) : py_int (plain v) = py_int v.
Proof. destruct v; reflexivity. Qed.

Lemma to_Opcode_text (v : pyobj) (o : Opcode) :
  to_Opcode v = Ok o -> as_text v = Some (Opcode_value o).
Proof.
  unfold to_Opcode. destruct (as_text v) as [s |]; [| discriminate].
  destruct (List.find _ all_opcodes) as [o' |] eqn:Hf; [| discriminate].
  intros [= <-]. apply List.find_some in Hf as [_ Heq].
  apply String.eqb_eq in Heq. congruence.
Qed.

Lemma to_Register_text (v : pyobj) (r : Register) :
  to_Register v = Ok r -> as_text v = Some (Register_value r).
Proof.
  unfold to_Register. destruct (as_text v) as [s |]; [| discriminate].
  destruct (List.find _ all_registers) as [r' |] eqn:Hf; [| discriminate].
  intros [= <-]. apply List.find_some in Hf as [_ Heq].
  apply String.eqb_eq in Heq. congruence.
Qed.

Lemma to_OperandType_text (v : pyobj) (t : OperandType) :
  to_OperandType v = Ok t -> as_text v = Some (OperandType_value t).
Proof.
  unfold to_OperandType. destruct (as_text v) as [s |]; [| discriminate].
  destruct (String.eqb_spec s "reg") as [-> |]; [intros [= <-]; reflexivity |].
  destruct (String.eqb_spec s "const") as [-> |]; [intros [= <-]; reflexivity |].
  discriminate.
Qed.

(** *** Python's [==] on the values of an artifact *)

Lemma pyobj_eqb_text (v w : pyobj) (s : string) :
  as_text v = Some s -> as_text w = Some s -> pyobj_eqb v w = true.
Proof.
  intros Hv Hw. destruct v, w; cbn in *; try discriminate;
    injection Hv as <-; injection Hw as <-; apply String.eqb_refl.
Qed.

Lemma pyobj_eqb_plain (w : pyobj) : pyobj_eqb (plain w) w = true.
Proof.
  destruct w; cbn; try apply Z.eqb_refl; apply String.eqb_refl.
Qed.

Lemma pyobj_eqb_int (z : Z) (w : pyobj) : pyobj_eqb (VInt z) w = true -> is_int w = true.
Proof. destruct w; cbn; intros H; try discriminate; reflexivity. Qed.

Lemma py_int_int (w : pyobj) : is_int w = true -> exists z, w = VInt z /\ py_int w = Ok z.
Proof. destruct w; cbn; intros H; try discriminate. eauto. Qed.

Lemma pyobj_eqb_coerce (d : gmap string pyobj) (k : string) (w : pyobj) :
  (k = "arg2" -> forall t z, d !! "arg2_type" = Some t -> to_OperandType t = Ok CONSTANT ->
                 py_int (plain w) = Ok z -> is_int w = true) ->
  pyobj_eqb (coerce d k (plain w)) w = true.
Proof.
  intros Hconst. unfold coerce.
  destruct (String.eqb k "opcode").
  { rewrite to_Opcode_plain. destruct (to_Opcode w) as [o | |] eqn:Ho;
      try apply pyobj_eqb_plain.
    apply (pyobj_eqb_text _ _ (Opcode_value o)); [reflexivity | apply to_Opcode_text, Ho]. }
  destruct (String.eqb k "arg1" || String.eqb k "out").
  { rewrite to_Register_plain. destruct (to_Register w) as [r | |] eqn:Hr;
      try apply pyobj_eqb_plain.
    apply (pyobj_eqb_text _ _ (Register_value r)); [reflexivity | apply to_Register_text, Hr]. }
  destruct (String.eqb k "arg2_type").
  { rewrite to_OperandType_plain. destruct (to_OperandType w) as [t | |] eqn:Ht;
      try apply pyobj_eqb_plain.
    apply (pyobj_eqb_text _ _ (OperandType_value t));
      [reflexivity | apply to_OperandType_text, Ht]. }
  destruct (String.eqb_spec k "arg2") as [-> | _]; [| apply pyobj_eqb_plain].
  destruct (d !! "arg2_type") as [t |] eqn:Hty; [| apply pyobj_eqb_plain].
  destruct (to_OperandType t) as [[|] | |] eqn:Ht; try apply pyobj_eqb_plain.
  - rewrite to_Register_plain. destruct (to_Register w) as [r | |] eqn:Hr;
      try apply pyobj_eqb_plain.
    apply (pyobj_eqb_text _ _ (Register_value r)); [reflexivity | apply to_Register_text, Hr].
  - destruct (py_int (plain w)) as [z | |] eqn:Hz; try apply pyobj_eqb_plain.
    destruct (py_int_int w (Hconst eq_refl t z eq_refl Ht eq_refl)) as (z' & -> & _).
    cbn in Hz. injection Hz as <-. cbn. apply Z.eqb_refl.
Qed.

Lemma dict_eqb_spec (d e : gmap string pyobj) :
  dict_eqb d e = true <->
  forall k, match d !! k, e !! k with
            | Some x, Some y => pyobj_eqb x y = true
            | None, None => True
            | _, _ => False
            end.
Proof.
  unfold dict_eqb. rewrite andb_true_iff, bool_decide_eq_true, forallb_forall. split.
  - intros [Hdom Hall] k.
    destruct (d !! k) as [x |] eqn:Hx.
    + specialize (Hall (k, x)). cbn in Hall.
      assert (Hin : In (k, x) (map_to_list d)).
      { apply list_elem_of_In. apply elem_of_map_to_list. exact Hx. }
      specialize (Hall Hin). destruct (e !! k); [exact Hall | discriminate].
    + assert (Hk : k ∉ dom e) by (rewrite <- Hdom; apply not_elem_of_dom; exact Hx).
      apply not_elem_of_dom in Hk. rewrite Hk. exact I.
  - intros Hall. split.
    + apply set_eq. intros k. rewrite !elem_of_dom. specialize (Hall k).
      destruct (d !! k), (e !! k); try contradiction; split; intros [? ?]; eauto.
    + intros [k x] Hin. cbn. apply list_elem_of_In in Hin.
      apply elem_of_map_to_list in Hin. specialize (Hall k). rewrite Hin in Hall.
      destruct (e !! k); [exact Hall | contradiction].
Qed.

Lemma coerce_all_lookup (d : gmap string pyobj) (k : string) :
  coerce_all d !! k = coerce d k <$> d !! k.
Proof.
  unfold coerce_all. rewrite map_lookup_imap. destruct (d !! k); reflexivity.
Qed.

Lemma coerce_other (d : gmap string pyobj) (k : string) (v : pyobj) :
  k <> "opcode" -> k <> "arg1" -> k <> "arg2_type" -> k <> "arg2" -> k <> "out" ->
  coerce d k v = v.
Proof.
  intros H1 H2 H3 H4 H5. unfold coerce.
  destruct (String.eqb_spec k "opcode"); [contradiction |].
  destruct (String.eqb_spec k "arg1"); [contradiction |].
  destruct (String.eqb_spec k "out"); [contradiction |].
  destruct (String.eqb_spec k "arg2_type"); [contradiction |].
  destruct (String.eqb_spec k "arg2"); [contradiction |].
  reflexivity.
Qed.

(** The loop body of [read_code] returns exactly on the readable
    instructions, and what it returns is the instruction with each field
    coerced. *)
Lemma read_instr_spec (d : gmap string pyobj) :
  match read_instr d with
  | Ok d' => readable d = true /\ d' = coerce_all d
  | _ => readable d = false
  end.
Proof.
  unfold read_instr, readable, dict_get, names_opcode, names_register.
  destruct (d !! "opcode") as [vo |] eqn:Hop; cbn [res_bind andb]; [| reflexivity].
  destruct (to_Opcode vo) as [o | |] eqn:Hto; cbn [res_bind andb]; try reflexivity.
  lookup_fields.
  destruct (d !! "arg1") as [va |] eqn:Ha1; cbn [res_bind andb].
  1: destruct (to_Register va) as [r1 | |] eqn:Hr1; cbn [res_bind andb];
       try reflexivity.
  all: lookup_fields.
  all: destruct (d !! "arg2_type") as [vt |] eqn:Hty; cbn [res_bind andb].
  all: try (destruct (to_OperandType vt) as [[|] | |] eqn:Ht; cbn [res_bind andb];
            try reflexivity).
  all: lookup_fields.
  all: try (match goal with |- context [match ?m !! "arg2" with _ => _ end] =>
              destruct (m !! "arg2") as [v2 |] eqn:Ha2; cbn [res_bind andb];
              try reflexivity end).
  all: try (match goal with |- context [res_bind (to_Register ?v)] =>
              destruct (to_Register v) as [r2 | |] eqn:Hr2; cbn [res_bind andb];
              try reflexivity end).
  all: try (match goal with |- context [res_bind (py_int ?v)] =>
              destruct (py_int v) as [z2 | |] eqn:Hz2; cbn [res_bind andb];
              try reflexivity end).
  all: lookup_fields.
  all: destruct (d !! "out") as [v3 |] eqn:Ho; cbn [res_bind andb].
  all: try (match goal with |- context [res_bind (to_Register ?v)] =>
              destruct (to_Register v) as [r3 | |] eqn:Hr3; cbn [res_bind andb];
              try reflexivity end).
  all: (split; [reflexivity |]).
  all: apply map_eq; intros k; rewrite coerce_all_lookup.
  all: destruct (decide (k = "opcode")) as [-> | Hk1];
         [lookup_fields; rewrite Hop; cbn; unfold coerce; cbn; rewrite Hto; reflexivity |].
  all: destruct (decide (k = "arg1")) as [-> | Hk2];
         [lookup_fields; rewrite Ha1; cbn; unfold coerce; cbn; rewrite ?Hr1; reflexivity |].
  all: destruct (decide (k = "arg2_type")) as [-> | Hk3];
         [lookup_fields; rewrite Hty; cbn; unfold coerce; cbn; rewrite ?Ht; reflexivity |].
  all: destruct (decide (k = "out")) as [-> | Hk5];
         [lookup_fields; rewrite Ho; cbn; unfold coerce; cbn; rewrite ?Hr3; reflexivity |].
  all: destruct (decide (k = "arg2")) as [-> | Hk4].
  all: repeat first
         [ rewrite lookup_insert_eq
         | rewrite lookup_insert_ne by congruence ].
  all: try (destruct (d !! k) as [v |]; cbn; [rewrite coerce_other by assumption |];
            reflexivity).
  all: rewrite ?Ha2; cbn; unfold coerce; cbn; rewrite Hty, ?Ht, ?Hr2, ?Hz2; try reflexivity.
  all: destruct (d !! "arg2"); reflexivity.
Qed.

(** *** Which instructions come back equal *)

Lemma names_opcode_plain (v : pyobj) : names_opcode (plain v) = names_opcode v.
Proof. unfold names_opcode. rewrite to_Opcode_plain. reflexivity. Qed.

Lemma names_register_plain (v : pyobj) : names_register (plain v) = names_register v.
Proof. unfold names_register. rewrite to_Register_plain. reflexivity. Qed.

Lemma is_int_readable (v : pyobj) :
  is_int v = true -> match py_int (plain v) with Ok _ => true | _ => false end = true.
Proof. destruct v; cbn; intros H; try discriminate; reflexivity. Qed.

(** An instruction that is kept is readable once written. *)
Lemma kept_instr_readable (d : gmap string pyobj) :
  kept_instr d = true -> readable (plain <$> d) = true.
Proof.
  unfold kept_instr, readable. rewrite !lookup_fmap.
  destruct (d !! "opcode") as [vo |]; cbn [fmap option_fmap option_map andb];
    [| discriminate].
  rewrite names_opcode_plain. destruct (names_opcode vo); cbn [andb]; [| discriminate].
  destruct (d !! "arg1") as [va |]; cbn [fmap option_fmap option_map andb];
    [rewrite names_register_plain; destruct (names_register va); cbn [andb];
     [| discriminate] |].
  all: destruct (d !! "out") as [v3 |]; cbn [fmap option_fmap option_map andb];
    [rewrite names_register_plain; destruct (names_register v3);
     rewrite ?andb_true_r, ?andb_false_r; [| discriminate] |].
  all: rewrite ?andb_true_r.
  all: destruct (d !! "arg2_type") as [vt |]; cbn [fmap option_fmap option_map];
    [| reflexivity].
  all: rewrite to_OperandType_plain.
  all: destruct (to_OperandType vt) as [[|] | |]; try discriminate.
  all: destruct (d !! "arg2") as [v2 |]; cbn [fmap option_fmap option_map];
    try discriminate.
  all: rewrite ?names_register_plain; try (intros H; exact H).
  all: apply is_int_readable.
Qed.

(** The immediate of a kept instruction is an integer. *)
Lemma kept_instr_const (d : gmap string pyobj) (t w : pyobj) :
  kept_instr d = true -> d !! "arg2_type" = Some t -> to_OperandType t = Ok CONSTANT ->
  d !! "arg2" = Some w -> is_int w = true.
Proof.
  unfold kept_instr. intros H Ht Hc Hw. rewrite Ht, Hc, Hw in H.
  apply andb_true_iff in H as [H _]. apply andb_true_iff in H as [_ H]. exact H.
Qed.

Lemma kept_instr_equal (d : gmap string pyobj) :
  kept_instr d = true -> dict_eqb (coerce_all (plain <$> d)) d = true.
Proof.
  intros Hk. apply dict_eqb_spec. intros k.
  rewrite coerce_all_lookup, lookup_fmap.
  destruct (d !! k) as [w |] eqn:Hw; cbn [fmap option_fmap option_map]; [| exact I].
  apply pyobj_eqb_coerce. intros -> t z Ht Hc _.
  rewrite lookup_fmap in Ht. destruct (d !! "arg2_type") as [t0 |] eqn:Ht0; [| discriminate].
  cbn in Ht. injection Ht as <-. rewrite to_OperandType_plain in Hc.
  exact (kept_instr_const d t0 w Hk Ht0 Hc Hw).
Qed.

(** A readable written instruction that comes back equal was kept. *)
Lemma readable_equal_kept (d : gmap string pyobj) :
  readable (plain <$> d) = true -> dict_eqb (coerce_all (plain <$> d)) d = true ->
  kept_instr d = true.
Proof.
  intros Hr Heq. rewrite dict_eqb_spec in Heq.
  specialize (Heq "arg2"). rewrite coerce_all_lookup, lookup_fmap in Heq.
  revert Hr Heq. unfold kept_instr, readable, coerce. rewrite !lookup_fmap.
  change (String.eqb "arg2" "opcode") with false.
  change (String.eqb "arg2" "arg1" || String.eqb "arg2" "out") with false.
  change (String.eqb "arg2" "arg2_type") with false.
  change (String.eqb "arg2" "arg2") with true. cbv iota.
  destruct (d !! "opcode") as [vo |]; cbn [fmap option_fmap option_map andb];
    [| discriminate].
  rewrite names_opcode_plain. destruct (names_opcode vo); cbn [andb]; [| discriminate].
  destruct (d !! "arg1") as [va |]; cbn [fmap option_fmap option_map andb];
    [rewrite names_register_plain; destruct (names_register va); cbn [andb];
     [| discriminate] |].
  all: destruct (d !! "out") as [v3 |]; cbn [fmap option_fmap option_map andb];
    [rewrite names_register_plain; destruct (names_register v3);
     rewrite ?andb_true_r, ?andb_false_r; [| discriminate] |].
  all: rewrite ?andb_true_r.
  all: destruct (d !! "arg2_type") as [vt |]; cbn [fmap option_fmap option_map];
    [| reflexivity].
  all: rewrite to_OperandType_plain.
  all: destruct (to_OperandType vt) as [[|] | |]; try discriminate.
  all: destruct (d !! "arg2") as [v2 |]; cbn [fmap option_fmap option_map];
    try discriminate.
  all: rewrite ?names_register_plain; try (intros H _; exact H).
  all: destruct (py_int (plain v2)) as [z | |]; try discriminate.
  all: intros _; apply pyobj_eqb_int.
Qed.

(** An instruction is kept exactly when [read_code] accepts what
    [write_code] wrote of it and returns an instruction equal to it. *)
Lemma kept_instr_spec (d : gmap string pyobj) :
  kept_instr d = true <->
  exists d', read_instr (plain <$> d) = Ok d' /\ dict_eqb d' d = true.
Proof.
  pose proof (read_instr_spec (plain <$> d)) as Hspec. split.
  - intros Hk. pose proof (kept_instr_readable d Hk) as Hr.
    destruct (read_instr (plain <$> d)) as [d' | e |]; try congruence.
    destruct Hspec as [_ ->]. eexists; split; [reflexivity |].
    apply kept_instr_equal, Hk.
  - intros (d' & Hd' & Heq). rewrite Hd' in Hspec. destruct Hspec as [Hr ->].
    apply readable_equal_kept; assumption.
Qed.

(** A data cell is an integer exactly when it comes back equal. *)
Lemma is_int_spec (w : pyobj) :
  is_int w = true <->
  exists y, res_bind (py_int (plain w)) (fun z => Ok (VInt z)) = Ok y /\
            pyobj_eqb y w = true.
Proof.
  split.
  - intros H. destruct (py_int_int w H) as (z & -> & _). exists (VInt z).
    split; [reflexivity | apply Z.eqb_refl].
  - intros (y & Hy & Heq). destruct (py_int (plain w)) as [z | |]; try discriminate.
    cbn in Hy. injection Hy as <-. exact (pyobj_eqb_int z w Heq).
Qed.

(** The two loops of [read_code], element by element. *)
Lemma mapM_equal_spec {A : Type} (f : A -> res A) (g : A -> A) (eqb : A -> A -> bool)
    (P : A -> bool) :
  (forall x, P x = true <-> exists y, f (g x) = Ok y /\ eqb y x = true) ->
  forall l, forallb P l = true <->
            exists l', mapM f (g <$> l) = Ok l' /\ list_eqb eqb l' l = true.
Proof.
  intros Hone. induction l as [| x l IH].
  - split; [intros _; exists []; split; reflexivity | reflexivity].
  - cbn [forallb]. rewrite andb_true_iff, Hone, IH. split.
    + intros [(y & Hy & Hxy) (l' & Hl' & Hll)]. exists (y :: l').
      change (mapM f (g <$> x :: l))
        with (res_bind (f (g x)) (fun y => res_bind (mapM f (g <$> l))
                                           (fun ys => Ok (y :: ys)))).
      rewrite Hy. cbn [res_bind]. rewrite Hl'. cbn [res_bind list_eqb].
      rewrite Hxy, Hll. split; reflexivity.
    + intros (l' & Hl' & Hll).
      change (mapM f (g <$> x :: l))
        with (res_bind (f (g x)) (fun y => res_bind (mapM f (g <$> l))
                                           (fun ys => Ok (y :: ys)))) in Hl'.
      destruct (f (g x)) as [y | |]; try discriminate. cbn [res_bind] in Hl'.
      destruct (mapM f (g <$> l)) as [ys | |]; try discriminate.
      cbn [res_bind] in Hl'. injection Hl' as <-. cbn [list_eqb] in Hll.
      apply andb_true_iff in Hll as [Hxy Hrest]. split; eauto.
Qed.

Lemma plain_example_kept : kept_artifact plain_example = true.
Proof. vm_compute. reflexivity. Qed.

(** C8, as amended: for an artifact whose values are integers, strings and
    members of the three enumerations, [read_code] applied to what
    [write_code] wrote of it returns an artifact equal to it (Python's [==],
    under which a member of a [str] enumeration equals the string of its
    value) exactly when every data cell is an integer and, in every
    instruction, [opcode] is present and names a member of [Opcode], [arg1]
    and [out] when present name members of [Register], and [arg2_type] when
    present names a member of [OperandType] with [arg2] present and,
    accordingly, naming a member of [Register] or being an integer.  For any
    other artifact [read_code] does not return an artifact equal to it.
    When moreover these fields are the members themselves and every other
    field is a plain string or integer, the artifact returned is that very
    artifact. *)
Theorem read_write_equal_iff (a : Artifact) (filename : string) (fs : files) :
  (kept_artifact a = true ->
   exists b, read_code filename (write_code filename a fs) = Ok b /\
             Artifact_eqb b a = true) /\
  (forall b, read_code filename (write_code filename a fs) = Ok b ->
             Artifact_eqb b a = true -> kept_artifact a = true) /\
  (typed_artifact a -> read_code filename (write_code filename a fs) = Ok a).
Proof.
  pose proof (mapM_equal_spec read_instr (fun d : gmap string pyobj => plain <$> d)
                dict_eqb kept_instr
                kept_instr_spec (art_code a)) as Hcode.
  pose proof (mapM_equal_spec (fun cell => res_bind (py_int cell) (fun z => Ok (VInt z)))
                plain pyobj_eqb is_int is_int_spec (art_data a)) as Hdata.
  split; [| split; [| apply read_write_typed]].
  - intros Hk. apply andb_true_iff in Hk as [Hc Hd].
    apply Hcode in Hc as (code & Hrc & Hec). apply Hdata in Hd as (data & Hrd & Hed).
    exists (mkArtifact code data).
    unfold read_code, write_code, files in *. rewrite lookup_insert_eq.
    unfold json_roundtrip. cbn [art_data art_code].
    rewrite Hrd. cbn [res_bind]. rewrite Hrc. cbn [res_bind].
    split; [reflexivity |]. unfold Artifact_eqb. cbn [art_data art_code].
    rewrite Hec, Hed. reflexivity.
  - intros b Hb Heq. unfold read_code, write_code, files in *.
    rewrite lookup_insert_eq in Hb. unfold json_roundtrip in Hb.
    cbn [art_data art_code] in Hb.
    destruct (mapM _ (plain <$> art_data a)) as [data | |] eqn:Hrd; try discriminate.
    cbn [res_bind] in Hb.
    destruct (mapM read_instr _) as [code | |] eqn:Hrc; try discriminate.
    cbn [res_bind] in Hb. injection Hb as <-.
    unfold Artifact_eqb in Heq. cbn [art_data art_code] in Heq.
    apply andb_true_iff in Heq as [Hec Hed].
    unfold kept_artifact. apply andb_true_iff. split.
    + apply Hcode. eauto.
    + apply Hdata. eauto.
Qed.

Lemma plain_example_read :
  read_code "prog" (write_code "prog" plain_example ∅) = Ok typed_example.
Proof. vm_compute. reflexivity. Qed.

Lemma typed_example_equal : Artifact_eqb typed_example plain_example = true.
Proof. vm_compute. reflexivity. Qed.

Lemma read_write_equal_iff_witness :
  (exists b, read_code "prog" (write_code "prog" plain_example ∅) = Ok b /\
             Artifact_eqb b plain_example = true) /\
  kept_artifact plain_example = true /\
  read_code "prog" (write_code "prog" typed_example ∅) = Ok typed_example.
Proof.
  split; [| split].
  - exact (proj1 (read_write_equal_iff plain_example "prog" ∅) plain_example_kept).
  - exact (proj1 (proj2 (read_write_equal_iff plain_example "prog" ∅))
             typed_example plain_example_read typed_example_equal).
  - exact (proj2 (proj2 (read_write_equal_iff typed_example "prog" ∅))
             typed_example_typed).
Defined.

Local Close Scope string_scope.

(** C8, as stated, fails for the artifact [translate] returns for the empty
    source: its data cell is the string ["0"], and [read_code] gives back
    the integer 0, which is not equal to it. *)
Lemma read_write_coerces_translated :
  ~ roundtrip_is_identity empty_program /\
  translate ""%string = Ok empty_program /\
  read_code "prog"%string (write_code "prog"%string empty_program ∅)
    = Ok empty_program_read /\
  Artifact_eqb empty_program_read empty_program = false.
Proof.
  assert (Hread : read_code "prog"%string (write_code "prog"%string empty_program ∅)
                  = Ok empty_program_read) by (vm_compute; reflexivity).
  split; [| split; [vm_compute; reflexivity | split; [exact Hread | vm_compute; reflexivity]]].
  intros Hclaim. specialize (Hclaim "prog"%string ∅). rewrite Hread in Hclaim.
  injection Hclaim as Hdata. discriminate.
Qed.


(** * Further properties of the translator and of the artifact files *)

(** ** The comment loop *)

Lemma term_app_middle (pre : list string) (t : string) (suf : list string) :
  term (length pre) (pre ++ t :: suf) = Ok t.
Proof.
  unfold term. rewrite lookup_app_r by lia. rewrite Nat.sub_diag. reflexivity.
Qed.

Lemma term_past_end (i : nat) (terms : list string) :
  (length terms <= i)%nat -> term i terms = Raise IndexError.
Proof. intros H. unfold term. rewrite lookup_ge_None_2 by exact H. reflexivity. Qed.

Lemma char_at_plain (t : string) :
  plain_term t = true ->
  exists c, PyStr.char_at 0 t = Ok c /\ (PyStr.code_of c =? 59)%nat = false.
Proof.
  destruct t as [| c t]; [discriminate |]. cbn. intros H. exists c.
  split; [reflexivity |]. destruct (PyStr.code_of c =? 59)%nat; [discriminate | reflexivity].
Qed.

Lemma char_at_comment (t : string) :
  starts_comment t = true ->
  exists c, PyStr.char_at 0 t = Ok c /\ (PyStr.code_of c =? 59)%nat = true.
Proof.
  destruct t as [| c t]; [discriminate |]. cbn. intros H. exists c. split; [reflexivity | exact H].
Qed.

(** The loop passes over terms that are not comments. *)
Lemma strip_comments_from_plain (mid : list string) :
  forall (pre suf : list string) (n : nat),
    Forall (fun t => plain_term t = true) mid ->
    strip_comments_from (length pre) (length mid + n) (pre ++ mid ++ suf)
    = strip_comments_from (length pre + length mid) n (pre ++ mid ++ suf).
Proof.
  induction mid as [| t mid IH]; intros pre suf n Hmid.
  - cbn. rewrite Nat.add_0_r. reflexivity.
  - inversion Hmid as [| ? ? Ht Hrest]; subst.
    cbn [length Nat.add strip_comments_from app].
    rewrite term_app_middle. cbn [res_bind].
    destruct (char_at_plain t Ht) as (c & Hc1 & Hc2).
    rewrite Hc1. cbn [res_bind]. rewrite Hc2.
    specialize (IH (pre ++ [t]) suf n Hrest).
    rewrite length_app in IH. cbn [length] in IH.
    rewrite <- !app_assoc in IH. cbn [app] in IH.
    replace (length pre + 1)%nat with (S (length pre)) in IH by lia.
    rewrite IH. f_equal. lia.
Qed.

Lemma strip_comments_from_cut (pre : list string) (c : string) (rest : list string) :
  starts_comment c = true ->
  strip_comments_from (length pre) (S (length rest)) (pre ++ c :: rest)
  = match rest with [] => Ok pre | _ => Raise IndexError end.
Proof.
  intros Hc. cbn [strip_comments_from]. rewrite term_app_middle. cbn [res_bind].
  destruct (char_at_comment c Hc) as (ch & Hc1 & Hc2).
  rewrite Hc1. cbn [res_bind]. rewrite Hc2.
  rewrite take_app_length.
  destruct rest as [| r rest]; [reflexivity |].
  cbn [length strip_comments_from]. rewrite term_past_end by lia. reflexivity.
Qed.

Lemma strip_comments_plain (terms : list string) :
  Forall (fun t => plain_term t = true) terms -> strip_comments terms = Ok terms.
Proof.
  intros H. unfold strip_comments.
  pose proof (strip_comments_from_plain terms [] [] 0 H) as Heq.
  cbn [length app Nat.add] in Heq. rewrite Nat.add_0_r, app_nil_r in Heq.
  rewrite Heq. reflexivity.
Qed.

Lemma strip_comments_comment (pre : list string) (c : string) (rest : list string) :
  Forall (fun t => plain_term t = true) pre ->
  starts_comment c = true ->
  strip_comments (pre ++ c :: rest)
  = match rest with [] => Ok pre | _ => Raise IndexError end.
Proof.
  intros Hpre Hc. unfold strip_comments.
  rewrite length_app. cbn [length].
  pose proof (strip_comments_from_plain pre [] (c :: rest) (S (length rest)) Hpre) as Heq.
  cbn [length app Nat.add] in Heq. rewrite Heq.
  apply strip_comments_from_cut. exact Hc.
Qed.

Lemma pass1_line_raises (v : locals) (line : string) (e : exn) :
  line <> ""%string ->
  strip_comments (drop_empty_head (PyStr.re_split line)) = Raise e ->
  pass1_line v line = Raise e.
Proof.
  intros Hline Hterms. unfold pass1_line.
  destruct (String.eqb_spec line ""); [contradiction |].
  rewrite Hterms. reflexivity.
Qed.

(** X21: the comment loop keeps a line whose terms are all non-empty and
    do not start with [;] as it is, and cuts a line at a term that starts
    with [;], the terms before it being non-empty and not starting with [;],
    only when that term is the last one: when another term follows it (a
    comment of two words, or code after the comment), the loop subscripts
    the shortened list past its end and [translate] raises [IndexError], for
    a line that the first loop reaches. *)
Theorem comment_must_be_last_term (script : string) (before after : list string)
    (line : string) (v : locals) (pre rest : list string) (c : string) :
  PyStr.split_lines script = before ++ line :: after ->
  pass1 before locals_init = Ok v ->
  line <> ""%string ->
  drop_empty_head (PyStr.re_split line) = pre ++ c :: rest ->
  Forall (fun t => plain_term t = true) pre ->
  starts_comment c = true ->
  strip_comments pre = Ok pre /\
  strip_comments (pre ++ [c]) = Ok pre /\
  (rest <> [] ->
   strip_comments (pre ++ c :: rest) = Raise IndexError /\
   translate script = Raise IndexError).
Proof.
  intros Hlines Hbefore Hline Hterms Hpre Hc. split_all.
  - apply strip_comments_plain. exact Hpre.
  - apply (strip_comments_comment pre c [] Hpre Hc).
  - intros Hrest.
    assert (Hcut : strip_comments (pre ++ c :: rest) = Raise IndexError).
    { rewrite (strip_comments_comment pre c rest Hpre Hc).
      destruct rest; [contradiction | reflexivity]. }
    split; [exact Hcut |].
    unfold translate. rewrite Hlines.
    rewrite (pass1_raise before after line locals_init v IndexError Hbefore);
      [reflexivity |].
    apply pass1_line_raises; [exact Hline |]. rewrite Hterms. exact Hcut.
Qed.

Lemma comment_must_be_last_term_witness :
  translate two_word_comment = Raise IndexError.
Proof.
  pose (v := set_state TEXT locals_init).
  refine (proj2 (proj2 (proj2 (comment_must_be_last_term two_word_comment
            ["section text"%string] [] "halt ; the end"%string v
            ["halt"%string] ["the"%string; "end"%string] ";"%string
            _ _ _ _ _ _)) _)).
  - reflexivity.
  - reflexivity.
  - discriminate.
  - reflexivity.
  - repeat constructor.
  - reflexivity.
  - discriminate.
Defined.

(** ** Whitespace at the end of a line *)

Lemma is_space_not_quote (c : ascii) : PyStr.is_space c = true -> PyStr.is_quote c = false.
Proof.
  unfold PyStr.is_space, PyStr.is_quote. intros H.
  destruct (Nat.eqb_spec (PyStr.code_of c) 39) as [E | _];
    [rewrite E in H; discriminate |].
  destruct (Nat.eqb_spec (PyStr.code_of c) 34) as [E | _];
    [rewrite E in H; discriminate |].
  reflexivity.
Qed.

Lemma count_quotes_app (s t : string) :
  PyStr.count_quotes (s ++ t) = (PyStr.count_quotes s + PyStr.count_quotes t)%nat.
Proof.
  induction s as [| c s IH]; [reflexivity |].
  change (PyStr.count_quotes (String c (s ++ t))
          = (PyStr.count_quotes (String c s) + PyStr.count_quotes t)%nat).
  cbn [PyStr.count_quotes]. rewrite IH. lia.
Qed.

(** A line without quotes that ends with a whitespace character splits
    into terms the last of which is empty. *)
Lemma re_split_from_trailing (sp : ascii) (s : string) :
  PyStr.is_space sp = true ->
  forall (cur : string) (run : bool),
    PyStr.count_quotes s = 0%nat ->
    (run = true -> cur = ""%string) ->
    exists l,
      PyStr.re_split_from (s ++ String sp "") cur run = l ++ [""%string] /\
      (run = false -> l <> []).
Proof.
  intros Hsp. induction s as [| c s IH]; intros cur run Hq Hrun.
  - change (("" ++ String sp "")%string) with (String sp "").
    cbn [PyStr.re_split_from]. rewrite Hsp. destruct run.
    + exists []. rewrite (Hrun eq_refl). split; [reflexivity | discriminate].
    + exists [cur]. split; [reflexivity | discriminate].
  - cbn [PyStr.count_quotes] in Hq.
    assert (Hq' : PyStr.count_quotes s = 0%nat) by lia.
    assert (Hqsp : PyStr.count_quotes (s ++ String sp "") = 0%nat).
    { rewrite count_quotes_app, Hq'. cbn [PyStr.count_quotes].
      rewrite (is_space_not_quote sp Hsp). reflexivity. }
    change ((String c s ++ String sp "")%string) with (String c (s ++ String sp "")).
    cbn [PyStr.re_split_from].
    destruct (PyStr.is_space c).
    + destruct run.
      * destruct (IH cur true Hq' Hrun) as (l & Hl & _).
        exists l. split; [exact Hl | discriminate].
      * rewrite Hqsp. cbn [Nat.even].
        destruct (IH ""%string true Hq' (fun _ => eq_refl)) as (l & Hl & _).
        exists (cur :: l). rewrite Hl. split; [reflexivity | discriminate].
    + destruct (IH (PyStr.snoc cur c) false Hq' ltac:(discriminate)) as (l & Hl & Hne).
      exists l. split; [exact Hl |]. intros _. apply Hne. reflexivity.
Qed.

(** The comment loop cannot get past an empty last term. *)
Lemma strip_comments_from_empty_last (suf : list string) :
  forall pre : list string,
    strip_comments_from (length pre) (length suf + 1) (pre ++ suf ++ [""%string])
    = Raise IndexError.
Proof.
  induction suf as [| t suf IH]; intros pre.
  - cbn [length Nat.add app strip_comments_from].
    rewrite term_app_middle. reflexivity.
  - cbn [length Nat.add app strip_comments_from].
    rewrite term_app_middle. cbn [res_bind].
    destruct t as [| c t]; [reflexivity |].
    cbn [PyStr.char_at String.get res_bind].
    destruct (PyStr.code_of c =? 59)%nat.
    + rewrite take_app_length. rewrite Nat.add_1_r.
      cbn [strip_comments_from]. rewrite term_past_end by lia. reflexivity.
    + specialize (IH (pre ++ [String c t])).
      rewrite length_app in IH. cbn [length] in IH.
      rewrite <- !app_assoc in IH. cbn [app] in IH.
      replace (length pre + 1)%nat with (S (length pre)) in IH by lia.
      exact IH.
Qed.

Lemma strip_comments_empty_last (terms : list string) :
  strip_comments (terms ++ [""%string]) = Raise IndexError.
Proof.
  unfold strip_comments. rewrite length_app. cbn [length].
  exact (strip_comments_from_empty_last terms []).
Qed.

(** X22: a line without quote characters that ends with a whitespace
    character (a mnemonic line with a trailing space, or a line of blanks)
    makes the first loop raise [IndexError]: the split leaves an empty last
    term, and the comment loop subscripts its first character.  [translate]
    raises [IndexError] for a source in which such a line follows lines the
    first loop has accepted. *)
Theorem trailing_whitespace_is_fatal (script : string) (before after : list string)
    (body : string) (sp : ascii) (v : locals) :
  PyStr.split_lines script = before ++ (body ++ String sp "")%string :: after ->
  pass1 before locals_init = Ok v ->
  PyStr.is_space sp = true ->
  PyStr.count_quotes body = 0%nat ->
  pass1_line v (body ++ String sp "") = Raise IndexError /\
  translate script = Raise IndexError.
Proof.
  intros Hlines Hbefore Hsp Hq.
  assert (Hraise : pass1_line v (body ++ String sp "") = Raise IndexError).
  { apply pass1_line_raises; [destruct body; discriminate |].
    unfold PyStr.re_split.
    destruct (re_split_from_trailing sp body Hsp ""%string false Hq ltac:(discriminate))
      as (l & -> & Hne).
    destruct l as [| t l]; [exfalso; apply Hne; reflexivity |].
    cbn [app drop_empty_head].
    destruct (String.eqb t ""); [apply strip_comments_empty_last |].
    apply (strip_comments_empty_last (t :: l)). }
  split; [exact Hraise |].
  unfold translate. rewrite Hlines.
  rewrite (pass1_raise before after _ locals_init v IndexError Hbefore Hraise).
  reflexivity.
Qed.

Lemma trailing_whitespace_is_fatal_witness :
  translate trailing_space = Raise IndexError.
Proof.
  exact (proj2 (trailing_whitespace_is_fatal trailing_space
                  ["section text"%string] [] "halt"%string " "%char
                  (set_state TEXT locals_init)
                  eq_refl eq_refl eq_refl eq_refl)).
Defined.

(** ** The data section *)

Lemma foldl_hang {A B} (f : B -> A -> res B) (l : list A) :
  foldl (fun r x => res_bind r (fun v => f v x)) Hang l = Hang.
Proof. induction l as [| x l IH]; [reflexivity | exact IH]. Qed.

Lemma foldl_invariant {A B} (f : B -> A -> res B) (I : B -> Prop) (l : list A) :
  (forall v x v', f v x = Ok v' -> I v -> I v') ->
  forall v0 v,
    foldl (fun r x => res_bind r (fun v => f v x)) (Ok v0) l = Ok v -> I v0 -> I v.
Proof.
  intros Hf. induction l as [| x l IH]; intros v0 v Hrun H0.
  - injection Hrun as <-. exact H0.
  - cbn in Hrun. destruct (f v0 x) as [v1 | e |] eqn:Hstep.
    + exact (IH v1 v Hrun (Hf v0 x v1 Hstep H0)).
    + rewrite foldl_raise in Hrun. discriminate.
    + rewrite foldl_hang in Hrun. discriminate.
Qed.

Lemma isdigit_str_of_code (c : ascii) :
  PyStr.isdigit (PyStr.str_of_nat (PyStr.code_of c)) = true.
Proof. destruct c as [[] [] [] [] [] [] [] []]; vm_compute; reflexivity. Qed.

Ltac crunch H :=
  repeat (match type of H with
          | context [match ?x with _ => _ end] => destruct x eqn:?
          | context [if ?b then _ else _] => destruct b eqn:?
          end; try discriminate H).

Lemma append_data_invariant (cell : string) (v : locals) :
  PyStr.isdigit cell = true -> data_invariant v -> data_invariant (append_data cell v).
Proof.
  intros Hcell (Hne & Hall & Hcnt). unfold data_invariant. cbn. split_all.
  - intros H. apply app_eq_nil in H as [_ H]. discriminate.
  - apply Forall_app. split; [exact Hall | repeat constructor; exact Hcell].
  - rewrite length_app, Hcnt. cbn. lia.
Qed.

Lemma pass1_line_data (v : locals) (line : string) (v' : locals) :
  pass1_line v line = Ok v' -> data_invariant v -> data_invariant v'.
Proof.
  intros Hrun Hinv. unfold pass1_line, section_line, res_bind in Hrun.
  crunch Hrun; injection Hrun as <-; try exact Hinv.
  - apply append_data_invariant; [apply isdigit_str_of_code | exact Hinv].
  - apply append_data_invariant; [| exact Hinv].
    match goal with H : negb (PyStr.isdigit _) = false |- _ =>
      apply negb_false_iff in H; exact H end.
Qed.

Lemma pass2_line_data (v : locals) (line : string) (v' : locals) :
  pass2_line v line = Ok v' -> data_invariant v -> data_invariant v'.
Proof.
  intros Hrun Hinv.
  unfold pass2_line, pass2_terms, section_line, res_bind in Hrun.
  crunch Hrun; injection Hrun as <-; try exact Hinv.
  all: try match goal with
    | H : py_setitem _ _ ?t = Ok ?d, Hd : negb (PyStr.isdigit ?t) = false |- _ =>
        unfold py_setitem, res_bind in H;
        destruct (py_index _ _) as [j | |]; try discriminate;
        injection H as <-; apply negb_false_iff in Hd;
        destruct Hinv as (Hne & Hall & Hcnt); unfold data_invariant; cbn;
        split_all;
        [ intros Hnil; apply Hne; apply (f_equal length) in Hnil;
          rewrite length_insert in Hnil; destruct (data v); [reflexivity | discriminate]
        | apply Forall_insert; assumption
        | rewrite length_insert; exact Hcnt ]
    end.
Qed.

(** X23: the data of every artifact [translate] returns is a non-empty
    list of strings each of which satisfies [str.isdigit]: the interrupt
    vector cell first, then one cell for each [word] line (a character
    literal is stored as the digits of its code point). *)
Theorem translated_data_are_digit_strings (script : string) (a : Artifact) :
  translate script = Ok a ->
  exists cells,
    art_data a = VStr <$> cells /\
    cells <> [] /\
    Forall (fun s => PyStr.isdigit s = true) cells.
Proof.
  unfold translate. intros Hrun.
  destruct (pass1 _ _) as [v1 | e |] eqn:H1; try discriminate. cbn [res_bind] in Hrun.
  destruct (pass2 _ _) as [v2 | e |] eqn:H2; try discriminate. cbn [res_bind] in Hrun.
  injection Hrun as <-.
  assert (Hinit : data_invariant locals_init).
  { unfold data_invariant. cbn. split_all; [discriminate | repeat constructor | reflexivity]. }
  pose proof (foldl_invariant pass1_line data_invariant _ pass1_line_data _ _ H1 Hinit)
    as Hinv1.
  assert (Hinv1' : data_invariant (reset_instr_count v1)) by exact Hinv1.
  pose proof (foldl_invariant pass2_line data_invariant _ pass2_line_data _ _ H2 Hinv1')
    as (Hne & Hall & _).
  exists (data v2). split_all; [reflexivity | exact Hne | exact Hall].
Qed.

Lemma translated_data_are_digit_strings_witness :
  exists a cells,
    translate echo_source = Ok a /\ art_data a = VStr <$> cells /\ cells <> [].
Proof.
  assert (Hrun : exists a, translate echo_source = Ok a)
    by (vm_compute; eexists; reflexivity).
  destruct Hrun as [a Hrun].
  destruct (translated_data_are_digit_strings echo_source a Hrun) as (cells & Hd & Hne & _).
  exists a, cells. split_all; assumption.
Defined.

(** ** The exceptions of the translator *)

Lemma term_raises (i : nat) (terms : list string) (e : exn) :
  term i terms = Raise e -> e = IndexError.
Proof. unfold term. destruct (terms !! i); intros H; [discriminate | congruence]. Qed.

Lemma char_at_raises (i : nat) (s : string) (e : exn) :
  PyStr.char_at i s = Raise e -> e = IndexError.
Proof.
  unfold PyStr.char_at. destruct (String.get i s); intros H; [discriminate | congruence].
Qed.

Lemma strip_comments_from_raises (n : nat) :
  forall (i : nat) (terms : list string) (e : exn),
    strip_comments_from i n terms = Raise e -> e = IndexError.
Proof.
  induction n as [| n IH]; intros i terms e H; cbn [strip_comments_from] in H;
    [discriminate |].
  destruct (term i terms) as [t | e0 |] eqn:Ht; cbn [res_bind] in H; try discriminate.
  - destruct (PyStr.char_at 0 t) as [c | e0 |] eqn:Hc; cbn [res_bind] in H;
      try discriminate.
    + exact (IH _ _ _ H).
    + injection H as <-. exact (char_at_raises _ _ _ Hc).
  - injection H as <-. exact (term_raises _ _ _ Ht).
Qed.

Lemma strip_comments_raises (terms : list string) (e : exn) :
  strip_comments terms = Raise e -> e = IndexError.
Proof. apply strip_comments_from_raises. Qed.

Lemma is_label_line_raises (terms : list string) (e : exn) :
  is_label_line terms = Raise e -> e = IndexError.
Proof.
  unfold is_label_line, PyStr.last_char. intros H.
  destruct terms as [| t [| t' terms]]; try discriminate.
  destruct (String.length t); cbn [res_bind] in H; [congruence |].
  destruct (PyStr.char_at n t) eqn:Hc; cbn [res_bind] in H; try discriminate.
  injection H as <-. exact (char_at_raises _ _ _ Hc).
Qed.

Lemma section_line_raises (terms : list string) (v : locals) (e : exn) :
  section_line terms v = Raise e -> translator_error e.
Proof.
  unfold section_line. intros H.
  destruct (term 1 terms) as [name | e0 |] eqn:Ht; cbn [res_bind] in H; try discriminate.
  - destruct (str2section name); [discriminate |]. injection H as <-. exact I.
  - injection H as <-. rewrite (term_raises _ _ _ Ht). exact I.
Qed.

Lemma mapM_raises {A B} (f : A -> res B) (Q : exn -> Prop) (l : list A) (e : exn) :
  (forall x e, f x = Raise e -> Q e) -> mapM f l = Raise e -> Q e.
Proof.
  intros Hf. induction l as [| x l IH]; cbn; [discriminate |].
  destruct (f x) as [y | e0 |] eqn:Hx; cbn; try discriminate.
  - destruct (mapM f l) as [ys | e1 |]; cbn; try discriminate.
    intros [= <-]. apply IH. reflexivity.
  - intros [= <-]. exact (Hf x e0 Hx).
Qed.

Lemma resolve_term_raises (v : locals) (command : Opcode) (t : string) (e : exn) :
  resolve_term v command t = Raise e -> translator_error e.
Proof.
  unfold resolve_term. intros H.
  destruct (labels v !! t) as [n |]; cbn [res_bind] in H.
  - destruct (_ && _); [injection H as <-; exact I | discriminate].
  - destruct (data_labels v !! t) as [n |].
    + destruct (_ || _); cbn [res_bind] in H; [| injection H as <-; exact I].
      destruct (_ && _); [injection H as <-; exact I | discriminate].
    + cbn [res_bind] in H.
      destruct (_ && _); [injection H as <-; exact I | discriminate].
Qed.

Lemma resolve_terms_raises (v : locals) (command : Opcode) (terms : list string)
    (e : exn) :
  resolve_terms v command terms = Raise e -> translator_error e.
Proof.
  unfold resolve_terms. destruct terms as [| t0 rest]; [discriminate |].
  destruct (mapM _ rest) as [r | e0 |] eqn:Hm; cbn; try discriminate.
  intros [= <-].
  exact (mapM_raises _ translator_error rest e0 (resolve_term_raises v command) Hm).
Qed.

Lemma str2opcode_not_declare (s : string) : str2opcode s <> Some DECLARE.
Proof.
  unfold str2opcode. cbn [List.find Opcode_value].
  repeat (destruct (String.eqb _ s); [discriminate |]). discriminate.
Qed.

Lemma lower_raises (command : Opcode) (terms : list string) (e : exn) :
  command <> DECLARE -> lower command terms = Raise e -> translator_error e.
Proof.
  intros Hcmd H. unfold lower in H.
  destruct command; try contradiction; try discriminate H;
    crunch H; injection H as <-; exact I.
Qed.

Lemma int_of_string_raises (s : string) (e : exn) :
  PyStr.int_of_string s = Raise e -> e = ValueError.
Proof.
  unfold PyStr.int_of_string. intros H.
  destruct (match PyStr.strip_int s with
            | String c r => _
            | EmptyString => _
            end) as [neg body].
  destruct (PyStr.literal_digits body false); [discriminate | congruence].
Qed.

Lemma py_setitem_raises {A} (l : list A) (i : pyval) (x : A) (e : exn) :
  py_setitem l i x = Raise e -> e = IndexError \/ e = TypeError.
Proof.
  unfold py_setitem, py_index. intros H.
  destruct i; cbn in H; [| right; congruence].
  destruct (_ && _); cbn in H; [discriminate | left; congruence].
Qed.

Lemma pass1_line_raises_only (v : locals) (line : string) (e : exn) :
  pass1_line v line = Raise e -> translator_error e.
Proof.
  intros H. unfold pass1_line in H.
  destruct (String.eqb line ""); [discriminate |].
  destruct (strip_comments _) as [terms | e0 |] eqn:Hs; cbn [res_bind] in H;
    try discriminate;
    [| injection H as <-; rewrite (strip_comments_raises _ _ Hs); exact I].
  destruct (term 0 terms) as [t0 | e0 |] eqn:Ht; cbn [res_bind] in H;
    try discriminate;
    [| injection H as <-; rewrite (term_raises _ _ _ Ht); exact I].
  destruct (String.eqb t0 "section"); [exact (section_line_raises _ _ _ H) |].
  destruct (_ || _); [injection H as <-; exact I |].
  destruct (state v) as [[|] |]; [| | injection H as <-; exact I].
  - destruct (is_label_line terms) as [lbl | e0 |] eqn:Hl; cbn [res_bind] in H;
      try discriminate;
      [| injection H as <-; rewrite (is_label_line_raises _ _ Hl); exact I].
    destruct lbl; [discriminate |].
    destruct (String.eqb t0 "word").
    + destruct (negb _); [injection H as <-; exact I |].
      destruct (term 1 terms) as [t1 | e0 |] eqn:Ht1; cbn [res_bind] in H;
        try discriminate;
        [| injection H as <-; rewrite (term_raises _ _ _ Ht1); exact I].
      destruct (PyStr.is_char_literal t1); [discriminate |].
      destruct (negb _); [injection H as <-; exact I | discriminate].
    + destruct (String.eqb t0 "int"); [discriminate | injection H as <-; exact I].
  - destruct (is_label_line terms) as [lbl | e0 |] eqn:Hl; cbn [res_bind] in H;
      try discriminate;
      [| injection H as <-; rewrite (is_label_line_raises _ _ Hl); exact I].
    destruct lbl; discriminate.
Qed.

Lemma pass2_terms_raises_only (v : locals) (terms : list string) (e : exn) :
  pass2_terms v terms = Raise e -> translator_error e.
Proof.
  intros H. unfold pass2_terms in H.
  destruct (strip_comments terms) as [terms' | e0 |] eqn:Hs; cbn [res_bind] in H;
    try discriminate;
    [| injection H as <-; rewrite (strip_comments_raises _ _ Hs); exact I].
  destruct (term 0 terms') as [t0 | e0 |] eqn:Ht; cbn [res_bind] in H;
    try discriminate;
    [| injection H as <-; rewrite (term_raises _ _ _ Ht); exact I].
  destruct (String.eqb t0 "section"); [exact (section_line_raises _ _ _ H) |].
  destruct (state v) as [[|] |]; [| | injection H as <-; exact I].
  - destruct (String.eqb t0 "int"); [| discriminate].
    destruct (negb (length _ =? 3)%nat); [injection H as <-; exact I |].
    destruct (negb (PyStr.isdigit _)); [injection H as <-; exact I |].
    destruct (PyStr.int_of_string _) as [n | e0 |] eqn:Hn; cbn [res_bind] in H;
      try discriminate;
      [| injection H as <-; rewrite (int_of_string_raises _ _ Hn); exact I].
    destruct (_ <? n); [injection H as <-; exact I |].
    destruct (negb (PyStr.isdigit _)); [injection H as <-; exact I |].
    destruct (py_setitem _ _ _) as [d | e0 |] eqn:Hd; cbn [res_bind] in H;
      try discriminate.
    injection H as <-. destruct (py_setitem_raises _ _ _ _ Hd) as [-> | ->]; exact I.
  - destruct (is_label_line terms') as [lbl | e0 |] eqn:Hl; cbn [res_bind] in H;
      try discriminate;
      [| injection H as <-; rewrite (is_label_line_raises _ _ Hl); exact I].
    destruct lbl; [discriminate |].
    destruct (str2opcode t0) as [command |] eqn:Hcmd; [| injection H as <-; exact I].
    destruct (resolve_terms v command terms') as [terms'' | e0 |] eqn:Hr;
      cbn [res_bind] in H; try discriminate;
      [| injection H as <-; exact (resolve_terms_raises _ _ _ _ Hr)].
    destruct (lower command terms'') as [i | e0 |] eqn:Hlow; cbn [res_bind] in H;
      try discriminate.
    injection H as <-. apply (lower_raises command terms'' e0); [| exact Hlow].
    intros ->. exact (str2opcode_not_declare t0 Hcmd).
Qed.

Lemma pass2_line_raises_only (v : locals) (line : string) (e : exn) :
  pass2_line v line = Raise e -> translator_error e.
Proof.
  unfold pass2_line. destruct (String.eqb line ""); [discriminate |].
  destruct (drop_empty_head _) as [| t [| t' terms]]; [discriminate | |].
  - destruct (String.eqb t ""); [discriminate | apply pass2_terms_raises_only].
  - apply pass2_terms_raises_only.
Qed.

Lemma foldl_raises_only {A B} (f : B -> A -> res B) (Q : exn -> Prop) (l : list A) :
  (forall v x e, f v x = Raise e -> Q e) ->
  forall v0 e,
    foldl (fun r x => res_bind r (fun v => f v x)) (Ok v0) l = Raise e -> Q e.
Proof.
  intros Hf. induction l as [| x l IH]; intros v0 e Hrun; [discriminate |].
  cbn in Hrun. destruct (f v0 x) as [v1 | e0 |] eqn:Hstep.
  - exact (IH v1 e Hrun).
  - rewrite foldl_raise in Hrun. injection Hrun as <-. exact (Hf v0 x e0 Hstep).
  - rewrite foldl_hang in Hrun. discriminate.
Qed.

Lemma pass2_raise (pre post : list string) (line : string) (v0 v : locals) (e : exn) :
  pass2 pre v0 = Ok v -> pass2_line v line = Raise e ->
  pass2 (pre ++ line :: post) v0 = Raise e.
Proof.
  unfold pass2. intros Hpre Hline. rewrite foldl_app. cbn. rewrite Hpre. cbn.
  rewrite Hline. apply foldl_raise.
Qed.

Lemma translate_raises_only (script : string) (e : exn) :
  translate script = Raise e -> translator_error e.
Proof.
  unfold translate. intros H.
  destruct (pass1 _ _) as [w1 | e1 |] eqn:Hp1; cbn [res_bind] in H; try discriminate.
  - destruct (pass2 _ _) as [w2 | e2 |] eqn:Hp2; cbn [res_bind] in H; try discriminate.
    injection H as <-.
    exact (foldl_raises_only pass2_line translator_error _ pass2_line_raises_only
             _ _ Hp2).
  - injection H as <-.
    exact (foldl_raises_only pass1_line translator_error _ pass1_line_raises_only
             _ _ Hp1).
Qed.

(** X24: [translate] never raises the [SyntaxError]s "unknown command"
    and "translator does not support command": the mnemonic is looked up in
    [str2opcode] by subscript before the membership test, so for a line of
    the text section that the second loop reaches and whose first term is not
    a mnemonic, [translate] raises [KeyError]. *)
Theorem unknown_mnemonic_raises_key_error (script : string) (before after : list string)
    (line : string) (v1 v : locals) (t : string) (rest terms : list string) (t0 : string) :
  PyStr.split_lines script = before ++ line :: after ->
  pass1 (PyStr.split_lines script) locals_init = Ok v1 ->
  pass2 before (reset_instr_count v1) = Ok v ->
  state v = Some TEXT ->
  line <> ""%string ->
  drop_empty_head (PyStr.re_split (PyStr.strip line)) = t :: rest ->
  t <> ""%string ->
  strip_comments (t :: rest) = Ok terms ->
  term 0 terms = Ok t0 ->
  t0 <> "section"%string ->
  is_label_line terms = Ok false ->
  str2opcode t0 = None ->
  translate script = Raise KeyError /\
  forall script' e, translate script' = Raise e -> translator_error e.
Proof.
  intros Hlines H1 H2 Hstate Hline Hsplit Ht Hterms Ht0 Hsec Hlbl Hcmd. split.
  - assert (Hraise : pass2_line v line = Raise KeyError).
    { unfold pass2_line. destruct (String.eqb_spec line ""); [contradiction |].
      rewrite Hsplit.
      assert (Hgo : pass2_terms v (t :: rest) = Raise KeyError).
      { unfold pass2_terms. rewrite Hterms. cbn [res_bind]. rewrite Ht0. cbn [res_bind].
        destruct (String.eqb_spec t0 "section"); [contradiction |].
        rewrite Hstate, Hlbl. cbn [res_bind]. rewrite Hcmd. reflexivity. }
      destruct rest; [| exact Hgo].
      destruct (String.eqb_spec t ""); [contradiction | exact Hgo]. }
    unfold translate. rewrite H1. cbn [res_bind]. rewrite Hlines.
    rewrite (pass2_raise before after line _ v KeyError H2 Hraise). reflexivity.
  - exact translate_raises_only.
Qed.

Lemma unknown_mnemonic_raises_key_error_witness :
  translate unknown_mnemonic = Raise KeyError.
Proof.
  refine (proj1 (unknown_mnemonic_raises_key_error unknown_mnemonic
                   ["section text"%string] [] "nop"%string
                   (incr_instr_count (set_state TEXT locals_init))
                   (set_state TEXT (reset_instr_count
                      (incr_instr_count (set_state TEXT locals_init))))
                   "nop"%string [] ["nop"%string] "nop"%string
                   _ _ _ _ _ _ _ _ _ _ _ _)).
  all: try reflexivity; discriminate.
Defined.

(** ** What [read_code] returns *)

Lemma plain_plain (v : pyobj) : is_plain (plain v) = true.
Proof. destruct v; reflexivity. Qed.

Lemma mapM_Ok {A B} (f : A -> res B) (l : list A) (l' : list B) :
  mapM f l = Ok l' -> Forall2 (fun x y => f x = Ok y) l l'.
Proof.
  revert l'. induction l as [| x l IH]; intros l'; cbn.
  - intros [= <-]. constructor.
  - destruct (f x) as [y | |] eqn:Hx; cbn; try discriminate.
    destruct (mapM f l) as [ys | |]; cbn; try discriminate.
    intros [= <-]. constructor; [exact Hx | apply IH; reflexivity].
Qed.

Lemma typed_field_plain (d : gmap string pyobj) (k : string) (v : pyobj) :
  k <> "opcode"%string -> k <> "arg1"%string -> k <> "arg2_type"%string ->
  k <> "arg2"%string -> k <> "out"%string ->
  is_plain v = true -> typed_field d k v = true.
Proof.
  intros H1 H2 H3 H4 H5 Hv. unfold typed_field.
  destruct (String.eqb_spec k "opcode"); [contradiction |].
  destruct (String.eqb_spec k "arg1"); [contradiction |].
  destruct (String.eqb_spec k "out"); [contradiction |].
  destruct (String.eqb_spec k "arg2_type"); [contradiction |].
  destruct (String.eqb_spec k "arg2"); [contradiction |].
  exact Hv.
Qed.

Ltac simp_lookup H :=
  repeat first
    [ rewrite lookup_insert_eq in H
    | rewrite lookup_insert_ne in H by discriminate ].

Lemma read_instr_result_typed (d d' : gmap string pyobj) :
  (forall k v, d !! k = Some v -> is_plain v = true) ->
  read_instr d = Ok d' -> typed_instr d'.
Proof.
  intros Hplain H. unfold read_instr, dict_get in H.
  destruct (d !! "opcode"%string) as [vo |] eqn:Hop; cbn [res_bind] in H;
    try discriminate.
  destruct (to_Opcode vo) as [o | |] eqn:Hto; cbn [res_bind] in H; try discriminate.
  simp_lookup H.
  destruct (d !! "arg1"%string) as [va |] eqn:Ha1; cbn [res_bind] in H.
  1: destruct (to_Register va) as [r1 | |] eqn:Hr1; cbn [res_bind] in H;
       try discriminate.
  all: simp_lookup H.
  all: destruct (d !! "arg2_type"%string) as [vt |] eqn:Hty; cbn [res_bind] in H.
  all: try (destruct (to_OperandType vt) as [[|] | |] eqn:Ht; cbn [res_bind] in H;
            try discriminate).
  all: simp_lookup H.
  all: try (destruct (d !! "arg2"%string) as [v2 |] eqn:Ha2; cbn [res_bind] in H;
            try discriminate).
  all: try (match type of H with context [res_bind (to_Register ?x)] =>
              destruct (to_Register x) as [r2 | |] eqn:Hr2; cbn [res_bind] in H;
              try discriminate end).
  all: try (match type of H with context [res_bind (py_int ?x)] =>
              destruct (py_int x) as [z2 | |] eqn:Hz2; cbn [res_bind] in H;
              try discriminate end).
  all: simp_lookup H.
  all: destruct (d !! "out"%string) as [v3 |] eqn:Ho; cbn [res_bind] in H.
  all: try (match type of H with context [res_bind (to_Register ?x)] =>
              destruct (to_Register x) as [r3 | |] eqn:Hr3; cbn [res_bind] in H;
              try discriminate end).
  all: injection H as <-.
  all: unfold typed_instr; split_all.
  all: try (lookup_fields; eexists; reflexivity).
  all: try (lookup_fields; rewrite ?Hty; intros [x Hx]; try discriminate Hx;
            rewrite ?Ha2; eexists; reflexivity).
  all: intros k v Hkv.
  all: destruct (decide (k = "opcode"%string)) as [-> | Hk1];
         [simp_lookup Hkv; injection Hkv as <-; reflexivity |].
  all: destruct (decide (k = "arg1"%string)) as [-> | Hk2];
         [simp_lookup Hkv; rewrite ?Ha1 in Hkv; try discriminate Hkv;
          injection Hkv as <-; reflexivity |].
  all: destruct (decide (k = "arg2_type"%string)) as [-> | Hk3];
         [simp_lookup Hkv; rewrite ?Hty in Hkv; try discriminate Hkv;
          injection Hkv as <-; reflexivity |].
  all: destruct (decide (k = "out"%string)) as [-> | Hk5];
         [simp_lookup Hkv; rewrite ?Ho in Hkv; try discriminate Hkv;
          injection Hkv as <-; reflexivity |].
  all: destruct (decide (k = "arg2"%string)) as [-> | Hk4].
  all: repeat first
         [ rewrite lookup_insert_eq in Hkv
         | rewrite lookup_insert_ne in Hkv by congruence ].
  all: try (apply typed_field_plain; try assumption; exact (Hplain k v Hkv)).
  all: unfold typed_field; cbn [String.eqb Ascii.eqb Bool.eqb orb]; lookup_fields;
       rewrite ?Hty.
  all: try (injection Hkv as <-; reflexivity).
  all: try (rewrite ?Ha2 in Hkv; discriminate Hkv).
  all: exact (Hplain _ _ Hkv).
Qed.

Lemma read_code_result_typed_instrs (docs code' : list (gmap string pyobj)) :
  Forall (fun d : gmap string pyobj => forall k v, d !! k = Some v -> is_plain v = true)
    docs ->
  mapM read_instr docs = Ok code' -> Forall typed_instr code'.
Proof.
  intros Hplain Hrun. apply mapM_Ok in Hrun.
  induction Hrun as [| d d' docs code' Hd Hrest IH]; [constructor |].
  inversion Hplain as [| ? ? Hd0 Hdocs]; subst.
  constructor; [exact (read_instr_result_typed d d' Hd0 Hd) | exact (IH Hdocs)].
Qed.

Lemma read_code_result_typed_data (cells data' : list pyobj) :
  mapM (fun cell => res_bind (py_int cell) (fun z => Ok (VInt z))) cells = Ok data' ->
  Forall (fun v => exists z, v = VInt z) data'.
Proof.
  intros Hrun. apply mapM_Ok in Hrun.
  induction Hrun as [| c c' cells data' Hc Hrest IH]; [constructor |].
  constructor; [| exact IH].
  destruct (py_int c) as [z | |]; cbn in Hc; try discriminate.
  injection Hc as <-. eauto.
Qed.

(** X25: whatever [read_code] returns for a file written by [write_code]
    is typed: every opcode is a member of [Opcode], [arg1] and [out] are
    members of [Register], [arg2] is a register or an integer as [arg2_type]
    says, and every data cell is an integer.  Hence writing the result and
    reading it again returns it unchanged: after one reading the round trip
    is the identity. *)
Theorem read_code_result_is_typed (a b : Artifact) (filename : string) (fs : files) :
  read_code filename (write_code filename a fs) = Ok b ->
  typed_artifact b /\
  forall filename' fs', read_code filename' (write_code filename' b fs') = Ok b.
Proof.
  intros Hrun.
  assert (Htyped : typed_artifact b).
  { unfold read_code, write_code, files in *. rewrite lookup_insert_eq in Hrun.
    unfold json_roundtrip in Hrun. cbn [art_data art_code] in Hrun.
    destruct (mapM _ (plain <$> art_data a)) as [data' | |] eqn:Hdata;
      cbn [res_bind] in Hrun; try discriminate.
    destruct (mapM read_instr _) as [code' | |] eqn:Hcode;
      cbn [res_bind] in Hrun; try discriminate.
    injection Hrun as <-. split; cbn [art_code art_data].
    - refine (read_code_result_typed_instrs _ _ _ Hcode).
      apply Forall_fmap. apply Forall_forall. intros d _ k v Hkv.
      rewrite lookup_fmap in Hkv. destruct (d !! k) as [w |]; [| discriminate].
      injection Hkv as <-. apply plain_plain.
    - exact (read_code_result_typed_data _ _ Hdata). }
  split; [exact Htyped |].
  intros filename' fs'. destruct Htyped as [Hcode Hdata].
  unfold read_code, write_code, files in *.
  rewrite lookup_insert_eq. unfold json_roundtrip. cbn [art_data art_code].
  rewrite (read_data_typed _ Hdata). cbn [res_bind].
  rewrite (read_code_instrs_typed _ Hcode). cbn [res_bind].
  destruct b; reflexivity.
Qed.

Lemma read_code_result_is_typed_witness :
  read_code "prog"%string (write_code "prog"%string empty_program ∅)
  = Ok empty_program_read /\
  read_code "copy"%string (write_code "copy"%string empty_program_read ∅)
  = Ok empty_program_read.
Proof.
  assert (Hread : read_code "prog"%string (write_code "prog"%string empty_program ∅)
                  = Ok empty_program_read) by (vm_compute; reflexivity).
  split; [exact Hread |].
  exact (proj2 (read_code_result_is_typed empty_program empty_program_read
                  "prog"%string ∅ Hread) "copy"%string ∅).
Defined.
